(** * MCC-Assistant: calendar interop, grouping and the two HTTP handlers

    A shallow embedding of the TypeScript sources

    - [app/api/ics/[id]/route.ts]  (the calendar-file endpoint [GET]),
    - [app/api/events/route.ts]    (the event creation endpoint [POST]),
    - [components/EventsList.tsx]  (week maths, link builder, grouping),

    together with the parts of the JavaScript runtime they call
    (strings as UTF-16 code units, [Date], [Map], [Array.prototype.sort],
    [URLSearchParams]). *)

From Stdlib Require Import ZArith NArith List Bool Lia Sorted Permutation PrimFloat.
From Stdlib Require Import Strings.Ascii Strings.String.
Import ListNotations.

Open Scope string_scope.
Open Scope list_scope.

Set Implicit Arguments.
Set Warnings "-register-all".

(* ================================================================== *)
(** * JavaScript strings *)
(* ================================================================== *)

(** A JavaScript string is a finite sequence of UTF-16 code units. *)
Definition jstring := list N.

(** Literals of the source are written as Rocq strings of ASCII characters. *)
Definition js (s : String.string) : jstring :=
  map N_of_ascii (String.list_ascii_of_string s).

Definition CR : N := 13%N.
Definition LF : N := 10%N.
Definition DQUOTE : N := 34%N.
Definition CRLF : jstring := [CR; LF].

Definition jstring_eqb (a b : jstring) : bool :=
  if list_eq_dec N.eq_dec a b then true else false.

(** [Array.prototype.join(sep)] on an array of strings. *)
Fixpoint join (sep : jstring) (xs : list jstring) : jstring :=
  match xs with
  | [] => []
  | [x] => x
  | x :: rest => x ++ sep ++ join sep rest
  end.

(** [s.replace(/c/g, r)] for a pattern that matches the single code unit
    [c]: every occurrence of [c], left to right, is replaced by [r]. *)
Definition replaceAll (c : N) (r : jstring) (s : jstring) : jstring :=
  flat_map (fun x => if N.eqb x c then r else [x]) s.

(** [s.replace(/[class]/g, r)] for a pattern that matches one code unit
    satisfying [p]. *)
Definition replaceClass (p : N -> bool) (r : jstring) (s : jstring) : jstring :=
  flat_map (fun x => if p x then r else [x]) s.

(** [s.substring(0, n)]. *)
Definition substring0 (n : nat) (s : jstring) : jstring := firstn n s.

(** [s.padStart(n, "0")]. *)
Definition padStart0 (n : nat) (s : jstring) : jstring :=
  repeat 48%N (n - List.length s) ++ s.

(** [s.slice(0, n)] for a non-negative [n]. *)
Definition slice0 (n : nat) (s : jstring) : jstring := firstn n s.

(* ================================================================== *)
(** * JavaScript numbers as they occur in the date code *)
(* ================================================================== *)

(** The getters of [Date] return an integer, or NaN on an invalid date. *)
Inductive number :=
| NaN
| Int (z : Z).

Definition num_add (a : number) (k : Z) : number :=
  match a with
  | NaN => NaN
  | Int z => Int (z + k)
  end.

(** Decimal digits of a natural number, most significant first. The fuel is
    the bit length of the number, which bounds its number of digits. *)
Fixpoint digitsN (fuel : nat) (n : N) (acc : jstring) : jstring :=
  match fuel with
  | O => acc
  | S f =>
      let acc' := (48 + n mod 10)%N :: acc in
      if (n <? 10)%N then acc' else digitsN f (n / 10)%N acc'
  end.

Definition N_toString (n : N) : jstring := digitsN (S (N.size_nat n)) n [].

Definition Z_toString (z : Z) : jstring :=
  if (z <? 0)%Z then 45%N :: N_toString (Z.abs_N z) else N_toString (Z.abs_N z).

(** [Number.prototype.toString()] *)
Definition toString (x : number) : jstring :=
  match x with
  | NaN => js "NaN"
  | Int z => Z_toString z
  end.

(* ================================================================== *)
(** * ECMAScript time values and the [Date] object *)
(* ================================================================== *)

Open Scope Z_scope.

Definition msPerSecond : Z := 1000.
Definition msPerMinute : Z := 60000.
Definition msPerHour : Z := 3600000.
Definition msPerDay : Z := 86400000.

(** A [Date] holds a time value: milliseconds since the epoch, or NaN. *)
Inductive Date :=
| InvalidDate
| TimeValue (tv : Z).

Definition maxTime : Z := 8640000000000000.

Definition TimeClip (t : Z) : Date :=
  if Z.abs t <=? maxTime then TimeValue t else InvalidDate.

(** [new Date(d)] for a [Date] argument copies its time value. *)
Definition DateCopy (d : Date) : Date :=
  match d with
  | InvalidDate => InvalidDate
  | TimeValue t => TimeClip t
  end.

(** The day and calendar functions of the standard, on time values. *)
Definition Day (t : Z) : Z := t / msPerDay.
Definition TimeWithinDay (t : Z) : Z := t mod msPerDay.

Definition DaysInYear (y : Z) : Z :=
  if (y mod 4 =? 0) && (negb (y mod 100 =? 0) || (y mod 400 =? 0))
  then 366 else 365.

Definition DayFromYear (y : Z) : Z :=
  365 * (y - 1970) + (y - 1969) / 4 - (y - 1901) / 100 + (y - 1601) / 400.

(** The year of a day number: the largest [y] with [DayFromYear y <= d].
    The mean Gregorian year has 146097/400 days, which gives an estimate
    that is off by at most one. *)
Definition YearFromDay (d : Z) : Z :=
  let y0 := 1970 + (400 * d) / 146097 in
  if DayFromYear (y0 + 1) <=? d then y0 + 1
  else if DayFromYear y0 <=? d then y0
  else y0 - 1.

Definition YearFromTime (t : Z) : Z := YearFromDay (Day t).

Definition LeapDays (y : Z) : Z := DaysInYear y - 365.

Definition InLeapYear (t : Z) : Z := LeapDays (YearFromTime t).

Definition DayWithinYear (t : Z) : Z := Day t - DayFromYear (YearFromTime t).

(** Number of days of the year that precede month [m] (0 = January). *)
Definition MonthStart (leap m : Z) : Z :=
  match m with
  | 0 => 0
  | 1 => 31
  | 2 => 59 + leap
  | 3 => 90 + leap
  | 4 => 120 + leap
  | 5 => 151 + leap
  | 6 => 181 + leap
  | 7 => 212 + leap
  | 8 => 243 + leap
  | 9 => 273 + leap
  | 10 => 304 + leap
  | _ => 334 + leap
  end.

Definition MonthFromDayWithinYear (leap d : Z) : Z :=
  if d <? 31 then 0
  else if d <? 59 + leap then 1
  else if d <? 90 + leap then 2
  else if d <? 120 + leap then 3
  else if d <? 151 + leap then 4
  else if d <? 181 + leap then 5
  else if d <? 212 + leap then 6
  else if d <? 243 + leap then 7
  else if d <? 273 + leap then 8
  else if d <? 304 + leap then 9
  else if d <? 334 + leap then 10
  else 11.

Definition MonthFromTime (t : Z) : Z :=
  MonthFromDayWithinYear (InLeapYear t) (DayWithinYear t).

Definition DateFromTime (t : Z) : Z :=
  DayWithinYear t - MonthStart (InLeapYear t) (MonthFromTime t) + 1.

Definition WeekDay (t : Z) : Z := (Day t + 4) mod 7.

Definition HourFromTime (t : Z) : Z := (t / msPerHour) mod 24.
Definition MinFromTime (t : Z) : Z := (t / msPerMinute) mod 60.
Definition SecFromTime (t : Z) : Z := (t / msPerSecond) mod 60.
Definition msFromTime (t : Z) : Z := t mod msPerSecond.

Definition MakeTime (h m s ms : Z) : Z :=
  h * msPerHour + m * msPerMinute + s * msPerSecond + ms.

Definition MakeDay (year month date : Z) : Z :=
  let ym := year + month / 12 in
  let mn := month mod 12 in
  DayFromYear ym + MonthStart (LeapDays ym) mn + date - 1.

Definition MakeDate (day time : Z) : Z := day * msPerDay + time.

(** The date of a UTC calendar day and time of day, with the month counted
    from 0; from the year 100 on this is
    [new Date(Date.UTC(y, m, d, h, mi, s))]. *)
Definition DateUTC (y m d h mi s : Z) : Date :=
  TimeClip (MakeDate (MakeDay y m d) (MakeTime h mi s 0)).

(** ** UTC getters *)

Definition onTime (f : Z -> Z) (d : Date) : number :=
  match d with
  | InvalidDate => NaN
  | TimeValue t => Int (f t)
  end.

Definition getUTCFullYear : Date -> number := onTime YearFromTime.
Definition getUTCMonth : Date -> number := onTime MonthFromTime.
Definition getUTCDate : Date -> number := onTime DateFromTime.
Definition getUTCHours : Date -> number := onTime HourFromTime.
Definition getUTCMinutes : Date -> number := onTime MinFromTime.
Definition getUTCSeconds : Date -> number := onTime SecFromTime.
Definition getUTCMilliseconds : Date -> number := onTime msFromTime.

(* ================================================================== *)
(** * Values exchanged with the HTTP layer and the store *)
(* ================================================================== *)

(** Values produced by [JSON.parse] and accepted by [NextResponse.json].
    [JUndefined] is what reading an absent property yields. *)
Inductive jsval :=
| JUndefined
| JNull
| JBool (b : bool)
| JNumber (x : float)
| JString (s : jstring)
| JArray (items : list jsval)
| JObject (fields : list (jstring * jsval)).

(** A row of the [events] table, as selected by both readers. *)
Record EventRow := mkEventRow {
  id : jstring;
  title : jstring;
  start_ts : jstring;
  end_ts : jstring;
  venue : option jstring
}.

(** The error object of the store client. *)
Record StoreError := mkStoreError { message : jstring }.

(** What awaiting a store query yields: [{ data, error }]. *)
Record QueryResult (A : Type) := mkQueryResult {
  data : option A;
  error : option StoreError
}.

Inductive Body :=
| TextBody (text : jstring)
| JsonBody (value : jsval).

Record Response := mkResponse {
  status : Z;
  body : Body;
  headers : list (jstring * jstring)
}.

(** [a ?? b] on an optional string. *)
Definition nullish (a : option jstring) (b : jstring) : jstring :=
  match a with
  | Some s => s
  | None => b
  end.

(* ================================================================== *)
(** * The calendar-file endpoint: GET /api/ics/[id] *)
(* ================================================================== *)

Module IcsRoute.

Definition BACKSLASH : N := 92%N.
Definition SEMICOLON : N := 59%N.
Definition COMMA : N := 44%N.

(** [const pad = (n: number) => n.toString().padStart(2, "0")] *)
Definition pad (n : number) : jstring := padStart0 2 (toString n).

Definition toIcsUtc (d : Date) : jstring :=
  toString (getUTCFullYear d) ++
  pad (num_add (getUTCMonth d) 1) ++
  pad (getUTCDate d) ++ js "T" ++
  pad (getUTCHours d) ++
  pad (getUTCMinutes d) ++
  pad (getUTCSeconds d) ++ js "Z".

(** Four global replacements, applied one after the other. *)
Definition escapeIcsText (s : jstring) : jstring :=
  replaceAll LF [BACKSLASH; 110%N]
    (replaceAll COMMA [BACKSLASH; COMMA]
      (replaceAll SEMICOLON [BACKSLASH; SEMICOLON]
        (replaceAll BACKSLASH [BACKSLASH; BACKSLASH] s))).

(** The array of lines built in the handler, before [join]. [start] and
    [end_] are [new Date(ev.start_ts)] and [new Date(ev.end_ts)], [now] is
    the [new Date()] of the DTSTAMP line. *)
Definition icsLines (ev : EventRow) (start end_ now : Date) : list jstring :=
  [ js "BEGIN:VCALENDAR";
    js "VERSION:2.0";
    js "PRODID:-//MCC Events//EN";
    js "CALSCALE:GREGORIAN";
    js "METHOD:PUBLISH";
    js "BEGIN:VEVENT";
    js "UID:" ++ id ev ++ js "@mcc-events";
    js "DTSTAMP:" ++ toIcsUtc now;
    js "DTSTART:" ++ toIcsUtc start;
    js "DTEND:" ++ toIcsUtc end_;
    js "SUMMARY:" ++ escapeIcsText (title ev);
    js "LOCATION:" ++ escapeIcsText (nullish (venue ev) []);
    js "END:VEVENT";
    js "END:VCALENDAR";
    [] ].

Definition ics (ev : EventRow) (start end_ now : Date) : jstring :=
  join CRLF (icsLines ev start end_ now).

(** The class [[a-z0-9_\-]] under the [i] flag: without the [u] flag a
    code unit above 127 is never folded onto an ASCII one, so the class
    holds exactly the ASCII letters, the digits, [_] and [-]. *)
Definition isFilenameChar (c : N) : bool :=
  ((97 <=? c) && (c <=? 122) || (65 <=? c) && (c <=? 90) ||
   (48 <=? c) && (c <=? 57) || (c =? 95) || (c =? 45))%N.

Definition safeTitle (t : jstring) : jstring :=
  substring0 50 (replaceClass (fun c => negb (isFilenameChar c)) (js "_") t).

Section Handler.

(** [new Date(s)] on a string: the host's date parser. *)
Variable DateParse : jstring -> Date.

(** The single-row lookup [from("events").select(..).eq("id", id).single()]. *)
Variable lookup : jstring -> QueryResult EventRow.

(** [id] is [None] when the route parameter is missing; [now] is the
    clock reading taken while the payload is built. *)
Definition GET (id : option jstring) (now : Date) : Response :=
  match id with
  | None | Some [] =>
      mkResponse 400 (TextBody (js "Missing event id")) []
  | Some i =>
      let r := lookup i in
      match error r, data r with
      | None, Some ev =>
          let start := DateParse (start_ts ev) in
          let end_ := DateParse (end_ts ev) in
          mkResponse 200 (TextBody (ics ev start end_ now))
            [ (js "Content-Type", js "text/calendar; charset=utf-8");
              (js "Content-Disposition",
               js "attachment; filename=" ++ [DQUOTE] ++ js "event-" ++
               safeTitle (title ev) ++ js ".ics" ++ [DQUOTE]) ]
      | _, _ =>
          mkResponse 404 (TextBody (js "Event not found")) []
      end
  end.

End Handler.

End IcsRoute.

(* ================================================================== *)
(** * The event creation endpoint: POST /api/events *)
(* ================================================================== *)

Module EventsRoute.

(** A value caught by [catch (err: any)]: the exceptions raised by
    [req.json()] and by the store client are error objects whose [message],
    when there is one, is a string. The handler also allows for a nullish
    thrown value and for an absent message. *)
Inductive thrown :=
| ThrownNullish
| ThrownObject (msg : option jstring).

(** An awaited call either returns or throws. *)
Inductive outcome (A : Type) :=
| Returns (a : A)
| Throws (e : thrown).
Arguments Returns {A} a.
Arguments Throws {A} e.

(** JavaScript truthiness, the test behind [!x] and [x || y]. *)
Definition truthy (v : jsval) : bool :=
  match v with
  | JUndefined | JNull => false
  | JBool b => b
  | JNumber x => negb (PrimFloat.is_zero x || PrimFloat.is_nan x)
  | JString s => negb (jstring_eqb s [])
  | JArray _ | JObject _ => true
  end.

(** Reading the own property [k] of a parsed object. *)
Fixpoint getField (k : jstring) (fields : list (jstring * jsval)) : jsval :=
  match fields with
  | [] => JUndefined
  | (k', v) :: rest => if jstring_eqb k' k then v else getField k rest
  end.

(** Property read as performed by a destructuring pattern: on anything
    that is not an object with that property the result is [undefined]. *)
Definition getProp (v : jsval) (k : jstring) : jsval :=
  match v with
  | JObject fields => getField k fields
  | _ => JUndefined
  end.

(** [v ?? d] *)
Definition nullishv (v d : jsval) : jsval :=
  match v with
  | JUndefined | JNull => d
  | _ => v
  end.

(** [NextResponse.json(value, { status })] *)
Definition json (value : jsval) (st : Z) : Response :=
  mkResponse st (JsonBody value) [].

(** [err?.message ?? "Unexpected error"] *)
Definition errorMessage (err : thrown) : jstring :=
  match err with
  | ThrownObject (Some m) => m
  | _ => js "Unexpected error"
  end.

(** The [catch] block. *)
Definition onThrow (err : thrown) : Response :=
  json (JObject [(js "error", JString (errorMessage err))]) 500.

Section Handler.

(** [createClient(..)] followed by
    [from("events").insert([{ title, start_ts, end_ts, venue }]).select().single()]. *)
Variable insertEvent :
  jsval -> jsval -> jsval -> jsval -> outcome (QueryResult jsval).

(** [parsed] is the outcome of [await req.json()]. *)
Definition POST (parsed : outcome jsval) : Response :=
  match parsed with
  | Throws err => onThrow err
  | Returns body =>
      let b := if truthy body then body else JObject [] in
      let title := getProp b (js "title") in
      let start_ts := getProp b (js "start_ts") in
      let end_ts := getProp b (js "end_ts") in
      let venue := getProp b (js "venue") in
      if negb (truthy title) || negb (truthy start_ts) || negb (truthy end_ts)
      then json (JObject [(js "error",
                           JString (js "title, start_ts, and end_ts are required"))])
                400
      else
        match insertEvent title start_ts end_ts (nullishv venue JNull) with
        | Throws err => onThrow err
        | Returns r =>
            match error r with
            | Some e => json (JObject [(js "error", JString (message e))]) 400
            | None =>
                json (match data r with Some row => row | None => JNull end) 201
            end
        end
  end.

End Handler.

End EventsRoute.

(* ================================================================== *)
(** * More of the runtime: number arithmetic, local time, ISO strings *)
(* ================================================================== *)

Definition num_sub (a b : number) : number :=
  match a, b with
  | Int x, Int y => Int (x - y)
  | _, _ => NaN
  end.

Definition num_mul (a : number) (k : Z) : number :=
  match a with
  | NaN => NaN
  | Int x => Int (x * k)
  end.

(** [a % k] for a non-zero integer constant [k]: the remainder takes the
    sign of the dividend. *)
Definition num_rem (a : number) (k : Z) : number :=
  match a with
  | NaN => NaN
  | Int x => Int (Z.rem x k)
  end.

Definition num_plus (a b : number) : number :=
  match a, b with
  | Int x, Int y => Int (x + y)
  | _, _ => NaN
  end.

(** [d.getTime()], also the number a [Date] is compared by. *)
Definition getTime (d : Date) : number := onTime (fun t => t) d.

(** [a >= b] and [a < b] on dates: false as soon as one side is NaN. *)
Definition date_geb (a b : Date) : bool :=
  match a, b with
  | TimeValue x, TimeValue y => y <=? x
  | _, _ => false
  end.

Definition date_ltb (a b : Date) : bool :=
  match a, b with
  | TimeValue x, TimeValue y => x <? y
  | _, _ => false
  end.

(** [new Date(d.getTime() + k)] *)
Definition plusMs (d : Date) (k : Z) : Date :=
  match d with
  | InvalidDate => InvalidDate
  | TimeValue t => TimeClip (t + k)
  end.

(** The host's time zone: its offset from UTC in milliseconds, at an
    instant given in UTC and at a time read on the local clock (the
    standard's LocalTZA(t, true) and LocalTZA(t, false)). *)
Record TimeZone := mkTimeZone {
  offsetAtUTC : Z -> Z;
  offsetAtLocal : Z -> Z
}.

(** A zone that keeps one offset. *)
Definition fixedZone (c : Z) : TimeZone :=
  mkTimeZone (fun _ => c) (fun _ => c).

Section LocalTime.

Variable zone : TimeZone.

Definition LocalTime (t : Z) : Z := t + offsetAtUTC zone t.
Definition UTC (t : Z) : Z := t - offsetAtLocal zone t.

Definition getDay : Date -> number := onTime (fun t => WeekDay (LocalTime t)).
Definition getDate : Date -> number :=
  onTime (fun t => DateFromTime (LocalTime t)).
Definition getHours : Date -> number :=
  onTime (fun t => HourFromTime (LocalTime t)).
Definition getMinutes : Date -> number :=
  onTime (fun t => MinFromTime (LocalTime t)).

(** [d.setHours(h, m, s, ms)], returning the date after the update. *)
Definition setHours (d : Date) (h m s ms : Z) : Date :=
  match d with
  | InvalidDate => InvalidDate
  | TimeValue tv =>
      let t := LocalTime tv in
      TimeClip (UTC (MakeDate (Day t) (MakeTime h m s ms)))
  end.

(** [d.setDate(dt)], returning the date after the update. *)
Definition setDate (d : Date) (dt : number) : Date :=
  match d, dt with
  | TimeValue tv, Int n =>
      let t := LocalTime tv in
      TimeClip (UTC (MakeDate (MakeDay (YearFromTime t) (MonthFromTime t) n)
                              (TimeWithinDay t)))
  | _, _ => InvalidDate
  end.

End LocalTime.

(** [s.padStart(n, "0")] of the decimal digits of a non-negative integer. *)
Definition padZ (n : nat) (z : Z) : jstring := padStart0 n (Z_toString z).

(** [d.toISOString()]; [None] stands for the RangeError thrown on an
    invalid date. Years outside 0..9999 use the signed six-digit form. *)
Definition toISOString (d : Date) : option jstring :=
  match d with
  | InvalidDate => None
  | TimeValue t =>
      let y := YearFromTime t in
      let year :=
        if (0 <=? y) && (y <=? 9999) then padZ 4 y
        else (if y <? 0 then 45%N else 43%N) :: padZ 6 (Z.abs y) in
      Some (year ++ js "-" ++ padZ 2 (MonthFromTime t + 1) ++ js "-" ++
            padZ 2 (DateFromTime t) ++ js "T" ++
            padZ 2 (HourFromTime t) ++ js ":" ++
            padZ 2 (MinFromTime t) ++ js ":" ++
            padZ 2 (SecFromTime t) ++ js "." ++
            padZ 3 (msFromTime t) ++ js "Z")
  end.

(* ================================================================== *)
(** * More of the runtime: Map, sort, URLSearchParams *)
(* ================================================================== *)

Section MapOfArrays.

Variable V : Type.

(** A [Map<string, V>]: entries in insertion order, keys distinct. *)
Definition jsMap := list (jstring * V).

Definition map_has (k : jstring) (m : jsMap) : bool :=
  existsb (fun e => jstring_eqb (fst e) k) m.

Fixpoint map_get (k : jstring) (m : jsMap) : option V :=
  match m with
  | [] => None
  | (k', v) :: rest => if jstring_eqb k' k then Some v else map_get k rest
  end.

(** Overwrite the value of an existing key, keeping its position. *)
Definition map_replace (k : jstring) (v : V) (m : jsMap) : jsMap :=
  map (fun e => if jstring_eqb (fst e) k then (fst e, v) else e) m.

(** [m.set(k, v)] *)
Definition map_set (k : jstring) (v : V) (m : jsMap) : jsMap :=
  if map_has k m then map_replace k v m else m ++ [(k, v)].

End MapOfArrays.

Section Sort.

Variable A : Type.

(** The comparator returns a number; [x] goes before [y] unless it is
    positive. *)
Variable cmp : A -> A -> Z.

Fixpoint insertBy (x : A) (l : list A) : list A :=
  match l with
  | [] => [x]
  | y :: rest => if cmp x y <=? 0 then x :: l else y :: insertBy x rest
  end.

(** [Array.prototype.sort(cmp)], which is stable: elements that compare
    equal keep their order. *)
Definition sortBy (l : list A) : list A := fold_right insertBy [] l.

End Sort.

(** ** URLSearchParams and the form-urlencoded serializer *)

Open Scope N_scope.

Definition isHighSurrogate (c : N) : bool := (0xD800 <=? c) && (c <=? 0xDBFF).
Definition isLowSurrogate (c : N) : bool := (0xDC00 <=? c) && (c <=? 0xDFFF).

(** The scalar values of a string: a surrogate pair is one code point and
    a lone surrogate becomes U+FFFD. *)
Fixpoint codePoints (s : jstring) : list N :=
  match s with
  | [] => []
  | c :: rest =>
      if isHighSurrogate c then
        match rest with
        | c2 :: rest2 =>
            if isLowSurrogate c2
            then (0x10000 + (c - 0xD800) * 0x400 + (c2 - 0xDC00)) :: codePoints rest2
            else 0xFFFD :: codePoints rest
        | [] => [0xFFFD]
        end
      else if isLowSurrogate c then 0xFFFD :: codePoints rest
      else c :: codePoints rest
  end.

Definition utf8OfCodePoint (cp : N) : list N :=
  if cp <? 0x80 then [cp]
  else if cp <? 0x800 then [0xC0 + cp / 0x40; 0x80 + cp mod 0x40]
  else if cp <? 0x10000 then
    [0xE0 + cp / 0x1000; 0x80 + (cp / 0x40) mod 0x40; 0x80 + cp mod 0x40]
  else
    [0xF0 + cp / 0x40000; 0x80 + (cp / 0x1000) mod 0x40;
     0x80 + (cp / 0x40) mod 0x40; 0x80 + cp mod 0x40].

Definition utf8Encode (s : jstring) : list N :=
  flat_map utf8OfCodePoint (codePoints s).

Definition isAsciiAlphanumeric (b : N) : bool :=
  (48 <=? b) && (b <=? 57) || (65 <=? b) && (b <=? 90) ||
  (97 <=? b) && (b <=? 122).

(** Bytes the form-urlencoded serializer leaves as they are. *)
Definition isFormSafe (b : N) : bool :=
  isAsciiAlphanumeric b || (b =? 42) || (b =? 45) || (b =? 46) || (b =? 95).

(** An upper-case hexadecimal digit. *)
Definition hexDigit (n : N) : N := if n <? 10 then 48 + n else 55 + n.

(** Serializing one byte; a byte is below 256, which the [mod] records. *)
Definition formEncodeByte (b : N) : jstring :=
  if isFormSafe b then [b]
  else if b =? 32 then [43]
  else [37; hexDigit ((b / 16) mod 16); hexDigit (b mod 16)].

Definition formEncode (s : jstring) : jstring :=
  flat_map formEncodeByte (utf8Encode s).

Definition URLSearchParams := list (jstring * jstring).

(** [params.set(name, value)]: the first entry of that name takes the
    value and any further ones are dropped; a new name is appended. *)
Fixpoint params_set_first (name value : jstring) (ps : URLSearchParams)
  : URLSearchParams :=
  match ps with
  | [] => []
  | (n, v) :: rest =>
      if jstring_eqb n name
      then (n, value) :: filter (fun e => negb (jstring_eqb (fst e) name)) rest
      else (n, v) :: params_set_first name value rest
  end.

Definition params_set (name value : jstring) (ps : URLSearchParams)
  : URLSearchParams :=
  if existsb (fun e => jstring_eqb (fst e) name) ps
  then params_set_first name value ps
  else ps ++ [(name, value)].

(** [params.toString()] *)
Definition params_toString (ps : URLSearchParams) : jstring :=
  join (js "&") (map (fun e => formEncode (fst e) ++ js "=" ++ formEncode (snd e)) ps).

Open Scope Z_scope.

(* ================================================================== *)
(** * The events list component *)
(* ================================================================== *)

Module EventsList.

(** [const WEEK_START = 1]: weeks start on Monday. *)
Definition WEEK_START : Z := 1.

Section Week.

Variable zone : TimeZone.

Definition startOfWeek (d : Date) : Date :=
  let date := DateCopy d in
  let day := num_rem (num_add (num_add (getDay zone date) (- WEEK_START)) 7) 7 in
  let date1 := setHours zone date 0 0 0 0 in
  setDate zone date1 (num_sub (getDate zone date1) day).

Definition endOfWeek (d : Date) : Date :=
  let s := startOfWeek d in
  let e := DateCopy s in
  setDate zone e (num_add (getDate zone e) 7).

Definition dayIndex (date : Date) : number :=
  num_rem (num_add (num_add (getDay zone date) (- WEEK_START)) 7) 7.

Definition minutesSinceMidnight (d : Date) : number :=
  num_plus (num_mul (getHours zone d) 60) (getMinutes zone d).

Variable DateParse : jstring -> Date.

(** The filter of [WeekView]; [now1] and [now2] are the two clock readings
    [new Date()] behind [weekStart] and [weekEnd]. *)
Definition weekEvents (now1 now2 : Date) (events : list EventRow)
  : list EventRow :=
  let weekStart := startOfWeek now1 in
  let weekEnd := endOfWeek now2 in
  filter (fun ev =>
            let s := DateParse (start_ts ev) in
            date_geb s weekStart && date_ltb s weekEnd) events.

End Week.

(** [function pad(n: number) { return n.toString().padStart(2, "0") }] *)
Definition pad (n : number) : jstring := padStart0 2 (toString n).

Definition toGoogleDateUTC (d : Date) : jstring :=
  toString (getUTCFullYear d) ++
  pad (num_add (getUTCMonth d) 1) ++
  pad (getUTCDate d) ++ js "T" ++
  pad (getUTCHours d) ++
  pad (getUTCMinutes d) ++
  pad (getUTCSeconds d) ++ js "Z".

(** [if (s) ...] on an optional string: present and not empty. *)
Definition truthyStr (s : option jstring) : bool :=
  match s with
  | Some (_ :: _) => true
  | _ => false
  end.

(** The parameter list before it is serialized. *)
Definition googleCalParams (title : jstring) (start end_ : Date)
  (location details : option jstring) : URLSearchParams :=
  let params :=
    [ (js "action", js "TEMPLATE");
      (js "text", title);
      (js "dates", toGoogleDateUTC start ++ js "/" ++ toGoogleDateUTC end_) ] in
  let params :=
    if truthyStr location
    then params_set (js "location") (nullish location []) params else params in
  if truthyStr details
  then params_set (js "details") (nullish details []) params else params.

Definition buildGoogleCalUrl (title : jstring) (start end_ : Date)
  (location details : option jstring) : jstring :=
  let base := js "https://calendar.google.com/calendar/render" in
  base ++ js "?" ++
  params_toString (googleCalParams title start end_ location details).

Section ListView.

Variable DateParse : jstring -> Date.

(** [a.localeCompare(b)], the host's collation. *)
Variable localeCompare : jstring -> jstring -> Z.

(** [new Date(ev.start_ts).toISOString().slice(0, 10)] *)
Definition dayKeyOf (ev : EventRow) : option jstring :=
  option_map (slice0 10) (toISOString (DateParse (start_ts ev))).

(** One turn of the [for ... of] loop; [None] is a thrown exception. *)
Definition groupStep (acc : option (jsMap (list EventRow))) (ev : EventRow)
  : option (jsMap (list EventRow)) :=
  match acc with
  | None => None
  | Some m =>
      match dayKeyOf ev with
      | None => None
      | Some dayKey =>
          let m1 := if map_has dayKey m then m else map_set dayKey [] m in
          match map_get dayKey m1 with
          | None => None
          | Some rows => Some (map_replace dayKey (rows ++ [ev]) m1)
          end
      end
  end.

(** The [groups] memo of [ListView]. *)
Definition groups (events : list EventRow)
  : option (list (jstring * list EventRow)) :=
  option_map
    (sortBy (fun a b => localeCompare (fst a) (fst b)))
    (fold_left groupStep events (Some [])).

End ListView.

End EventsList.

(* ================================================================== *)
(** * Concrete hosts, used to run the model *)
(* ================================================================== *)

(** Value of a decimal digit, when the code unit is one. *)
Definition digitValue (c : N) : option Z :=
  if ((48 <=? c) && (c <=? 57))%N then Some (Z.of_N c - 48) else None.

Fixpoint decimalValue (acc : Z) (s : jstring) : option Z :=
  match s with
  | [] => Some acc
  | c :: rest =>
      match digitValue c with
      | Some v => decimalValue (10 * acc + v) rest
      | None => None
      end
  end.

(** A stand-in for the host's date parser that reads the form
    [YYYY-MM-DDTHH:mm:ssZ], the only one the examples need, and takes any
    other text for an invalid date. *)
Definition parseIsoUtc (s : jstring) : Date :=
  match s with
  | [y1; y2; y3; y4; 45%N; m1; m2; 45%N; d1; d2; 84%N;
     h1; h2; 58%N; i1; i2; 58%N; s1; s2; 90%N] =>
      match decimalValue 0 [y1; y2; y3; y4], decimalValue 0 [m1; m2],
            decimalValue 0 [d1; d2], decimalValue 0 [h1; h2],
            decimalValue 0 [i1; i2], decimalValue 0 [s1; s2] with
      | Some y, Some m, Some d, Some h, Some i, Some sec =>
          if (1 <=? m) && (m <=? 12) && (1 <=? d) && (d <=? 31) &&
             (h <=? 23) && (i <=? 59) && (sec <=? 59)
          then DateUTC y (m - 1) d h i sec
          else InvalidDate
      | _, _, _, _, _, _ => InvalidDate
      end
  | _ => InvalidDate
  end.

(** Comparison by code units, a collation that agrees with every locale on
    strings of digits and hyphens of one shape. *)
Fixpoint codeUnitCompare (a b : jstring) : Z :=
  match a, b with
  | [], [] => 0
  | [], _ :: _ => -1
  | _ :: _, [] => 1
  | x :: a', y :: b' =>
      if (x <? y)%N then -1 else if (y <? x)%N then 1 else codeUnitCompare a' b'
  end.

(* ================================================================== *)
(** * More of the runtime: trimming, [Math.max] and [Math.min] *)
(* ================================================================== *)

(** The code units [String.prototype.trim] removes: the white space and
    the line terminators of the standard. *)
Definition isWhiteSpace (c : N) : bool :=
  ((c =? 9) || (c =? 10) || (c =? 11) || (c =? 12) || (c =? 13) ||
   (c =? 32) || (c =? 160) || (c =? 5760) ||
   (8192 <=? c) && (c <=? 8202) ||
   (c =? 8232) || (c =? 8233) || (c =? 8239) || (c =? 8287) ||
   (c =? 12288) || (c =? 65279))%N.

Fixpoint trimStart (s : jstring) : jstring :=
  match s with
  | [] => []
  | c :: rest => if isWhiteSpace c then trimStart rest else s
  end.

Definition trimEnd (s : jstring) : jstring := rev (trimStart (rev s)).

(** [s.trim()] *)
Definition trim (s : jstring) : jstring := trimEnd (trimStart s).

(** [Math.max(a, k)] and [Math.min(a, k)] for an integer constant [k]. *)
Definition num_max (a : number) (k : Z) : number :=
  match a with
  | NaN => NaN
  | Int x => Int (Z.max x k)
  end.

Definition num_min (a : number) (k : Z) : number :=
  match a with
  | NaN => NaN
  | Int x => Int (Z.min x k)
  end.

(** [a === k] for an integer constant [k]. *)
Definition num_eqb (a : number) (k : Z) : bool :=
  match a with
  | NaN => false
  | Int x => x =? k
  end.

(* ================================================================== *)
(** * The week grid of the events list component *)
(* ================================================================== *)

Module WeekView.

(** The layout constants of [WeekView]. *)
Definition dayHoursStart : Z := 8.
Definition dayHoursEnd : Z := 20.
Definition minutesSpan : Z := (dayHoursEnd - dayHoursStart) * 60.

Section Grid.

Variable zone : TimeZone.
Variable DateParse : jstring -> Date.

(** The date of header cell [i]:
    [const d = new Date(weekStart); d.setDate(d.getDate() + i)]. *)
Definition headerDate (weekStart : Date) (i : Z) : Date :=
  let d := DateCopy weekStart in
  setDate zone d (num_add (getDate zone d) i).

(** The events drawn in day column [col]:
    [weekEvents.filter((ev) => dayIndex(new Date(ev.start_ts)) === col)]. *)
Definition columnEvents (weekEvents : list EventRow) (col : Z)
  : list EventRow :=
  filter (fun ev =>
            num_eqb (EventsList.dayIndex zone (DateParse (start_ts ev))) col)
         weekEvents.

(** The seven columns, [Array.from({ length: 7 })]. *)
Definition columns (weekEvents : list EventRow) : list (list EventRow) :=
  map (columnEvents weekEvents) [0; 1; 2; 3; 4; 5; 6].

(** Minutes from the top of the 8:00 to 20:00 window, clamped to it:
    [Math.max(minutesSinceMidnight(s), dayHoursStart * 60) - dayHoursStart * 60]
    and
    [Math.min(minutesSinceMidnight(e), dayHoursEnd * 60) - dayHoursStart * 60]. *)
Definition sMin (s : Date) : number :=
  num_add (num_max (EventsList.minutesSinceMidnight zone s) (dayHoursStart * 60))
          (- (dayHoursStart * 60)).

Definition eMin (e : Date) : number :=
  num_add (num_min (EventsList.minutesSinceMidnight zone e) (dayHoursEnd * 60))
          (- (dayHoursStart * 60)).

End Grid.

End WeekView.

(* ================================================================== *)
(** * Pages that load events *)
(* ================================================================== *)

(** The three [useState] cells of a page that loads events. *)
Record PageState := mkPageState {
  st_events : list EventRow;
  st_loading : bool;
  st_error : option jstring
}.

(** [useState([])], [useState(true)], [useState(null)]. *)
Definition initialState : PageState := mkPageState [] true None.

Definition setEvents (rows : list EventRow) (st : PageState) : PageState :=
  mkPageState rows (st_loading st) (st_error st).
Definition setLoading (b : bool) (st : PageState) : PageState :=
  mkPageState (st_events st) b (st_error st).
Definition setError (e : option jstring) (st : PageState) : PageState :=
  mkPageState (st_events st) (st_loading st) e.

(** [setError(e.message ?? fallback)] in a [catch (e: any)] block. Reading
    the message of a nullish thrown value throws in turn, and nothing is
    set. *)
Definition catchError (fallback : jstring) (e : EventsRoute.thrown)
  (st : PageState) : PageState :=
  match e with
  | EventsRoute.ThrownNullish => st
  | EventsRoute.ThrownObject (Some m) => setError (Some m) st
  | EventsRoute.ThrownObject None => setError (Some fallback) st
  end.

(** [data ?? []] *)
Definition rowsOrNone (d : option (list EventRow)) : list EventRow :=
  match d with
  | Some rows => rows
  | None => []
  end.

Module UpcomingEvents.

Section Load.

(** The message of the RangeError that [toISOString] throws. *)
Variable rangeMessage : jstring.

(** The awaited query
    [from("events").select(..).gte("start_ts", nowIso).order(..)]. *)
Variable query : jstring -> EventsRoute.outcome (QueryResult (list EventRow)).

(** The effect that runs once after the first render; [now] is the clock
    reading [new Date()]. *)
Definition load (now : Date) (st : PageState) : PageState :=
  let fallback := js "Failed to load events" in
  let st1 :=
    match toISOString now with
    | None =>
        catchError fallback (EventsRoute.ThrownObject (Some rangeMessage)) st
    | Some nowIso =>
        match query nowIso with
        | EventsRoute.Throws e => catchError fallback e st
        | EventsRoute.Returns r =>
            match error r with
            | Some err =>
                catchError fallback
                  (EventsRoute.ThrownObject (Some (message err))) st
            | None => setEvents (rowsOrNone (data r)) st
            end
        end
    end in
  setLoading false st1.

End Load.

(** What the component returns. *)
Inductive Screen :=
| LoadingScreen
| ErrorScreen (msg : jstring)
| EmptyScreen
| EventsScreen (events : list EventRow).

Definition render (st : PageState) : Screen :=
  if st_loading st then LoadingScreen
  else
    match st_error st with
    | Some (c :: m) => ErrorScreen (c :: m)
    | _ =>
        match st_events st with
        | [] => EmptyScreen
        | rows => EventsScreen rows
        end
    end.

End UpcomingEvents.

(* ================================================================== *)
(** * The kiosk page *)
(* ================================================================== *)

Module KioskPage.

Section Today.

Variable zone : TimeZone.

(** [const startOfDay = new Date(now); startOfDay.setHours(0, 0, 0, 0)] *)
Definition startOfDay (now : Date) : Date :=
  setHours zone (DateCopy now) 0 0 0 0.

(** [const endOfDay = new Date(startOfDay);
     endOfDay.setDate(endOfDay.getDate() + 1)] *)
Definition endOfDay (now : Date) : Date :=
  let e := DateCopy (startOfDay now) in
  setDate zone e (num_add (getDate zone e) 1).

(** The two bounds handed to the query,
    [.gte("start_ts", startOfDay.toISOString())] and
    [.lt("start_ts", endOfDay.toISOString())]; [None] when [toISOString]
    throws. *)
Definition queryBounds (now : Date) : option (jstring * jstring) :=
  match toISOString (startOfDay now), toISOString (endOfDay now) with
  | Some a, Some b => Some (a, b)
  | _, _ => None
  end.

End Today.

Section Load.

Variable zone : TimeZone.

(** The message of the RangeError that [toISOString] throws. *)
Variable rangeMessage : jstring.

(** One run of [load]. [mounted] is the flag of the effect, [query] the
    awaited [.gte(..).lt(..).order(..)] of this run, [now] its clock
    reading. *)
Definition load (mounted : bool)
  (query : jstring -> jstring -> EventsRoute.outcome (QueryResult (list EventRow)))
  (now : Date) (st : PageState) : PageState :=
  let fallback := js "Failed to load" in
  let guarded (f : PageState -> PageState) (s : PageState) :=
    if mounted then f s else s in
  let st0 := setLoading true (setError None st) in
  let st1 :=
    match queryBounds zone now with
    | None =>
        guarded (catchError fallback
                   (EventsRoute.ThrownObject (Some rangeMessage))) st0
    | Some (a, b) =>
        match query a b with
        | EventsRoute.Throws e => guarded (catchError fallback e) st0
        | EventsRoute.Returns r =>
            match error r with
            | Some err =>
                guarded (catchError fallback
                           (EventsRoute.ThrownObject (Some (message err)))) st0
            | None => guarded (setEvents (rowsOrNone (data r))) st0
            end
        end
    end in
  guarded (setLoading false) st1.

End Load.

(** The notices above the list, and the list. *)
Record View := mkView {
  loadingNotice : bool;
  errorNotice : option jstring;
  emptyNotice : bool;
  items : list EventRow
}.

Definition render (st : PageState) : View :=
  let failed := EventsList.truthyStr (st_error st) in
  mkView (st_loading st)
         (if failed then st_error st else None)
         (negb (st_loading st) && negb failed &&
          (List.length (st_events st) =? 0)%nat)
         (st_events st).

End KioskPage.

(* ================================================================== *)
(** * The admin page *)
(* ================================================================== *)

Module AdminPage.

(** [String(v || "")] on what [fd.get(name)] returns for a text field: a
    string, or null when the field is absent. *)
Definition stringOrEmpty (v : option jstring) : jstring :=
  match v with
  | Some s => s
  | None => []
  end.

(** What [fetch] resolves to, as far as the page reads it. *)
Record FetchResponse := mkFetchResponse {
  res_status : Z;
  res_json : EventsRoute.outcome jsval
}.

(** [res.ok] *)
Definition res_ok (r : FetchResponse) : bool :=
  (200 <=? res_status r) && (res_status r <=? 299).

(** What a submission leaves behind: the message shown, the body that was
    posted if any, whether the form was cleared, and the submitting flag. *)
Record Submission := mkSubmission {
  shown : option jstring;
  posted : option jsval;
  cleared : bool;
  submitting : bool
}.

Section Page.

(** [new Date(s)] on a string: the host's date parser. *)
Variable DateParse : jstring -> Date.

Definition toIsoFromLocal (value : option jstring) : option jstring :=
  match value with
  | None | Some [] => None
  | Some s =>
      let local := DateParse s in
      match getTime local with
      | NaN => None
      | Int _ => toISOString local
      end
  end.

(** [fetch("/api/events", { method: "POST", body: JSON.stringify(body) })] *)
Variable fetchEvents : jsval -> EventsRoute.outcome FetchResponse.

(** The host's conversion to string, used by [new Error(v)] when [v] is
    not a string. *)
Variable ToString : jsval -> jstring.

Definition errorText (v : jsval) : jstring :=
  match v with
  | JString s => s
  | _ => ToString v
  end.

(** The [catch] block of [handleSubmit]; reading [err.message] of a
    nullish [err] throws, and then no message is set. *)
Definition onCatch (body : jsval) (err : EventsRoute.thrown) : Submission :=
  match err with
  | EventsRoute.ThrownNullish => mkSubmission None (Some body) false false
  | EventsRoute.ThrownObject (Some m) =>
      mkSubmission (Some (js "Error: " ++ m)) (Some body) false false
  | EventsRoute.ThrownObject None =>
      mkSubmission (Some (js "Error: Something went wrong")) (Some body)
                   false false
  end.

(** The message of a successful submission; its check mark and its dash
    are the code units 9989 and 8212. *)
Definition createdMessage : jstring :=
  js "Event created " ++ [9989%N] ++ js " " ++ [8212%N] ++
  js " check the homepage list.".

Definition handleSubmit (titleField startField endField venueField
                         : option jstring) : Submission :=
  let title := trim (stringOrEmpty titleField) in
  let startIso := toIsoFromLocal startField in
  let endIso := toIsoFromLocal endField in
  let venue :=
    match trim (stringOrEmpty venueField) with
    | [] => JNull
    | v => JString v
    end in
  match title, startIso, endIso with
  | _ :: _, Some ((_ :: _) as s), Some ((_ :: _) as e) =>
      let body :=
        JObject [ (js "title", JString title);
                  (js "start_ts", JString s);
                  (js "end_ts", JString e);
                  (js "venue", venue) ] in
      match fetchEvents body with
      | EventsRoute.Throws err => onCatch body err
      | EventsRoute.Returns res =>
          if negb (res_ok res) then
            let err :=
              match res_json res with
              | EventsRoute.Returns v => v
              | EventsRoute.Throws _ => JObject []
              end in
            let e :=
              match err with
              | JUndefined | JNull => JUndefined
              | _ => EventsRoute.getProp err (js "error")
              end in
            let text :=
              if EventsRoute.truthy e then errorText e
              else js "Request failed (" ++ Z_toString (res_status res) ++ js ")" in
            onCatch body (EventsRoute.ThrownObject (Some text))
          else mkSubmission (Some createdMessage) (Some body) true false
      end
  | _, _, _ =>
      mkSubmission (Some (js "Please fill Title, Start, and End.")) None
                   false false
  end.

End Page.

End AdminPage.

Unset Implicit Arguments.

(* ================================================================== *)
(** * Notions used to state the properties *)
(* ================================================================== *)

(** The code units of the decimal digits. *)
Definition isDigit (c : N) : Prop := (48 <= c <= 57)%N.

(** The code unit of the last decimal digit of [z]. *)
Definition digitOf (z : Z) : N := (48 + Z.to_N (z mod 10))%N.

Definition twoDigits (z : Z) : jstring := [digitOf (z / 10); digitOf z].

Definition fourDigits (z : Z) : jstring :=
  [digitOf (z / 1000); digitOf (z / 100); digitOf (z / 10); digitOf z].

(** The form YYYYMMDDTHHMMSSZ of the UTC calendar fields of an instant. *)
Definition compactUTC (t : Z) : jstring :=
  fourDigits (YearFromTime t) ++
  twoDigits (MonthFromTime t + 1) ++
  twoDigits (DateFromTime t) ++ js "T" ++
  twoDigits (HourFromTime t) ++
  twoDigits (MinFromTime t) ++
  twoDigits (SecFromTime t) ++ js "Z".

(** Instants whose UTC year has four digits. *)
Definition fourDigitYear (t : Z) : Prop := 1000 <= YearFromTime t <= 9999.

Definition jstring_eq_dec : forall a b : jstring, {a = b} + {a <> b} :=
  list_eq_dec N.eq_dec.

(** Escaping in one pass, one code unit at a time. *)
Definition escapeChar (c : N) : jstring :=
  if (c =? IcsRoute.BACKSLASH)%N then [IcsRoute.BACKSLASH; IcsRoute.BACKSLASH]
  else if (c =? IcsRoute.SEMICOLON)%N then [IcsRoute.BACKSLASH; IcsRoute.SEMICOLON]
  else if (c =? IcsRoute.COMMA)%N then [IcsRoute.BACKSLASH; IcsRoute.COMMA]
  else if (c =? LF)%N then [IcsRoute.BACKSLASH; 110%N]
  else [c].

(** The code units the iCalendar text format reserves. *)
Definition reserved (c : N) : Prop :=
  c = IcsRoute.BACKSLASH \/ c = IcsRoute.SEMICOLON \/ c = IcsRoute.COMMA \/ c = LF.

(** The lines of a text whose lines are separated by CR LF. *)
Fixpoint splitCRLF (s : jstring) : list jstring :=
  match s with
  | [] => [[]]
  | c :: rest =>
      match rest with
      | c2 :: rest2 =>
          if ((c =? CR) && (c2 =? LF))%N then [] :: splitCRLF rest2
          else match splitCRLF rest with
               | l :: ls => (c :: l) :: ls
               | [] => [[c]]
               end
      | [] => [[c]]
      end
  end.

(** Every line feed of the text directly follows a carriage return. *)
Definition OnlyCRLF (text : jstring) : Prop :=
  forall pre post, text = pre ++ LF :: post -> exists pre', pre = pre' ++ [CR].

(** A calendar document with one event block. *)
Record WellFormedCalendar (text : jstring) : Prop := {
  wf_begins : exists rest, text = js "BEGIN:VCALENDAR" ++ CRLF ++ rest;
  wf_one_begin :
    count_occ jstring_eq_dec (splitCRLF text) (js "BEGIN:VEVENT") = 1%nat;
  wf_one_end :
    count_occ jstring_eq_dec (splitCRLF text) (js "END:VEVENT") = 1%nat;
  wf_matching :
    exists a b c,
      splitCRLF text = a ++ js "BEGIN:VEVENT" :: b ++ js "END:VEVENT" :: c;
  wf_ends : exists front, text = front ++ CRLF ++ js "END:VCALENDAR" ++ CRLF;
  wf_crlf : OnlyCRLF text
}.

(** [line] is one of the lines between BEGIN:VEVENT and END:VEVENT. *)
Definition eventLine (line text : jstring) : Prop :=
  exists pre mid1 mid2 post,
    text = pre ++ js "BEGIN:VEVENT" ++ mid1 ++ CRLF ++ line ++ CRLF ++
           mid2 ++ js "END:VEVENT" ++ post.

(** The event of the serializer scenario. *)
Definition welcomeBBQ : EventRow :=
  mkEventRow (js "e1") (js "Welcome BBQ") (js "2025-09-05T17:00:00Z")
             (js "2025-09-05T19:00:00Z") (Some (js "Main Hall")).

(** An event as the store returns it, with a UUID for its id. *)
Definition uuidEvent : EventRow :=
  mkEventRow (js "3f2a9c1e-7b4d-4e6a-9f10-2c8d5a7b6e01") (js "Welcome BBQ")
             (js "2025-09-05T17:00:00Z") (js "2025-09-05T19:00:00Z") None.

(** An event whose id holds a line feed. *)
Definition lineFeedIdEvent : EventRow :=
  mkEventRow (js "a" ++ [LF] ++ js "b") (js "Welcome BBQ")
             (js "2025-09-05T17:00:00Z") (js "2025-09-05T19:00:00Z") None.

(** Searching a text for a pattern. *)
Fixpoint isPrefix (p s : jstring) : bool :=
  match p, s with
  | [], _ => true
  | x :: p', y :: s' => (x =? y)%N && isPrefix p' s'
  | _ :: _, [] => false
  end.

Fixpoint isInfix (p s : jstring) : bool :=
  isPrefix p s ||
  match s with
  | [] => false
  | _ :: s' => isInfix p s'
  end.

(** A store that holds the scenario event under the id e1 and nothing
    else. *)
Definition demoLookup (i : jstring) : QueryResult EventRow :=
  if jstring_eqb i (js "e1")
  then mkQueryResult (Some welcomeBBQ) None
  else mkQueryResult None (Some (mkStoreError (js "no rows returned"))).

Definition noon : Date := DateUTC 2025 8 1 12 0 0.

(** A required field that is absent from the body or is the empty string. *)
Definition MissingOrEmpty (v : jsval) : Prop :=
  v = JUndefined \/ v = JString [].

(** A store that accepts every insert and returns the stored row. *)
Definition acceptingStore (title start_ts end_ts venue : jsval)
  : EventsRoute.outcome (QueryResult jsval) :=
  EventsRoute.Returns
    (mkQueryResult
       (Some (JObject [ (js "id", JString (js "e9"));
                        (js "title", title);
                        (js "start_ts", start_ts);
                        (js "end_ts", end_ts);
                        (js "venue", venue) ]))
       None).

(** A store that rejects every insert. *)
Definition rejectingStore (title start_ts end_ts venue : jsval)
  : EventsRoute.outcome (QueryResult jsval) :=
  EventsRoute.Returns
    (mkQueryResult None (Some (mkStoreError (js "permission denied")))).

(** A request body with the three required fields. *)
Definition bbqBody : jsval :=
  JObject [ (js "title", JString (js "Welcome BBQ"));
            (js "start_ts", JString (js "2025-09-05T17:00:00Z"));
            (js "end_ts", JString (js "2025-09-05T19:00:00Z")) ].

(** A request body whose title is null. *)
Definition nullTitleBody : jsval :=
  JObject [ (js "title", JNull);
            (js "start_ts", JString (js "2025-09-05T17:00:00Z"));
            (js "end_ts", JString (js "2025-09-05T19:00:00Z")) ].

(** The column of a local time in a Monday-first week. *)
Definition mondayIndex (t : Z) : Z :=
  Z.rem (WeekDay t + - EventsList.WEEK_START + 7) 7.

(** The characters of a serialized query: the ones the serializer keeps,
    the plus sign that stands for a space, the percent sign of an escape,
    and the two separators. *)
Definition isUrlSafe (c : N) : bool :=
  (isFormSafe c || (c =? 43) || (c =? 37) || (c =? 38) || (c =? 61))%N.

(** The entry a present, non-empty optional parameter contributes. *)
Definition optionalParam (name : jstring) (value : option jstring)
  : URLSearchParams :=
  match value with
  | Some (c :: rest) => [(name, c :: rest)]
  | _ => []
  end.

(** Its text in the serialized query. *)
Definition optionalQuery (name : jstring) (value : option jstring) : jstring :=
  match value with
  | Some (c :: rest) => js "&" ++ name ++ js "=" ++ formEncode (c :: rest)
  | _ => []
  end.

(** The start and the end of the scenario event. *)
Definition bbqStart : Date := DateUTC 2025 8 5 17 0 0.
Definition bbqEnd : Date := DateUTC 2025 8 5 19 0 0.

(** The day key of an event; empty when its start is not a valid date. *)
Definition keyOf (DateParse : jstring -> Date) (ev : EventRow) : jstring :=
  match EventsList.dayKeyOf DateParse ev with
  | Some k => k
  | None => []
  end.

(** The events of day [k], in the order of the input list. *)
Definition rowsOf (DateParse : jstring -> Date) (k : jstring)
  (events : list EventRow) : list EventRow :=
  filter (fun ev => jstring_eqb (keyOf DateParse ev) k) events.

(** What the map of the grouping loop holds once the events [done] have
    been processed: one entry per day, with the events of that day in
    their order of arrival. *)
Definition groupedBy (DateParse : jstring -> Date) (done : list EventRow)
  (m : jsMap (list EventRow)) : Prop :=
  NoDup (map fst m) /\
  (forall k rows,
     In (k, rows) m -> rows = rowsOf DateParse k done /\ rows <> []) /\
  (forall ev, In ev done -> In (keyOf DateParse ev) (map fst m)).

(** Every event of the list has a start instant. *)
Definition validStarts (DateParse : jstring -> Date) (events : list EventRow)
  : Prop :=
  Forall (fun ev => exists t, DateParse (start_ts ev) = TimeValue t) events.

(** [a] starts no later than [b]. *)
Definition startsBefore (DateParse : jstring -> Date) (a b : EventRow) : Prop :=
  exists s t,
    DateParse (start_ts a) = TimeValue s /\
    DateParse (start_ts b) = TimeValue t /\ s <= t.

(** A comparator that puts any two strings in order, consistently. *)
Definition Collation (cmp : jstring -> jstring -> Z) : Prop :=
  (forall a b, cmp a b <= 0 \/ cmp b a <= 0) /\
  (forall a b c, cmp a b <= 0 -> cmp b c <= 0 -> cmp a c <= 0).

(** The groups are in ascending order of their keys. *)
Definition keysAscend (cmp : jstring -> jstring -> Z)
  (gs : list (jstring * list EventRow)) : Prop :=
  StronglySorted (fun g h => cmp (fst g) (fst h) <= 0) gs.

(** The two events of the grouping scenario, and a third on the next day. *)
Definition morningEvent : EventRow :=
  mkEventRow (js "m1") (js "Breakfast") (js "2025-01-01T10:00:00Z")
             (js "2025-01-01T11:00:00Z") None.

Definition lateEvent : EventRow :=
  mkEventRow (js "l1") (js "Film night") (js "2025-01-01T23:00:00Z")
             (js "2025-01-01T23:30:00Z") None.

Definition nextDayEvent : EventRow :=
  mkEventRow (js "n1") (js "Brunch") (js "2025-01-02T09:00:00Z")
             (js "2025-01-02T11:00:00Z") None.

(** [d] moved by [k] milliseconds on the local clock of the zone. *)
Definition plusLocalMs (zone : TimeZone) (d : Date) (k : Z) : Date :=
  match d with
  | InvalidDate => InvalidDate
  | TimeValue t => TimeClip (UTC zone (LocalTime zone t + k))
  end.

(** A zone in which every local midnight exists (no clock change skips
    one) and whose offset stays below a day. *)
Definition RegularZone (zone : TimeZone) : Prop :=
  (forall x, x mod msPerDay = 0 -> LocalTime zone (UTC zone x) = x) /\
  (forall x, Z.abs (offsetAtLocal zone x) < msPerDay).

(** Five hours behind UTC until clocks go forward on 9 March 2025 at
    02:00, four hours behind from then on; a local time in the skipped
    hour is read with the earlier offset. *)
Definition easternSpring2025 : TimeZone :=
  mkTimeZone
    (fun t => if t <? 1741503600000 then -18000000 else -14400000)
    (fun x => if x <? 1741489200000 then -18000000 else -14400000).

(** The last [k] decimal digits of [z], most significant first. *)
Fixpoint digitsK (k : nat) (z : Z) : jstring :=
  match k with
  | O => []
  | S k' => digitsK k' (z / 10) ++ [digitOf z]
  end.

(** The form YYYY-MM-DD of the UTC calendar day of an instant. *)
Definition isoDay (t : Z) : jstring :=
  digitsK 4 (YearFromTime t) ++ js "-" ++
  digitsK 2 (MonthFromTime t + 1) ++ js "-" ++
  digitsK 2 (DateFromTime t).

(** The form YYYY-MM-DDTHH:mm:ss.sssZ of an instant. *)
Definition isoInstant (t : Z) : jstring :=
  isoDay t ++ js "T" ++
  digitsK 2 (HourFromTime t) ++ js ":" ++
  digitsK 2 (MinFromTime t) ++ js ":" ++
  digitsK 2 (SecFromTime t) ++ js "." ++
  digitsK 3 (msFromTime t) ++ js "Z".

(** Instants whose UTC year is written with four digits by [toISOString]. *)
Definition plainYear (t : Z) : Prop := 0 <= YearFromTime t <= 9999.

(** The form [+YYYYYY-MM] or [-YYYYYY-MM] of the UTC month of an instant
    whose year is written with a sign and six digits. *)
Definition signedMonth (t : Z) : jstring :=
  (if YearFromTime t <? 0 then 45%N else 43%N) ::
  digitsK 6 (Z.abs (YearFromTime t)) ++ js "-" ++
  digitsK 2 (MonthFromTime t + 1).

(** Two events of March of the year 12000, and a parser that knows their
    start texts. *)
Definition reunionEvent : EventRow :=
  mkEventRow (js "f1") (js "Reunion") (js "+012000-03-01T10:00:00Z")
             (js "+012000-03-01T11:00:00Z") None.

Definition jubileeEvent : EventRow :=
  mkEventRow (js "f2") (js "Jubilee") (js "+012000-03-20T10:00:00Z")
             (js "+012000-03-20T11:00:00Z") None.

Definition parseYear12000 (s : jstring) : Date :=
  if jstring_eqb s (js "+012000-03-01T10:00:00Z") then DateUTC 12000 2 1 10 0 0
  else if jstring_eqb s (js "+012000-03-20T10:00:00Z") then DateUTC 12000 2 20 10 0 0
  else InvalidDate.

(** A zone whose local clock is never set back. *)
Definition ForwardZone (zone : TimeZone) : Prop :=
  forall x y, x < y -> LocalTime zone x < LocalTime zone y.

(** The local minute of the day of an instant. *)
Definition localMinute (zone : TimeZone) (t : Z) : Z :=
  TimeWithinDay (LocalTime zone t) / msPerMinute.

(** An event on the Sunday on which the clocks of [easternSpring2025] go
    forward, at 08:00 local time. *)
Definition sundayEvent : EventRow :=
  mkEventRow (js "s1") (js "Brunch") (js "2025-03-09T12:00:00Z")
             (js "2025-03-09T13:00:00Z") None.

(** An event of Wednesday 8 January 2025. *)
Definition secondWeekEvent : EventRow :=
  mkEventRow (js "w2") (js "Study group") (js "2025-01-08T10:00:00Z")
             (js "2025-01-08T11:00:00Z") None.

(** Reading an escaped iCalendar text back: a backslash gives the code
    unit that follows it its plain meaning, and backslash-n, in either
    case, is a line feed. *)
Fixpoint unescapeIcsText (s : jstring) : jstring :=
  match s with
  | [] => []
  | c :: rest =>
      if (c =? IcsRoute.BACKSLASH)%N then
        match rest with
        | [] => [c]
        | d :: rest' =>
            (if ((d =? 110) || (d =? 78))%N then LF else d) ::
            unescapeIcsText rest'
        end
      else c :: unescapeIcsText rest
  end.

(** An event whose start text is no date. *)
Definition undatedEvent : EventRow :=
  mkEventRow (js "u1") (js "Open mic") (js "next friday")
             (js "2025-09-05T19:00:00Z") None.

Definition undatedLookup (i : jstring) : QueryResult EventRow :=
  if jstring_eqb i (js "u1") then mkQueryResult (Some undatedEvent) None
  else mkQueryResult None (Some (mkStoreError (js "no rows"))).

(** The browser's [fetch] when the request reaches the creation endpoint
    and the answer comes back: the body sent is the body the endpoint
    parses, and the response carries the status and the JSON of the
    answer. *)
Definition fetchRoute
  (insertEvent : jsval -> jsval -> jsval -> jsval ->
                 EventsRoute.outcome (QueryResult jsval))
  (sent : jsval) : EventsRoute.outcome AdminPage.FetchResponse :=
  let r := EventsRoute.POST insertEvent (EventsRoute.Returns sent) in
  EventsRoute.Returns
    (AdminPage.mkFetchResponse (status r)
       (match body r with
        | JsonBody v => EventsRoute.Returns v
        | TextBody _ =>
            EventsRoute.Throws
              (EventsRoute.ThrownObject (Some (js "Unexpected token")))
        end)).

(** What the page shows after an answer that is not a success and whose
    error text is [m]: the text, or the status when the text is empty. *)
Definition failureShown (m : jstring) (st : Z) : jstring :=
  js "Error: " ++
  match m with
  | [] => js "Request failed (" ++ Z_toString st ++ js ")"
  | _ => m
  end.

(** A text made of white space only. *)
Definition blank (s : jstring) : Prop := Forall (fun c => isWhiteSpace c = true) s.

(** A parser for the admin examples: the two texts of the scenario form,
    read in a zone five hours behind UTC. *)
Definition parseFormLocal (s : jstring) : Date :=
  if jstring_eqb s (js "2025-09-05T17:00") then DateUTC 2025 8 5 22 0 0
  else if jstring_eqb s (js "2025-09-05T19:00") then DateUTC 2025 8 6 0 0 0
  else InvalidDate.

Definition plainToString (v : jsval) : jstring :=
  match v with
  | JString s => s
  | _ => js "[object Object]"
  end.

(** Comparison of two integers, with [rest] deciding between equal ones. *)
Definition sign3 (a b : Z) (rest : Z) : Z :=
  if a <? b then -1 else if b <? a then 1 else rest.

(** Every event of the list starts at an instant whose UTC year is written
    with four digits. *)
Definition plainStarts (DateParse : jstring -> Date) (events : list EventRow)
  : Prop :=
  Forall (fun ev => exists t, DateParse (start_ts ev) = TimeValue t /\ plainYear t)
         events.

(** Every event of group [g] starts on an earlier UTC day than every event
    of group [h]. *)
Definition daysBefore (DateParse : jstring -> Date)
  (g h : jstring * list EventRow) : Prop :=
  forall e1 e2 a b,
    In e1 (snd g) -> In e2 (snd h) ->
    DateParse (start_ts e1) = TimeValue a ->
    DateParse (start_ts e2) = TimeValue b ->
    Day a < Day b.

(** A kiosk that stays mounted through a series of refreshes, each with
    the answer the store gives at that time and its clock reading. *)
Definition refreshes (zone : TimeZone) (rangeMessage : jstring)
  (runs : list ((jstring -> jstring ->
                 EventsRoute.outcome (QueryResult (list EventRow))) * Date))
  (st : PageState) : PageState :=
  fold_left (fun s run => KioskPage.load zone rangeMessage true (fst run) (snd run) s)
            runs st.

(** A store that answers every query with the given rows, and one that
    fails. *)
Definition answering (rows : list EventRow) (a b : jstring)
  : EventsRoute.outcome (QueryResult (list EventRow)) :=
  EventsRoute.Returns (mkQueryResult (Some rows) None).

Definition failing (a b : jstring)
  : EventsRoute.outcome (QueryResult (list EventRow)) :=
  EventsRoute.Returns (mkQueryResult None (Some (mkStoreError (js "network down")))).

(* ================================================================== *)
(** * Properties *)
(* ================================================================== *)

Lemma jstring_eqb_eq (a b : jstring) : jstring_eqb a b = true <-> a = b.
Proof.
  unfold jstring_eqb. destruct (list_eq_dec N.eq_dec a b); split; congruence.
Qed.

Lemma jstring_eqb_refl (a : jstring) : jstring_eqb a a = true.
Proof. now apply jstring_eqb_eq. Qed.

Lemma jstring_eqb_neq (a b : jstring) : jstring_eqb a b = false <-> a <> b.
Proof.
  unfold jstring_eqb. destruct (list_eq_dec N.eq_dec a b); split; congruence.
Qed.

Ltac nlia := zify; Z.to_euclidean_division_equations; lia.

Ltac units_eq :=
  repeat (apply (f_equal2 (@cons N))); try reflexivity; nlia.

(** ** Decimal digits *)

Lemma digitsN_digits fuel : forall n acc,
  Forall isDigit acc -> Forall isDigit (digitsN fuel n acc).
Proof.
  induction fuel as [|f IH]; intros n acc Hacc; simpl; [assumption|].
  assert (Hd : isDigit (48 + n mod 10)%N).
  { unfold isDigit. nlia. }
  destruct (n <? 10)%N; [|apply IH]; constructor; assumption.
Qed.

Lemma N_toString_digits n : Forall isDigit (N_toString n).
Proof. apply digitsN_digits. constructor. Qed.

Lemma size_nat_ge (k n : N) : (0 < k <= n)%N -> (N.size_nat k <= N.size_nat n)%nat.
Proof.
  intros [Hk Hkn]. destruct k as [|p]; [lia|]. destruct n as [|q]; [lia|].
  destruct (Pos.eq_dec p q) as [->|Hne]; [reflexivity|].
  apply Pos.size_nat_monotone. lia.
Qed.

Lemma digitsN_lt10 f n acc :
  (n < 10)%N -> digitsN (S f) n acc = (48 + n)%N :: acc.
Proof.
  intros H. simpl. apply N.ltb_lt in H as H'. rewrite H'.
  now rewrite N.mod_small.
Qed.

Lemma digitsN_ge10 f n acc :
  (10 <= n)%N ->
  digitsN (S f) n acc = digitsN f (n / 10)%N ((48 + n mod 10)%N :: acc).
Proof.
  intros H. simpl. apply N.ltb_ge in H. now rewrite H.
Qed.

Lemma N_toString_1 n : (n < 10)%N -> N_toString n = [(48 + n)%N].
Proof. intros H. unfold N_toString. now apply digitsN_lt10. Qed.

Lemma N_toString_2 n :
  (10 <= n < 100)%N -> N_toString n = [(48 + n / 10)%N; (48 + n mod 10)%N].
Proof.
  intros [Hlo Hhi]. unfold N_toString.
  pose proof (@size_nat_ge 10 n ltac:(lia)) as Hs. cbn in Hs.
  destruct (N.size_nat n) as [|f]; [lia|].
  rewrite digitsN_ge10 by assumption.
  apply digitsN_lt10. nlia.
Qed.

Lemma N_toString_4 n :
  (1000 <= n < 10000)%N ->
  N_toString n =
  [(48 + n / 1000)%N; (48 + (n / 100) mod 10)%N;
   (48 + (n / 10) mod 10)%N; (48 + n mod 10)%N].
Proof.
  intros [Hlo Hhi]. unfold N_toString.
  pose proof (@size_nat_ge 1000 n ltac:(lia)) as Hs. cbn in Hs.
  destruct (N.size_nat n) as [|[|[|f]]]; try lia.
  assert (H1 : (100 <= n / 10 < 1000)%N) by nlia.
  assert (H2 : (10 <= n / 10 / 10 < 100)%N) by nlia.
  assert (H3 : (n / 10 / 10 / 10 < 10)%N) by nlia.
  rewrite digitsN_ge10 by lia.
  rewrite digitsN_ge10 by lia.
  rewrite digitsN_ge10 by lia.
  rewrite digitsN_lt10 by lia.
  rewrite !N.Div0.div_div. reflexivity.
Qed.

Lemma digitValue_digit c :
  isDigit c -> digitValue c = Some (Z.of_N c - 48).
Proof.
  intros [H1 H2]. unfold digitValue.
  apply N.leb_le in H1, H2. now rewrite H1, H2.
Qed.

Lemma decimalValue_snoc ds : forall acc v c,
  decimalValue acc ds = Some v -> isDigit c ->
  decimalValue acc (ds ++ [c]) = Some (10 * v + (Z.of_N c - 48)).
Proof.
  induction ds as [|d ds IH]; intros acc v c Hv Hc; cbn [app decimalValue] in *.
  - injection Hv as <-. now rewrite (digitValue_digit c Hc).
  - destruct (digitValue d) as [x|]; [|discriminate]. now apply IH.
Qed.

Lemma size_nat_div10 n :
  (10 <= n)%N -> (S (N.size_nat (n / 10)) <= N.size_nat n)%nat.
Proof.
  intros H. destruct n as [|p]; [lia|].
  destruct p as [q|q|]; [| |lia]; cbn [N.size_nat Pos.size_nat];
    apply le_n_S; change (Pos.size_nat q) with (N.size_nat (N.pos q));
    apply size_nat_ge; nlia.
Qed.

(** The fuel of [digitsN] never runs out: the digits printed for [n] read
    back as [n]. *)
Lemma digitsN_value fuel : forall n acc,
  (N.size_nat n <= fuel)%nat ->
  exists ds,
    digitsN (S fuel) n acc = ds ++ acc /\
    Forall isDigit ds /\
    decimalValue 0 ds = Some (Z.of_N n).
Proof.
  induction fuel as [|f IH]; intros n acc Hsize.
  - destruct n as [|p]; [|destruct p; cbn in Hsize; lia].
    exists [48%N]. repeat split; try reflexivity. repeat constructor; cbv; discriminate.
  - destruct (N.lt_ge_cases n 10) as [Hlt|Hge].
    + rewrite digitsN_lt10 by assumption. exists [(48 + n)%N].
      split; [reflexivity|]. split.
      * repeat constructor; unfold isDigit; lia.
      * cbn [decimalValue]. rewrite digitValue_digit by (unfold isDigit; lia).
        f_equal. lia.
    + rewrite digitsN_ge10 by assumption.
      pose proof (size_nat_div10 n Hge) as Hs.
      destruct (IH (n / 10)%N ((48 + n mod 10)%N :: acc) ltac:(lia))
        as (ds & E & Hd & Hv).
      exists (ds ++ [(48 + n mod 10)%N]). split; [|split].
      * rewrite E, <- app_assoc. reflexivity.
      * apply Forall_app. split; [exact Hd|]. repeat constructor; unfold isDigit; nlia.
      * rewrite (decimalValue_snoc ds 0 _ _ Hv) by (unfold isDigit; nlia).
        f_equal. nlia.
Qed.

Lemma N_toString_value n : decimalValue 0 (N_toString n) = Some (Z.of_N n).
Proof.
  destruct (digitsN_value (N.size_nat n) n [] (le_n _)) as (ds & E & _ & Hv).
  unfold N_toString. now rewrite E, app_nil_r.
Qed.

Lemma Z_toString_nonneg z : 0 <= z -> Z_toString z = N_toString (Z.to_N z).
Proof.
  intros H. unfold Z_toString. apply Z.ltb_ge in H as H'. rewrite H'.
  f_equal. destruct z; try reflexivity; lia.
Qed.

Lemma padStart0_short n s : (n <= List.length s)%nat -> padStart0 n s = s.
Proof.
  intros H. unfold padStart0. replace (n - List.length s)%nat with O by lia.
  reflexivity.
Qed.

Lemma Z_toString_two z :
  0 <= z < 100 -> padStart0 2 (Z_toString z) = twoDigits z.
Proof.
  intros H. rewrite Z_toString_nonneg by lia. unfold twoDigits, digitOf.
  destruct (Z_lt_le_dec z 10) as [Hs|Hb].
  - rewrite N_toString_1 by lia.
    unfold padStart0. cbn [List.length repeat app Nat.sub]. units_eq.
  - rewrite N_toString_2 by lia.
    unfold padStart0. cbn [List.length repeat app Nat.sub]. units_eq.
Qed.

Lemma Z_toString_four z :
  1000 <= z <= 9999 -> Z_toString z = fourDigits z.
Proof.
  intros H. rewrite Z_toString_nonneg by lia. unfold fourDigits, digitOf.
  rewrite N_toString_4 by lia. units_eq.
Qed.

(** ** The calendar *)

Lemma DayFromYear_succ y : DayFromYear (y + 1) = DayFromYear y + DaysInYear y.
Proof.
  unfold DayFromYear, DaysInYear.
  replace (y + 1 - 1969) with (y - 1968) by lia.
  replace (y + 1 - 1901) with (y - 1900) by lia.
  replace (y + 1 - 1601) with (y - 1600) by lia.
  destruct (Z.eqb_spec (y mod 4) 0);
    destruct (Z.eqb_spec (y mod 100) 0);
    destruct (Z.eqb_spec (y mod 400) 0); cbn [andb orb negb];
    Z.div_mod_to_equations; lia.
Qed.

(** [YearFromDay] meets the standard's definition of the year of a day. *)
Lemma YearFromDay_spec d :
  DayFromYear (YearFromDay d) <= d < DayFromYear (YearFromDay d + 1).
Proof.
  unfold YearFromDay.
  set (y0 := 1970 + 400 * d / 146097).
  assert (H1 : DayFromYear (y0 - 1) <= d).
  { unfold DayFromYear, y0. Z.div_mod_to_equations. lia. }
  assert (H2 : d < DayFromYear (y0 + 2)).
  { unfold DayFromYear, y0. Z.div_mod_to_equations. lia. }
  destruct (Z.leb_spec (DayFromYear (y0 + 1)) d) as [A|A].
  - replace (y0 + 1 + 1) with (y0 + 2) by lia. lia.
  - destruct (Z.leb_spec (DayFromYear y0) d) as [B|B].
    + lia.
    + replace (y0 - 1 + 1) with y0 by lia. lia.
Qed.

Lemma LeapDays_range y : LeapDays y = 0 \/ LeapDays y = 1.
Proof.
  unfold LeapDays, DaysInYear.
  destruct ((y mod 4 =? 0) && (negb (y mod 100 =? 0) || (y mod 400 =? 0))); lia.
Qed.

Lemma DayWithinYear_range t :
  0 <= DayWithinYear t < 365 + InLeapYear t.
Proof.
  unfold DayWithinYear, InLeapYear, YearFromTime, LeapDays.
  pose proof (YearFromDay_spec (Day t)) as H.
  rewrite DayFromYear_succ in H. lia.
Qed.

Lemma Month_Date_range leap d :
  (leap = 0 \/ leap = 1) -> 0 <= d < 365 + leap ->
  let m := MonthFromDayWithinYear leap d in
  0 <= m <= 11 /\ 1 <= d - MonthStart leap m + 1 <= 31.
Proof.
  intros Hl Hd. unfold MonthFromDayWithinYear.
  repeat match goal with
         | |- context [if ?a <? ?b then _ else _] =>
             destruct (Z.ltb_spec a b)
         end; cbv zeta; cbn [MonthStart]; lia.
Qed.

Lemma MonthFromTime_range t : 0 <= MonthFromTime t <= 11.
Proof.
  apply (Month_Date_range _ _ (LeapDays_range _) (DayWithinYear_range t)).
Qed.

Lemma DateFromTime_range t : 1 <= DateFromTime t <= 31.
Proof.
  apply (Month_Date_range _ _ (LeapDays_range _) (DayWithinYear_range t)).
Qed.

Lemma HourFromTime_range t : 0 <= HourFromTime t <= 23.
Proof. unfold HourFromTime. pose proof (Z.mod_pos_bound (t / msPerHour) 24). lia. Qed.

Lemma MinFromTime_range t : 0 <= MinFromTime t <= 59.
Proof. unfold MinFromTime. pose proof (Z.mod_pos_bound (t / msPerMinute) 60). lia. Qed.

Lemma SecFromTime_range t : 0 <= SecFromTime t <= 59.
Proof. unfold SecFromTime. pose proof (Z.mod_pos_bound (t / msPerSecond) 60). lia. Qed.

(** Rebuilding a day from the calendar fields of [t], with the day of the
    month moved by [k], moves the day number by [k]. *)
Lemma MakeDay_fields t k :
  MakeDay (YearFromTime t) (MonthFromTime t) (DateFromTime t + k) = Day t + k.
Proof.
  pose proof (MonthFromTime_range t) as Hm.
  unfold MakeDay.
  rewrite Z.div_small, Z.mod_small, Z.add_0_r by lia.
  unfold DateFromTime, DayWithinYear, InLeapYear. 
  fold (InLeapYear t). unfold InLeapYear. lia.
Qed.

(** The calendar fields determine the instant. *)
Lemma civil_roundtrip t :
  MakeDate (MakeDay (YearFromTime t) (MonthFromTime t) (DateFromTime t))
           (MakeTime (HourFromTime t) (MinFromTime t) (SecFromTime t) (msFromTime t))
  = t.
Proof.
  pose proof (MakeDay_fields t 0) as H. rewrite Z.add_0_r in H. rewrite Z.add_0_r in H.
  rewrite H. unfold MakeDate, MakeTime, Day, HourFromTime, MinFromTime,
    SecFromTime, msFromTime, msPerDay, msPerHour, msPerMinute, msPerSecond.
  Z.div_mod_to_equations. lia.
Qed.

Lemma toIcsUtc_compact t :
  fourDigitYear t -> IcsRoute.toIcsUtc (TimeValue t) = compactUTC t.
Proof.
  intros Hy. unfold IcsRoute.toIcsUtc, compactUTC, IcsRoute.pad.
  cbn [getUTCFullYear getUTCMonth getUTCDate getUTCHours getUTCMinutes
       getUTCSeconds onTime num_add toString].
  pose proof (MonthFromTime_range t). pose proof (DateFromTime_range t).
  pose proof (HourFromTime_range t). pose proof (MinFromTime_range t).
  pose proof (SecFromTime_range t).
  rewrite Z_toString_four by exact Hy.
  rewrite !Z_toString_two by lia. reflexivity.
Qed.

(** ** Escaping *)

Lemma replaceAll_app c r a b :
  replaceAll c r (a ++ b) = replaceAll c r a ++ replaceAll c r b.
Proof. apply flat_map_app. Qed.

Lemma escapeIcsText_app a b :
  IcsRoute.escapeIcsText (a ++ b) =
  IcsRoute.escapeIcsText a ++ IcsRoute.escapeIcsText b.
Proof. unfold IcsRoute.escapeIcsText. now rewrite !replaceAll_app. Qed.

Lemma escapeIcsText_unit c : IcsRoute.escapeIcsText [c] = escapeChar c.
Proof.
  unfold IcsRoute.escapeIcsText, escapeChar, replaceAll.
  cbn [flat_map app].
  destruct (N.eqb_spec c IcsRoute.BACKSLASH) as [->|H1]; [reflexivity|].
  cbn [flat_map app].
  destruct (N.eqb_spec c IcsRoute.SEMICOLON) as [->|H2]; [reflexivity|].
  cbn [flat_map app].
  destruct (N.eqb_spec c IcsRoute.COMMA) as [->|H3]; [reflexivity|].
  cbn [flat_map app].
  destruct (N.eqb_spec c LF) as [->|H4]; reflexivity.
Qed.

Lemma escapeIcsText_onepass s :
  IcsRoute.escapeIcsText s = flat_map escapeChar s.
Proof.
  induction s as [|c s IH]; [reflexivity|].
  change (c :: s) with ([c] ++ s).
  rewrite escapeIcsText_app, escapeIcsText_unit, IH. reflexivity.
Qed.

Lemma escapeChar_plain c : ~ reserved c -> escapeChar c = [c].
Proof.
  intros H. unfold escapeChar, reserved in *.
  destruct (N.eqb_spec c IcsRoute.BACKSLASH); [tauto|].
  destruct (N.eqb_spec c IcsRoute.SEMICOLON); [tauto|].
  destruct (N.eqb_spec c IcsRoute.COMMA); [tauto|].
  destruct (N.eqb_spec c LF); [tauto|]. reflexivity.
Qed.

Lemma escapeChar_noLF c : ~ In LF (escapeChar c).
Proof.
  unfold escapeChar.
  destruct (N.eqb_spec c IcsRoute.BACKSLASH); [cbv; intuition discriminate|].
  destruct (N.eqb_spec c IcsRoute.SEMICOLON); [cbv; intuition discriminate|].
  destruct (N.eqb_spec c IcsRoute.COMMA); [cbv; intuition discriminate|].
  destruct (N.eqb_spec c LF); [cbv; intuition discriminate|].
  intros [H|[]]. congruence.
Qed.

Lemma escapeIcsText_noLF s : ~ In LF (IcsRoute.escapeIcsText s).
Proof.
  rewrite escapeIcsText_onepass, in_flat_map.
  intros [c [_ H]]. exact (escapeChar_noLF c H).
Qed.

(** Claim C2. The four replacements, applied in the order backslash,
    semicolon, comma, line feed, escape every code unit exactly once: the
    result is the text in which each backslash, semicolon, comma and line
    feed has become backslash-backslash, backslash-semicolon,
    backslash-comma and backslash-n, and every other code unit is kept.
    The scenario title escapes as stated, and a text with no reserved
    code unit is returned unchanged. *)
Theorem escapeIcsText_spec :
  (forall s, IcsRoute.escapeIcsText s = flat_map escapeChar s) /\
  IcsRoute.escapeIcsText (js "Q&A; Session, Pt.1") = js "Q&A\; Session\, Pt.1" /\
  (forall s, (forall c, In c s -> ~ reserved c) -> IcsRoute.escapeIcsText s = s).
Proof.
  split; [exact escapeIcsText_onepass|]. split; [reflexivity|].
  intros s Hs. rewrite escapeIcsText_onepass.
  induction s as [|c s IH]; [reflexivity|].
  cbn [flat_map]. rewrite escapeChar_plain by (apply Hs; now left).
  cbn [app]. f_equal. apply IH. intros x Hx. apply Hs. now right.
Qed.

(** Why the backslash comes first: were it replaced last, the backslash
    that escapes a semicolon would be escaped again. *)
Lemma backslash_last_escapes_twice :
  replaceAll IcsRoute.BACKSLASH [IcsRoute.BACKSLASH; IcsRoute.BACKSLASH]
    (replaceAll IcsRoute.SEMICOLON [IcsRoute.BACKSLASH; IcsRoute.SEMICOLON]
       (js ";")) =
  [IcsRoute.BACKSLASH; IcsRoute.BACKSLASH; IcsRoute.SEMICOLON].
Proof. reflexivity. Qed.

(** The theorem at a title with no reserved code unit. *)
Lemma escapeIcsText_spec_witness :
  IcsRoute.escapeIcsText (js "Welcome BBQ") = js "Welcome BBQ".
Proof.
  apply (proj2 (proj2 escapeIcsText_spec)).
  intros c Hc Hr. unfold reserved in Hr. cbv in Hc.
  repeat (destruct Hc as [Hc|Hc];
          [subst c; decompose [or] Hr; discriminate|]).
  exact Hc.
Defined.

(** ** Lines *)

Lemma splitCRLF_noLF a : ~ In LF a -> splitCRLF a = [a].
Proof.
  induction a as [|c rest IH]; intros H; [reflexivity|].
  cbn [splitCRLF]. destruct rest as [|c2 rest2]; [reflexivity|].
  assert (Hc2 : c2 <> LF) by (intros ->; apply H; right; now left).
  apply N.eqb_neq in Hc2. rewrite Hc2, andb_false_r.
  rewrite IH; [reflexivity|]. intros Hin. apply H. now right.
Qed.

Lemma splitCRLF_app a b :
  ~ In LF a -> splitCRLF (a ++ CR :: LF :: b) = a :: splitCRLF b.
Proof.
  induction a as [|c rest IH]; intros H; [reflexivity|].
  change ((c :: rest) ++ CR :: LF :: b) with (c :: (rest ++ CR :: LF :: b)).
  cbn [splitCRLF].
  assert (Hrest : ~ In LF rest) by (intros Hin; apply H; now right).
  rewrite (IH Hrest).
  destruct rest as [|c2 rest2]; cbn [app].
  - change (CR =? LF)%N with false. now rewrite andb_false_r.
  - assert (Hc2 : c2 <> LF) by (intros ->; apply H; right; now left).
    apply N.eqb_neq in Hc2. rewrite Hc2, andb_false_r. reflexivity.
Qed.

Lemma splitCRLF_join xs :
  xs <> [] -> Forall (fun x => ~ In LF x) xs -> splitCRLF (join CRLF xs) = xs.
Proof.
  induction xs as [|x rest IH]; intros Hne Hall; [congruence|].
  inversion Hall as [|? ? Hx Hrest]; subst.
  destruct rest as [|y rest'].
  - cbn [join]. now apply splitCRLF_noLF.
  - change (join CRLF (x :: y :: rest'))
      with (x ++ CR :: LF :: join CRLF (y :: rest')).
    rewrite splitCRLF_app by assumption. f_equal. apply IH; [discriminate|assumption].
Qed.

Lemma OnlyCRLF_noLF a : ~ In LF a -> OnlyCRLF a.
Proof.
  intros H pre post ->. exfalso. apply H. apply in_or_app. right. now left.
Qed.

Lemma OnlyCRLF_app a b :
  ~ In LF a -> OnlyCRLF b -> OnlyCRLF (a ++ CR :: LF :: b).
Proof.
  intros Ha Hb. induction a as [|h a IH]; intros pre post E.
  - destruct pre as [|x [|y pre]]; cbn in E.
    + discriminate.
    + exists []. injection E as E1 _. now subst x.
    + injection E as E1 E2 E. subst x y. destruct (Hb _ _ E) as [p ->].
      exists (CR :: LF :: p). reflexivity.
  - destruct pre as [|x pre]; cbn in E.
    + injection E as E1 _. exfalso. apply Ha. now left.
    + injection E as E1 E. subst x.
      destruct (IH (fun Hin => Ha (or_intror Hin)) _ _ E) as [p ->].
      exists (h :: p). reflexivity.
Qed.

Lemma OnlyCRLF_join xs :
  Forall (fun x => ~ In LF x) xs -> OnlyCRLF (join CRLF xs).
Proof.
  induction xs as [|x rest IH]; intros Hall.
  - now apply OnlyCRLF_noLF.
  - inversion Hall as [|? ? Hx Hrest]; subst. destruct rest as [|y rest'].
    + now apply OnlyCRLF_noLF.
    + change (join CRLF (x :: y :: rest'))
        with (x ++ CR :: LF :: join CRLF (y :: rest')).
      apply OnlyCRLF_app; auto.
Qed.

Lemma isDigit_noLF s : Forall isDigit s -> ~ In LF s.
Proof.
  intros H Hin. rewrite Forall_forall in H. specialize (H _ Hin).
  unfold isDigit, LF in H. lia.
Qed.

Lemma Z_toString_noLF z : ~ In LF (Z_toString z).
Proof.
  unfold Z_toString. pose proof (isDigit_noLF _ (N_toString_digits (Z.abs_N z))) as H.
  destruct (z <? 0); [|exact H].
  intros [E|Hin]; [discriminate E | exact (H Hin)].
Qed.

Lemma toString_noLF x : ~ In LF (toString x).
Proof.
  destruct x as [|z]; [|apply Z_toString_noLF].
  cbv. intuition discriminate.
Qed.

Lemma padStart0_noLF n s : ~ In LF s -> ~ In LF (padStart0 n s).
Proof.
  intros H Hin. unfold padStart0 in Hin. apply in_app_or in Hin as [Hin|Hin].
  - apply repeat_spec in Hin. discriminate Hin.
  - exact (H Hin).
Qed.

Lemma pad_noLF x : ~ In LF (IcsRoute.pad x).
Proof. apply padStart0_noLF, toString_noLF. Qed.

Lemma toIcsUtc_noLF d : ~ In LF (IcsRoute.toIcsUtc d).
Proof.
  unfold IcsRoute.toIcsUtc. rewrite !in_app_iff.
  pose proof pad_noLF. pose proof toString_noLF.
  intros [?|[?|[?|[Hc|[?|[?|[?|Hc]]]]]]]; try (eapply pad_noLF; eassumption);
    try (eapply toString_noLF; eassumption);
    cbv in Hc; intuition discriminate.
Qed.

Lemma literal_app_noLF (lit s : jstring) :
  forallb (fun c => negb (c =? LF)%N) lit = true -> ~ In LF s -> ~ In LF (lit ++ s).
Proof.
  intros Hl Hs Hin. apply in_app_or in Hin as [Hin|Hin]; [|exact (Hs Hin)].
  rewrite forallb_forall in Hl. specialize (Hl _ Hin).
  now rewrite N.eqb_refl in Hl.
Qed.

Lemma icsLines_noLF ev start end_ now :
  ~ In LF (id ev) ->
  Forall (fun x => ~ In LF x) (IcsRoute.icsLines ev start end_ now).
Proof.
  intros Hid. unfold IcsRoute.icsLines.
  repeat (apply Forall_cons; [|]); try apply Forall_nil;
    try (apply literal_app_noLF; [reflexivity|]);
    try apply toIcsUtc_noLF; try apply escapeIcsText_noLF;
    try (cbv; intuition discriminate).
  intros Hin. apply in_app_or in Hin as [Hin|Hin]; [exact (Hid Hin)|].
  cbv in Hin. intuition discriminate.
Qed.

Lemma join_two (sep x y : jstring) (rest : list jstring) :
  join sep (x :: y :: rest) = x ++ sep ++ join sep (y :: rest).
Proof. reflexivity. Qed.

(** A joined text, cut at one of its elements. *)
Lemma join_cut (sep : jstring) (a : list jstring) (x : jstring) (b : list jstring) :
  join sep (a ++ x :: b) =
  flat_map (fun l => l ++ sep) a ++ x ++ flat_map (fun l => sep ++ l) b.
Proof.
  induction a as [|h a IH].
  - cbn [app flat_map]. revert x. induction b as [|y b IHb]; intros x.
    + cbn. now rewrite app_nil_r.
    + rewrite join_two, IHb. cbn [flat_map]. now rewrite <- app_assoc.
  - cbn [app flat_map]. destruct a as [|h' a'].
    + cbn [app] in *. rewrite join_two, IH. cbn [flat_map app].
      now rewrite <- !app_assoc.
    + change ((h' :: a') ++ x :: b) with (h' :: (a' ++ x :: b)) in *.
      rewrite join_two, IH. now rewrite <- !app_assoc.
Qed.

Lemma seps_shift (sep : jstring) (l : list jstring) :
  flat_map (fun x => sep ++ x) l ++ sep = sep ++ flat_map (fun x => x ++ sep) l.
Proof.
  induction l as [|x l IH]; cbn [flat_map].
  - now rewrite app_nil_r.
  - rewrite <- !app_assoc, IH. reflexivity.
Qed.

Lemma eventLine_join (l1 l2 l3 l4 : list jstring) (line : jstring) :
  eventLine line
    (join CRLF (l1 ++ js "BEGIN:VEVENT" :: l2 ++ line :: l3 ++
                js "END:VEVENT" :: l4)).
Proof.
  exists (flat_map (fun l => l ++ CRLF) l1),
         (flat_map (fun l => CRLF ++ l) l2),
         (flat_map (fun l => l ++ CRLF) l3),
         (flat_map (fun l => CRLF ++ l) l4).
  rewrite join_cut. f_equal. f_equal.
  rewrite !flat_map_app. cbn [flat_map].
  rewrite <- !app_assoc. f_equal. f_equal. f_equal.
  rewrite !flat_map_app. cbn [flat_map].
  rewrite <- !app_assoc.
  rewrite (app_assoc _ CRLF), seps_shift, <- !app_assoc. reflexivity.
Qed.

Ltac lines_differ :=
  let E := fresh "E" in
  intros E;
  first [ apply (f_equal (hd 0%N)) in E; lazy in E; discriminate E
        | vm_compute in E; discriminate E ].

Ltac count_lines :=
  repeat first [ rewrite count_occ_cons_neq by lines_differ
               | rewrite count_occ_cons_eq by reflexivity ];
  reflexivity.

(** Claim C1, amended. For every event record whose id holds no line feed,
    the text of the serializer starts with the line BEGIN:VCALENDAR, has
    exactly one line BEGIN:VEVENT and exactly one line END:VEVENT after it,
    ends with the line END:VCALENDAR and its CR LF, and each of its line
    feeds follows a carriage return. *)
Theorem ics_wellformed ev start end_ now :
  ~ In LF (id ev) ->
  WellFormedCalendar (IcsRoute.ics ev start end_ now).
Proof.
  intros Hid.
  pose proof (icsLines_noLF ev start end_ now Hid) as Hall.
  assert (Hsplit : splitCRLF (IcsRoute.ics ev start end_ now) =
                   IcsRoute.icsLines ev start end_ now).
  { apply splitCRLF_join; [discriminate | exact Hall]. }
  constructor.
  - eexists. reflexivity.
  - rewrite Hsplit. unfold IcsRoute.icsLines. count_lines.
  - rewrite Hsplit. unfold IcsRoute.icsLines. count_lines.
  - rewrite Hsplit. unfold IcsRoute.icsLines.
    eexists (firstn 5 (IcsRoute.icsLines ev start end_ now)),
            (firstn 6 (skipn 6 (IcsRoute.icsLines ev start end_ now))), _.
    reflexivity.
  - exists (join CRLF (firstn 13 (IcsRoute.icsLines ev start end_ now))).
    unfold IcsRoute.ics.
    change (IcsRoute.icsLines ev start end_ now)
      with (firstn 13 (IcsRoute.icsLines ev start end_ now) ++
            js "END:VCALENDAR" :: [[]]) at 1.
    rewrite join_cut.
    change (firstn 13 (IcsRoute.icsLines ev start end_ now))
      with (firstn 12 (IcsRoute.icsLines ev start end_ now) ++
            js "END:VEVENT" :: []).
    rewrite join_cut. cbn [flat_map]. rewrite flat_map_app. cbn [flat_map].
    rewrite !app_nil_r, <- !app_assoc. reflexivity.
  - apply OnlyCRLF_join. exact Hall.
Qed.

(** The theorem at an event whose id is a UUID. *)
Lemma ics_wellformed_witness :
  WellFormedCalendar
    (IcsRoute.ics uuidEvent (DateUTC 2025 8 5 17 0 0) (DateUTC 2025 8 5 19 0 0)
                  (DateUTC 2025 8 1 12 0 0)).
Proof.
  apply ics_wellformed. cbv. intuition discriminate.
Defined.

(** Claim C1 as stated fails: the id goes into the UID line as it is, so
    a line feed in the id is a bare line feed of the output. *)
Lemma ics_bare_line_feed :
  ~ WellFormedCalendar
      (IcsRoute.ics lineFeedIdEvent (DateUTC 2025 8 5 17 0 0)
                    (DateUTC 2025 8 5 19 0 0) (DateUTC 2025 8 1 12 0 0)).
Proof.
  intros [_ _ _ _ _ H].
  set (text := IcsRoute.ics _ _ _ _) in H.
  assert (Hcut : text = firstn 111 text ++ LF :: skipn 112 text)
    by (vm_compute; reflexivity).
  destruct (H _ _ Hcut) as [p Hp].
  apply (f_equal (fun l => last l 0%N)) in Hp.
  rewrite last_last in Hp. vm_compute in Hp. discriminate Hp.
Qed.

(** ** The lines of the event block *)

Lemma isPrefix_app p post : isPrefix p (p ++ post) = true.
Proof.
  induction p as [|x p IH]; [reflexivity|].
  cbn. now rewrite N.eqb_refl, IH.
Qed.

Lemma isInfix_app pre p post : isInfix p (pre ++ p ++ post) = true.
Proof.
  induction pre as [|x pre IH].
  - cbn [app]. pose proof (isPrefix_app p post) as H.
    destruct (p ++ post); cbn [isInfix]; now rewrite H.
  - cbn [app isInfix]. rewrite IH. apply orb_true_r.
Qed.

Lemma eventLine_infix line text :
  eventLine line text -> isInfix (CRLF ++ line ++ CRLF) text = true.
Proof.
  intros (pre & mid1 & mid2 & post & ->).
  replace (pre ++ js "BEGIN:VEVENT" ++ mid1 ++ CRLF ++ line ++ CRLF ++
           mid2 ++ js "END:VEVENT" ++ post)
    with ((pre ++ js "BEGIN:VEVENT" ++ mid1) ++ (CRLF ++ line ++ CRLF) ++
          mid2 ++ js "END:VEVENT" ++ post)
    by (now rewrite <- !app_assoc).
  apply isInfix_app.
Qed.

(** Picks the line of index [i] of the fifteen lines of the handler. *)
Ltac event_line_at i :=
  unfold IcsRoute.ics, IcsRoute.icsLines;
  match goal with
  | |- eventLine ?line (join CRLF ?ls) =>
      exact (eventLine_join (firstn 5 ls) (firstn (i - 6) (skipn 6 ls))
               (firstn (11 - i) (skipn (S i) ls)) (skipn 13 ls) line)
  end.

Lemma ics_line_UID ev start end_ now :
  eventLine (js "UID:" ++ id ev ++ js "@mcc-events")
            (IcsRoute.ics ev start end_ now).
Proof. event_line_at 6%nat. Qed.

Lemma ics_line_DTSTART ev start end_ now :
  eventLine (js "DTSTART:" ++ IcsRoute.toIcsUtc start)
            (IcsRoute.ics ev start end_ now).
Proof. event_line_at 8%nat. Qed.

Lemma ics_line_DTEND ev start end_ now :
  eventLine (js "DTEND:" ++ IcsRoute.toIcsUtc end_)
            (IcsRoute.ics ev start end_ now).
Proof. event_line_at 9%nat. Qed.

Lemma ics_line_SUMMARY ev start end_ now :
  eventLine (js "SUMMARY:" ++ IcsRoute.escapeIcsText (title ev))
            (IcsRoute.ics ev start end_ now).
Proof. event_line_at 10%nat. Qed.

Lemma ics_line_LOCATION ev start end_ now :
  eventLine (js "LOCATION:" ++ IcsRoute.escapeIcsText (nullish (venue ev) []))
            (IcsRoute.ics ev start end_ now).
Proof. event_line_at 11%nat. Qed.

(** The scenario event serializes to an event block with the four lines
    of the scenario. For every event, the UID line is the id followed by
    [@mcc-events] and the LOCATION line is the escaped venue, empty when
    there is no venue. For a start and an end whose UTC years have four
    digits, the DTSTART and DTEND lines hold them in the form
    YYYYMMDDTHHMMSSZ. *)
Theorem ics_event_lines :
  (forall now,
     let text := IcsRoute.ics welcomeBBQ (DateUTC 2025 8 5 17 0 0)
                              (DateUTC 2025 8 5 19 0 0) now in
     eventLine (js "DTSTART:20250905T170000Z") text /\
     eventLine (js "DTEND:20250905T190000Z") text /\
     eventLine (js "SUMMARY:Welcome BBQ") text /\
     eventLine (js "LOCATION:Main Hall") text) /\
  (forall ev s e now,
     fourDigitYear s -> fourDigitYear e ->
     let text := IcsRoute.ics ev (TimeValue s) (TimeValue e) now in
     eventLine (js "DTSTART:" ++ compactUTC s) text /\
     eventLine (js "DTEND:" ++ compactUTC e) text) /\
  (forall ev start end_ now,
     let text := IcsRoute.ics ev start end_ now in
     eventLine (js "UID:" ++ id ev ++ js "@mcc-events") text /\
     eventLine (js "LOCATION:" ++
                match venue ev with
                | Some v => IcsRoute.escapeIcsText v
                | None => []
                end) text).
Proof.
  split; [|split].
  - intros now text. subst text. repeat split.
    + apply (ics_line_DTSTART welcomeBBQ (DateUTC 2025 8 5 17 0 0)).
    + apply (ics_line_DTEND welcomeBBQ _ (DateUTC 2025 8 5 19 0 0)).
    + apply (ics_line_SUMMARY welcomeBBQ).
    + apply (ics_line_LOCATION welcomeBBQ).
  - intros ev s e now Hs He text. subst text. split.
    + rewrite <- (toIcsUtc_compact s Hs). apply ics_line_DTSTART.
    + rewrite <- (toIcsUtc_compact e He). apply ics_line_DTEND.
  - intros ev start end_ now text. subst text. split.
    + apply ics_line_UID.
    + pose proof (ics_line_LOCATION ev start end_ now) as H.
      destruct (venue ev); exact H.
Qed.

(** The theorem at an event that starts at the first and ends at the last
    second of the four-digit years. *)
Lemma ics_event_lines_witness :
  let text := IcsRoute.ics uuidEvent (TimeValue (-30610224000000))
                           (TimeValue 253402300799000) noon in
  eventLine (js "DTSTART:10000101T000000Z") text /\
  eventLine (js "DTEND:99991231T235959Z") text.
Proof.
  apply (proj1 (proj2 ics_event_lines) uuidEvent (-30610224000000)
               253402300799000 noon); vm_compute; split; discriminate.
Defined.

(** Claim C3. The serializer is meant to write DTSTART and DTEND in the
    form YYYYMMDDTHHMMSSZ, but it prints the year without padding: a start
    on 1 January 999 gives the line DTSTART:9990101T000000Z, whose value
    has fifteen characters, and the line with the four-digit year is not
    in the output. *)
Theorem ics_three_digit_year :
  let text := IcsRoute.ics welcomeBBQ (DateUTC 999 0 1 0 0 0)
                           (DateUTC 2025 8 5 19 0 0) noon in
  DateUTC 999 0 1 0 0 0 = TimeValue (-30641760000000) /\
  eventLine (js "DTSTART:9990101T000000Z") text /\
  ~ eventLine (js "DTSTART:" ++ compactUTC (-30641760000000)) text.
Proof.
  cbv zeta. split; [reflexivity|]. split.
  - apply (ics_line_DTSTART welcomeBBQ (DateUTC 999 0 1 0 0 0)).
  - intros H. apply eventLine_infix in H. vm_compute in H. discriminate H.
Qed.

(** ** The handler of the calendar-file endpoint *)

Lemma GET_found DateParse lookup i now ev :
  i <> [] -> error (lookup i) = None -> data (lookup i) = Some ev ->
  IcsRoute.GET DateParse lookup (Some i) now =
  mkResponse 200
    (TextBody (IcsRoute.ics ev (DateParse (start_ts ev))
                            (DateParse (end_ts ev)) now))
    [ (js "Content-Type", js "text/calendar; charset=utf-8");
      (js "Content-Disposition",
       js "attachment; filename=" ++ [DQUOTE] ++ js "event-" ++
       IcsRoute.safeTitle (title ev) ++ js ".ics" ++ [DQUOTE]) ].
Proof.
  intros Hi He Hd. unfold IcsRoute.GET.
  destruct i as [|c i]; [congruence|]. now rewrite He, Hd.
Qed.

(** Claim C5. The endpoint answers 400 with a plain-text body when the id
    is missing or empty, 404 with a plain-text body when the lookup reports
    an error or finds no event, and otherwise 200 with the serializer
    output for the event that was found. *)
Theorem GET_responses DateParse lookup now :
  (forall id, id = None \/ id = Some [] ->
     IcsRoute.GET DateParse lookup id now =
     mkResponse 400 (TextBody (js "Missing event id")) []) /\
  (forall i, i <> [] ->
     error (lookup i) <> None \/ data (lookup i) = None ->
     IcsRoute.GET DateParse lookup (Some i) now =
     mkResponse 404 (TextBody (js "Event not found")) []) /\
  (forall i ev, i <> [] ->
     error (lookup i) = None -> data (lookup i) = Some ev ->
     let r := IcsRoute.GET DateParse lookup (Some i) now in
     status r = 200 /\
     body r = TextBody (IcsRoute.ics ev (DateParse (start_ts ev))
                                     (DateParse (end_ts ev)) now)).
Proof.
  split; [|split].
  - intros id [->| ->]; reflexivity.
  - intros i Hi H. unfold IcsRoute.GET.
    destruct i as [|c i]; [congruence|].
    destruct (error (lookup (c :: i))) as [e|]; [reflexivity|].
    destruct H as [H|H]; [congruence|]. now rewrite H.
  - intros i ev Hi He Hd r. subst r.
    rewrite (GET_found DateParse lookup i now ev Hi He Hd). split; reflexivity.
Qed.

(** The three answers on the demonstration store. *)
Lemma GET_responses_witness :
  status (IcsRoute.GET parseIsoUtc demoLookup None noon) = 400 /\
  status (IcsRoute.GET parseIsoUtc demoLookup (Some (js "e2")) noon) = 404 /\
  body (IcsRoute.GET parseIsoUtc demoLookup (Some (js "e1")) noon) =
  TextBody (IcsRoute.ics welcomeBBQ (DateUTC 2025 8 5 17 0 0)
                         (DateUTC 2025 8 5 19 0 0) noon).
Proof.
  destruct (GET_responses parseIsoUtc demoLookup noon) as (H400 & H404 & H200).
  split; [|split].
  - exact (f_equal status (H400 None (or_introl eq_refl))).
  - refine (f_equal status (H404 (js "e2") _ _)); [discriminate | left; discriminate].
  - apply (H200 (js "e1") welcomeBBQ); [discriminate | reflexivity | reflexivity].
Defined.

Lemma replaceClass_safe t :
  Forall (fun c => IcsRoute.isFilenameChar c = true)
    (replaceClass (fun c => negb (IcsRoute.isFilenameChar c)) (js "_") t).
Proof.
  induction t as [|c t IH]; [constructor|].
  unfold replaceClass in *. cbn [flat_map].
  destruct (IcsRoute.isFilenameChar c) eqn:E; cbn [negb app].
  - constructor; assumption.
  - apply Forall_app. split; [|assumption]. repeat constructor.
Qed.

Lemma replaceClass_map (p : N -> bool) (r : N) t :
  replaceClass p [r] t = map (fun c => if p c then r else c) t.
Proof.
  unfold replaceClass. induction t as [|c t IH]; [reflexivity|].
  cbn [flat_map map]. rewrite IH. now destruct (p c).
Qed.

Lemma Forall_firstn {A} (P : A -> Prop) n (l : list A) :
  Forall P l -> Forall P (firstn n l).
Proof.
  intros H. revert n. induction H as [|x l Hx Hl IH]; intros [|n]; cbn;
    constructor; auto.
Qed.

(** Claim C7. A successful answer carries the calendar content type and
    the attachment name [event-<sanitized title>.ics], and for every title
    the sanitized title is the first fifty code units of the title with
    each code unit other than an ASCII letter, a digit, an underscore or a
    hyphen turned into an underscore: it is made of those characters only
    and has at most fifty code units. *)
Theorem safeTitle_filename :
  (forall t,
     IcsRoute.safeTitle t =
     firstn 50 (map (fun c => if IcsRoute.isFilenameChar c then c else 95%N) t) /\
     Forall (fun c => IcsRoute.isFilenameChar c = true) (IcsRoute.safeTitle t) /\
     (List.length (IcsRoute.safeTitle t) <= 50)%nat) /\
  (forall DateParse lookup i now ev,
     i <> [] -> error (lookup i) = None -> data (lookup i) = Some ev ->
     let r := IcsRoute.GET DateParse lookup (Some i) now in
     status r = 200 /\
     headers r =
     [ (js "Content-Type", js "text/calendar; charset=utf-8");
       (js "Content-Disposition",
        js "attachment; filename=" ++ [DQUOTE] ++ js "event-" ++
        IcsRoute.safeTitle (title ev) ++ js ".ics" ++ [DQUOTE]) ]).
Proof.
  split.
  - intros t. unfold IcsRoute.safeTitle, substring0. split; [|split].
    + change (js "_") with [95%N]. rewrite replaceClass_map. f_equal.
      apply map_ext. intros c. now destruct (IcsRoute.isFilenameChar c).
    + apply Forall_firstn, replaceClass_safe.
    + apply firstn_le_length.
  - intros DateParse lookup i now ev Hi He Hd r. subst r.
    rewrite (GET_found DateParse lookup i now ev Hi He Hd). split; reflexivity.
Qed.

(** The headers of the scenario event. *)
Lemma safeTitle_filename_witness :
  headers (IcsRoute.GET parseIsoUtc demoLookup (Some (js "e1")) noon) =
  [ (js "Content-Type", js "text/calendar; charset=utf-8");
    (js "Content-Disposition",
     js "attachment; filename=" ++ [DQUOTE] ++ js "event-Welcome_BBQ.ics" ++
     [DQUOTE]) ].
Proof.
  apply (proj2 safeTitle_filename parseIsoUtc demoLookup (js "e1") noon
               welcomeBBQ); [discriminate | reflexivity | reflexivity].
Defined.

(** ** The handler of the event creation endpoint *)

Import EventsRoute.

Lemma MissingOrEmpty_falsy v : MissingOrEmpty v -> truthy v = false.
Proof. intros [->| ->]; reflexivity. Qed.

(** Reading a field of [body || {}] is reading it from [body]. *)
Lemma getProp_default body k :
  getProp (if truthy body then body else JObject []) k = getProp body k.
Proof. destruct body as [| |[]|x|s| |]; cbn; try reflexivity;
  [destruct (negb _) | destruct (negb _)]; reflexivity.
Qed.

Lemma POST_validated insertEvent body :
  truthy (getProp body (js "title")) = true ->
  truthy (getProp body (js "start_ts")) = true ->
  truthy (getProp body (js "end_ts")) = true ->
  POST insertEvent (Returns body) =
  match insertEvent (getProp body (js "title")) (getProp body (js "start_ts"))
                    (getProp body (js "end_ts"))
                    (nullishv (getProp body (js "venue")) JNull) with
  | Throws err => onThrow err
  | Returns r =>
      match error r with
      | Some e => json (JObject [(js "error", JString (message e))]) 400
      | None => json (match data r with Some row => row | None => JNull end) 201
      end
  end.
Proof.
  intros Ht Hs He. unfold POST. rewrite !getProp_default, Ht, Hs, He.
  reflexivity.
Qed.

(** Claim C6. A body in which the title, the start or the end is missing
    or empty, or is any other value that JavaScript takes for false (null,
    false, zero, NaN), is answered 400 with a JSON error, and the store is
    not asked; an insert failure that the store reports is answered 400
    with the store's message; a successful insert is answered 201 with the
    created row, or with null when the store returns no row; a failure
    that is thrown, by the parsing of the body or by the store client, is
    answered 500 with a JSON error whose message is a string. The cases
    cover every request. *)
Theorem POST_responses insertEvent :
  (forall body,
     truthy (getProp body (js "title")) = false \/
     truthy (getProp body (js "start_ts")) = false \/
     truthy (getProp body (js "end_ts")) = false ->
     POST insertEvent (Returns body) =
     mkResponse 400
       (JsonBody (JObject [(js "error",
                            JString (js "title, start_ts, and end_ts are required"))]))
       []) /\
  (forall body r e,
     truthy (getProp body (js "title")) = true ->
     truthy (getProp body (js "start_ts")) = true ->
     truthy (getProp body (js "end_ts")) = true ->
     insertEvent (getProp body (js "title")) (getProp body (js "start_ts"))
                 (getProp body (js "end_ts"))
                 (nullishv (getProp body (js "venue")) JNull) = Returns r ->
     error r = Some e ->
     POST insertEvent (Returns body) =
     mkResponse 400 (JsonBody (JObject [(js "error", JString (message e))])) []) /\
  (forall body r row,
     truthy (getProp body (js "title")) = true ->
     truthy (getProp body (js "start_ts")) = true ->
     truthy (getProp body (js "end_ts")) = true ->
     insertEvent (getProp body (js "title")) (getProp body (js "start_ts"))
                 (getProp body (js "end_ts"))
                 (nullishv (getProp body (js "venue")) JNull) = Returns r ->
     error r = None -> data r = Some row ->
     POST insertEvent (Returns body) = mkResponse 201 (JsonBody row) []) /\
  (forall err,
     POST insertEvent (Throws err) =
     mkResponse 500
       (JsonBody (JObject [(js "error", JString (errorMessage err))])) []) /\
  (forall body err,
     truthy (getProp body (js "title")) = true ->
     truthy (getProp body (js "start_ts")) = true ->
     truthy (getProp body (js "end_ts")) = true ->
     insertEvent (getProp body (js "title")) (getProp body (js "start_ts"))
                 (getProp body (js "end_ts"))
                 (nullishv (getProp body (js "venue")) JNull) = Throws err ->
     POST insertEvent (Returns body) =
     mkResponse 500
       (JsonBody (JObject [(js "error", JString (errorMessage err))])) []) /\
  (forall body r,
     truthy (getProp body (js "title")) = true ->
     truthy (getProp body (js "start_ts")) = true ->
     truthy (getProp body (js "end_ts")) = true ->
     insertEvent (getProp body (js "title")) (getProp body (js "start_ts"))
                 (getProp body (js "end_ts"))
                 (nullishv (getProp body (js "venue")) JNull) = Returns r ->
     error r = None -> data r = None ->
     POST insertEvent (Returns body) = mkResponse 201 (JsonBody JNull) []) /\
  (forall v,
     MissingOrEmpty v \/ v = JNull \/ v = JBool false \/
     v = JNumber PrimFloat.zero \/ v = JNumber PrimFloat.neg_zero \/
     v = JNumber PrimFloat.nan ->
     truthy v = false).
Proof.
  split; [|split; [|split; [|split; [|split; [|split]]]]].
  - intros body H. unfold POST. rewrite !getProp_default.
    destruct H as [H|[H|H]]; rewrite H;
      cbn [negb orb]; rewrite ?orb_true_r; reflexivity.
  - intros body r e Ht Hs He Hi Herr.
    rewrite (POST_validated insertEvent body Ht Hs He), Hi, Herr. reflexivity.
  - intros body r row Ht Hs He Hi Herr Hdata.
    rewrite (POST_validated insertEvent body Ht Hs He), Hi, Herr, Hdata.
    reflexivity.
  - reflexivity.
  - intros body err Ht Hs He Hi.
    rewrite (POST_validated insertEvent body Ht Hs He), Hi. reflexivity.
  - intros body r Ht Hs He Hi Herr Hdata.
    rewrite (POST_validated insertEvent body Ht Hs He), Hi, Herr, Hdata.
    reflexivity.
  - intros v [H|[->|[->|[->|[->| ->]]]]];
      [now apply MissingOrEmpty_falsy | reflexivity..].
Qed.

(** The answers to a body whose title is null, to a complete body on a
    rejecting and on an accepting store, and to a body that fails to
    parse. *)
Lemma POST_responses_witness :
  status (POST acceptingStore (Returns nullTitleBody)) = 400 /\
  POST rejectingStore (Returns bbqBody) =
  mkResponse 400
    (JsonBody (JObject [(js "error", JString (js "permission denied"))])) [] /\
  status (POST acceptingStore (Returns bbqBody)) = 201 /\
  POST acceptingStore (Throws (ThrownObject (Some (js "Unexpected end of JSON input")))) =
  mkResponse 500
    (JsonBody (JObject [(js "error", JString (js "Unexpected end of JSON input"))])) [].
Proof.
  split; [|split; [|split]].
  - refine (f_equal status
              (proj1 (POST_responses acceptingStore) nullTitleBody _)).
    left. reflexivity.
  - refine (proj1 (proj2 (POST_responses rejectingStore)) bbqBody _ _
                  eq_refl eq_refl eq_refl eq_refl eq_refl).
  - refine (f_equal status
              (proj1 (proj2 (proj2 (POST_responses acceptingStore))) bbqBody _ _
                     eq_refl eq_refl eq_refl eq_refl eq_refl eq_refl)).
  - exact (proj1 (proj2 (proj2 (proj2 (POST_responses acceptingStore)))) _).
Defined.

(** ** The week of a reference instant *)

Lemma TimeClip_valid t : Z.abs t <= maxTime -> TimeClip t = TimeValue t.
Proof. intros H. unfold TimeClip. apply Z.leb_le in H. now rewrite H. Qed.

Lemma TimeClip_invalid t : maxTime < Z.abs t -> TimeClip t = InvalidDate.
Proof. intros H. unfold TimeClip. apply Z.leb_gt in H. now rewrite H. Qed.

Lemma TimeClip_inv t b : TimeClip t = TimeValue b -> t = b /\ Z.abs b <= maxTime.
Proof.
  unfold TimeClip. destruct (Z.leb_spec (Z.abs t) maxTime) as [H|H];
    [|discriminate]. intros E. injection E as <-. auto.
Qed.

Lemma setDate_inv zone d n b :
  setDate zone d n = TimeValue b -> Z.abs b <= maxTime.
Proof.
  unfold setDate. destruct d as [|tv]; [discriminate|].
  destruct n as [|k]; [discriminate|]. intros H.
  now apply TimeClip_inv in H.
Qed.

Lemma midnight_of_day d : (d * msPerDay) mod msPerDay = 0.
Proof. apply Z.mod_mul. discriminate. Qed.

Lemma Day_midnight m : m mod msPerDay = 0 -> Day m * msPerDay = m.
Proof. unfold Day, msPerDay. intros H. Z.div_mod_to_equations. lia. Qed.

(** [setDate] with the day of the month moved by [k] moves the date by
    [k] days on the local clock. *)
Lemma setDate_shift zone tv k :
  setDate zone (TimeValue tv) (Int (DateFromTime (LocalTime zone tv) + k)) =
  TimeClip (UTC zone (LocalTime zone tv + k * msPerDay)).
Proof.
  unfold setDate. rewrite MakeDay_fields. do 2 f_equal.
  unfold MakeDate, Day, TimeWithinDay, msPerDay.
  Z.div_mod_to_equations. lia.
Qed.

Lemma mondayIndex_range t : 0 <= mondayIndex t <= 6.
Proof.
  unfold mondayIndex, WeekDay, EventsList.WEEK_START.
  Z.to_euclidean_division_equations. lia.
Qed.

(** The end of a week is its start moved by seven days on the local
    clock, in every zone. *)
Lemma endOfWeek_local zone d :
  EventsList.endOfWeek zone d =
  plusLocalMs zone (EventsList.startOfWeek zone d) (7 * msPerDay).
Proof.
  unfold EventsList.endOfWeek.
  destruct (EventsList.startOfWeek zone d) as [|b] eqn:E; [reflexivity|].
  assert (Hb : Z.abs b <= maxTime).
  { unfold EventsList.startOfWeek in E. now apply setDate_inv in E. }
  cbn [DateCopy plusLocalMs]. rewrite (TimeClip_valid b Hb).
  cbn [getDate onTime num_add]. apply setDate_shift.
Qed.

Lemma plusLocalMs_fixed c d k : plusLocalMs (fixedZone c) d k = plusMs d k.
Proof.
  destruct d as [|t]; [reflexivity|]. cbn [plusLocalMs plusMs]. f_equal.
  unfold UTC, LocalTime, fixedZone. cbn. lia.
Qed.

Lemma fixedZone_regular c : Z.abs c < msPerDay -> RegularZone (fixedZone c).
Proof.
  intros H. split.
  - intros x _. unfold LocalTime, UTC, fixedZone. cbn. lia.
  - intros x. exact H.
Qed.

Lemma startOfWeek_defined zone d b :
  EventsList.startOfWeek zone d = TimeValue b ->
  exists tv, d = TimeValue tv /\ Z.abs tv <= maxTime.
Proof.
  destruct d as [|tv]; [discriminate|]. intros H. exists tv. split; [reflexivity|].
  destruct (Z_le_gt_dec (Z.abs tv) maxTime) as [Hv|Hv]; [assumption|].
  unfold EventsList.startOfWeek in H. cbn [DateCopy] in H.
  rewrite (TimeClip_invalid tv) in H by lia. discriminate H.
Qed.

Section Regular.

Variable zone : TimeZone.
Hypothesis regular : RegularZone zone.

(** The start of a week is a local midnight that falls on a Monday. *)
Lemma startOfWeek_monday d b :
  EventsList.startOfWeek zone d = TimeValue b ->
  exists m,
    m mod msPerDay = 0 /\ WeekDay m = 1 /\
    UTC zone m = b /\ LocalTime zone b = m /\ Z.abs b <= maxTime.
Proof.
  intros H. destruct (startOfWeek_defined zone d b H) as (tv & -> & Htv).
  destruct regular as [Hmid _].
  unfold EventsList.startOfWeek in H. cbn [DateCopy] in H.
  rewrite (TimeClip_valid tv Htv) in H.
  cbn [getDay onTime num_add num_rem] in H.
  fold (mondayIndex (LocalTime zone tv)) in H.
  pose proof (mondayIndex_range (LocalTime zone tv)) as Hidx.
  set (t := LocalTime zone tv) in *. set (idx := mondayIndex t) in *.
  unfold setHours in H. fold t in H.
  replace (MakeDate (Day t) (MakeTime 0 0 0 0)) with (Day t * msPerDay) in H
    by (unfold MakeDate, MakeTime; lia).
  destruct (TimeClip (UTC zone (Day t * msPerDay))) as [|u] eqn:Eu;
    [discriminate H|].
  apply TimeClip_inv in Eu as [Eu Hu].
  cbn [getDate onTime num_sub] in H.
  assert (Hlocal : LocalTime zone u = Day t * msPerDay).
  { rewrite <- Eu. apply Hmid, midnight_of_day. }
  replace (DateFromTime (LocalTime zone u) - idx)
    with (DateFromTime (LocalTime zone u) + - idx) in H by lia.
  rewrite setDate_shift, Hlocal in H.
  apply TimeClip_inv in H as [Hb Hrange].
  exists ((Day t - idx) * msPerDay).
  split; [apply midnight_of_day|]. split.
  { unfold idx, mondayIndex, WeekDay, EventsList.WEEK_START, Day, msPerDay.
    rewrite Z.div_mul by discriminate.
    Z.to_euclidean_division_equations. lia. }
  replace ((Day t - idx) * msPerDay) with (Day t * msPerDay + - idx * msPerDay)
    by lia.
  split; [exact Hb|]. split; [|exact Hrange].
  rewrite <- Hb. apply Hmid.
  replace (Day t * msPerDay + - idx * msPerDay) with ((Day t - idx) * msPerDay)
    by lia.
  apply midnight_of_day.
Qed.

(** An instant that is a local Monday midnight starts its own week. *)
Lemma startOfWeek_fixed b m :
  Z.abs b <= maxTime -> m mod msPerDay = 0 -> WeekDay m = 1 ->
  UTC zone m = b -> LocalTime zone b = m ->
  EventsList.startOfWeek zone (TimeValue b) = TimeValue b.
Proof.
  intros Hb Hmid Hmon Hutc Hloc.
  unfold EventsList.startOfWeek. cbn [DateCopy]. rewrite (TimeClip_valid b Hb).
  cbn [getDay onTime num_add num_rem]. rewrite Hloc, Hmon.
  change (Z.rem (1 + - EventsList.WEEK_START + 7) 7) with 0.
  unfold setHours. rewrite Hloc.
  replace (MakeDate (Day m) (MakeTime 0 0 0 0)) with m
    by (unfold MakeDate, MakeTime; rewrite (Day_midnight m Hmid); lia).
  rewrite Hutc, (TimeClip_valid b Hb). cbn [getDate onTime num_sub].
  replace (DateFromTime (LocalTime zone b) - 0)
    with (DateFromTime (LocalTime zone b) + 0) by lia.
  rewrite setDate_shift, Hloc, Z.add_0_r, Hutc. now apply TimeClip_valid.
Qed.

Lemma startOfWeek_idempotent d b :
  EventsList.startOfWeek zone d = TimeValue b ->
  EventsList.startOfWeek zone (TimeValue b) = TimeValue b.
Proof.
  intros H. destruct (startOfWeek_monday d b H) as (m & Hmid & Hmon & Hu & Hl & Hb).
  now apply (startOfWeek_fixed b m).
Qed.

(** The end of a week is the local midnight seven days after its start,
    and a later instant. *)
Lemma endOfWeek_monday d b e :
  EventsList.startOfWeek zone d = TimeValue b ->
  EventsList.endOfWeek zone d = TimeValue e ->
  b < e /\
  LocalTime zone e = LocalTime zone b + 7 * msPerDay /\
  EventsList.startOfWeek zone (TimeValue e) = TimeValue e.
Proof.
  intros Hs He.
  destruct (startOfWeek_monday d b Hs) as (m & Hmid & Hmon & Hu & Hl & Hb).
  rewrite endOfWeek_local, Hs in He. cbn [plusLocalMs] in He.
  apply TimeClip_inv in He as [He Habs]. rewrite Hl in He.
  destruct regular as [Hexists Hbound].
  assert (Hmid' : (m + 7 * msPerDay) mod msPerDay = 0).
  { unfold msPerDay in *. Z.div_mod_to_equations. lia. }
  assert (Hloc : LocalTime zone e = m + 7 * msPerDay).
  { rewrite <- He. now apply Hexists. }
  split; [|split].
  - pose proof (Hbound m). pose proof (Hbound (m + 7 * msPerDay)).
    unfold UTC, msPerDay in *. lia.
  - now rewrite Hl.
  - apply (startOfWeek_fixed e (m + 7 * msPerDay)); auto.
    unfold WeekDay, Day, msPerDay in *. Z.div_mod_to_equations. lia.
Qed.

End Regular.

Lemma weekEvents_In zone DateParse now1 now2 events ev :
  In ev (EventsList.weekEvents zone DateParse now1 now2 events) <->
  In ev events /\
  exists s ws we,
    DateParse (start_ts ev) = TimeValue s /\
    EventsList.startOfWeek zone now1 = TimeValue ws /\
    EventsList.endOfWeek zone now2 = TimeValue we /\
    ws <= s < we.
Proof.
  unfold EventsList.weekEvents. rewrite filter_In.
  apply and_iff_compat_l.
  destruct (DateParse (start_ts ev)) as [|s];
    destruct (EventsList.startOfWeek zone now1) as [|ws];
    destruct (EventsList.endOfWeek zone now2) as [|we];
    cbv zeta; cbn [date_geb date_ltb]; rewrite ?andb_false_r;
    try (split; [discriminate | intros (? & ? & ? & ? & ? & ? & ?); discriminate]).
  rewrite andb_true_iff, Z.leb_le, Z.ltb_lt. split.
  - intros [H1 H2]. exists s, ws, we. auto.
  - intros (s' & ws' & we' & E1 & E2 & E3 & H).
    injection E1 as <-. injection E2 as <-. injection E3 as <-. exact H.
Qed.

Lemma easternSpring2025_regular : RegularZone easternSpring2025.
Proof.
  split.
  - intros x Hx. unfold LocalTime, UTC, easternSpring2025. cbn.
    unfold msPerDay in Hx.
    destruct (Z.ltb_spec x 1741489200000);
      match goal with
      | |- context [if ?a <? ?b then _ else _] => destruct (Z.ltb_spec a b)
      end; Z.div_mod_to_equations; lia.
  - intros x. unfold easternSpring2025, msPerDay. cbn.
    destruct (x <? 1741489200000); lia.
Qed.

(** Claim C8, amended. The end of a week is its start moved by seven days
    on the local clock, in every zone, and that is its start plus
    7 * 86400000 milliseconds in a zone that keeps one offset. The events
    of the displayed week are those whose start instant lies in the
    half-open interval from the start to the end of the week. In a zone in
    which every local midnight exists, the start and the end of a week are
    themselves starts of weeks, an event at the start of the week is
    displayed and an event at its end is not. *)
Theorem week_interval :
  (forall zone d,
     EventsList.endOfWeek zone d =
     plusLocalMs zone (EventsList.startOfWeek zone d) (7 * msPerDay)) /\
  (forall c d,
     EventsList.endOfWeek (fixedZone c) d =
     plusMs (EventsList.startOfWeek (fixedZone c) d) (7 * msPerDay)) /\
  (forall zone DateParse now1 now2 events ev,
     In ev (EventsList.weekEvents zone DateParse now1 now2 events) <->
     In ev events /\
     exists s ws we,
       DateParse (start_ts ev) = TimeValue s /\
       EventsList.startOfWeek zone now1 = TimeValue ws /\
       EventsList.endOfWeek zone now2 = TimeValue we /\
       ws <= s < we) /\
  (forall zone,
     RegularZone zone ->
     (forall d b,
        EventsList.startOfWeek zone d = TimeValue b ->
        EventsList.startOfWeek zone (TimeValue b) = TimeValue b) /\
     (forall d e,
        EventsList.endOfWeek zone d = TimeValue e ->
        EventsList.startOfWeek zone (TimeValue e) = TimeValue e) /\
     (forall DateParse d b e events ev,
        EventsList.startOfWeek zone d = TimeValue b ->
        EventsList.endOfWeek zone d = TimeValue e ->
        In ev events ->
        (DateParse (start_ts ev) = TimeValue b ->
         In ev (EventsList.weekEvents zone DateParse d d events)) /\
        (DateParse (start_ts ev) = TimeValue e ->
         ~ In ev (EventsList.weekEvents zone DateParse d d events)))).
Proof.
  split; [exact endOfWeek_local|].
  split; [intros c d; now rewrite endOfWeek_local, plusLocalMs_fixed|].
  split; [exact weekEvents_In|].
  intros zone Hreg. split; [exact (startOfWeek_idempotent zone Hreg)|]. split.
  - intros d e He.
    destruct (EventsList.startOfWeek zone d) as [|b] eqn:Hs.
    { rewrite endOfWeek_local, Hs in He. discriminate He. }
    now destruct (endOfWeek_monday zone Hreg d b e Hs He) as (_ & _ & H).
  - intros DateParse d b e events ev Hs He Hin.
    destruct (endOfWeek_monday zone Hreg d b e Hs He) as (Hlt & _ & _).
    split; intros Hev.
    + apply weekEvents_In. split; [assumption|].
      exists b, b, e. repeat split; auto; lia.
    + intros H. apply weekEvents_In in H as (_ & s & ws & we & E1 & E2 & E3 & H).
      rewrite Hev in E1. rewrite He in E3.
      injection E1 as <-. injection E3 as <-. lia.
Qed.

(** In the zone with the clock change, the week of Wednesday 5 March 2025
    starts on Monday 3 March at 05:00 UTC, which starts its own week. *)
Lemma week_interval_witness :
  EventsList.startOfWeek easternSpring2025 (TimeValue 1740978000000) =
  TimeValue 1740978000000.
Proof.
  apply (proj1 (proj2 (proj2 (proj2 week_interval)) easternSpring2025
                      easternSpring2025_regular)
               (DateUTC 2025 2 5 12 0 0)).
  reflexivity.
Defined.

(** Claim C8 as stated fails: seven days on the local clock are not always
    seven times 24 hours. The week in which the clocks go forward runs from
    Monday 3 March 2025, 00:00 local time (05:00 UTC), to Monday 10 March,
    00:00 local time (04:00 UTC), an hour less than seven days later. *)
Lemma week_with_clock_change :
  let d := DateUTC 2025 2 5 12 0 0 in
  EventsList.startOfWeek easternSpring2025 d = TimeValue 1740978000000 /\
  EventsList.endOfWeek easternSpring2025 d =
  TimeValue (1740978000000 + 7 * msPerDay - msPerHour) /\
  EventsList.endOfWeek easternSpring2025 d <>
  plusMs (EventsList.startOfWeek easternSpring2025 d) (7 * msPerDay).
Proof.
  cbv zeta. split; [reflexivity|]. split; [reflexivity|].
  vm_compute. discriminate.
Qed.

(** ** The calendar link *)

(** The two timestamp formatters are the same function. *)
Lemma formatters_agree d : IcsRoute.toIcsUtc d = EventsList.toGoogleDateUTC d.
Proof. reflexivity. Qed.

(** Claim C10. The formatter of the serializer and the formatter of the
    link builder return the same text on every date, valid or not. *)
Theorem toIcsUtc_toGoogleDateUTC :
  forall d, IcsRoute.toIcsUtc d = EventsList.toGoogleDateUTC d.
Proof. exact formatters_agree. Qed.

Lemma hexDigit_safe n : (n < 16)%N -> isFormSafe (hexDigit n) = true.
Proof.
  intros H.
  assert (Hn : In n [0; 1; 2; 3; 4; 5; 6; 7; 8; 9; 10; 11; 12; 13; 14; 15]%N)
    by (cbn [In]; lia).
  cbn [In] in Hn. decompose [or] Hn; subst; try reflexivity; contradiction.
Qed.

Lemma isFormSafe_isUrlSafe c : isFormSafe c = true -> isUrlSafe c = true.
Proof. intros H. unfold isUrlSafe. now rewrite H. Qed.

Lemma formEncodeByte_safe b : Forall (fun c => isUrlSafe c = true) (formEncodeByte b).
Proof.
  unfold formEncodeByte. destruct (isFormSafe b) eqn:E.
  - repeat constructor. now apply isFormSafe_isUrlSafe.
  - destruct (b =? 32)%N; repeat constructor;
      apply isFormSafe_isUrlSafe, hexDigit_safe;
      apply N.mod_upper_bound; discriminate.
Qed.

Lemma formEncode_safe s : Forall (fun c => isUrlSafe c = true) (formEncode s).
Proof.
  unfold formEncode. induction (utf8Encode s) as [|b l IH]; cbn [flat_map].
  - constructor.
  - apply Forall_app. split; [apply formEncodeByte_safe | exact IH].
Qed.

Lemma params_toString_safe ps :
  Forall (fun c => isUrlSafe c = true) (params_toString ps).
Proof.
  unfold params_toString. induction ps as [|[n v] ps IH]; [constructor|].
  assert (He : Forall (fun c => isUrlSafe c = true)
                 (formEncode n ++ js "=" ++ formEncode v)).
  { repeat (apply Forall_app; split); try apply formEncode_safe.
    repeat constructor. }
  cbn [map fst snd]. destruct ps as [|p ps']; [exact He|].
  cbn [map] in *. rewrite join_two.
  apply Forall_app; split; [exact He|].
  apply Forall_app; split; [repeat constructor | exact IH].
Qed.

Lemma formEncode_ascii c s :
  (c < 128)%N -> formEncode (c :: s) = formEncodeByte c ++ formEncode s.
Proof.
  intros H. unfold formEncode, utf8Encode. cbn [codePoints].
  assert (E1 : isHighSurrogate c = false).
  { unfold isHighSurrogate. apply andb_false_iff. left. apply N.leb_gt. lia. }
  assert (E2 : isLowSurrogate c = false).
  { unfold isLowSurrogate. apply andb_false_iff. left. apply N.leb_gt. lia. }
  rewrite E1, E2. cbn [flat_map]. unfold utf8OfCodePoint.
  apply N.ltb_lt in H. rewrite H. reflexivity.
Qed.

Lemma formEncode_plain a rest :
  Forall (fun c => isAsciiAlphanumeric c = true) a ->
  formEncode (a ++ rest) = a ++ formEncode rest.
Proof.
  induction 1 as [|c a Hc Ha IH]; [reflexivity|].
  cbn [app]. rewrite formEncode_ascii.
  - unfold formEncodeByte, isFormSafe. rewrite Hc. cbn [orb app]. now rewrite IH.
  - unfold isAsciiAlphanumeric in Hc.
    repeat rewrite orb_true_iff in Hc. repeat rewrite andb_true_iff in Hc.
    repeat rewrite N.leb_le in Hc. lia.
Qed.

Lemma digitOf_alnum z : isAsciiAlphanumeric (digitOf z) = true.
Proof.
  unfold isAsciiAlphanumeric, digitOf.
  assert (H : (48 <= 48 + Z.to_N (z mod 10) <= 57)%N) by nlia.
  destruct H as [H1 H2]. apply N.leb_le in H1, H2. now rewrite H1, H2.
Qed.

Lemma compactUTC_alnum t :
  Forall (fun c => isAsciiAlphanumeric c = true) (compactUTC t).
Proof.
  unfold compactUTC, fourDigits, twoDigits.
  repeat (apply Forall_app; split); repeat constructor; apply digitOf_alnum.
Qed.

Lemma formEncode_dates s e :
  formEncode (compactUTC s ++ js "/" ++ compactUTC e) =
  compactUTC s ++ js "%2F" ++ compactUTC e.
Proof.
  rewrite (formEncode_plain _ _ (compactUTC_alnum s)).
  change (js "/" ++ compactUTC e) with (47%N :: compactUTC e).
  rewrite formEncode_ascii by reflexivity.
  rewrite <- (app_nil_r (compactUTC e)) at 1.
  rewrite (formEncode_plain _ _ (compactUTC_alnum e)).
  now rewrite app_nil_r.
Qed.

Lemma toGoogleDateUTC_compact t :
  fourDigitYear t -> EventsList.toGoogleDateUTC (TimeValue t) = compactUTC t.
Proof. intros H. rewrite <- formatters_agree. now apply toIcsUtc_compact. Qed.

(** The parameter list, whatever the dates are. *)
Lemma googleCalParams_shape title start end_ location details :
  EventsList.googleCalParams title start end_ location details =
  [ (js "action", js "TEMPLATE");
    (js "text", title);
    (js "dates", EventsList.toGoogleDateUTC start ++ js "/" ++
                 EventsList.toGoogleDateUTC end_) ] ++
  optionalParam (js "location") location ++
  optionalParam (js "details") details.
Proof.
  unfold EventsList.googleCalParams.
  generalize (EventsList.toGoogleDateUTC start ++ js "/" ++
              EventsList.toGoogleDateUTC end_) as dates.
  intros dates.
  destruct location as [[|c l]|]; destruct details as [[|c' l']|]; reflexivity.
Qed.

Lemma optionalParam_In name value other :
  In other (map fst (optionalParam name value)) <->
  other = name /\ exists c l, value = Some (c :: l).
Proof.
  destruct value as [[|c l]|]; cbn.
  - split; [tauto | intros (_ & c & l & H); discriminate].
  - split.
    + intros [<-|[]]. split; [reflexivity|]. now exists c, l.
    + intros [-> _]. now left.
  - split; [tauto | intros (_ & c & l & H); discriminate].
Qed.

Lemma buildGoogleCalUrl_text title s e location details :
  fourDigitYear s -> fourDigitYear e ->
  EventsList.buildGoogleCalUrl title (TimeValue s) (TimeValue e) location details =
  js "https://calendar.google.com/calendar/render?action=TEMPLATE&text=" ++
  formEncode title ++ js "&dates=" ++ compactUTC s ++ js "%2F" ++ compactUTC e ++
  optionalQuery (js "location") location ++
  optionalQuery (js "details") details.
Proof.
  intros Hs He. unfold EventsList.buildGoogleCalUrl.
  rewrite googleCalParams_shape, !toGoogleDateUTC_compact by assumption.
  unfold params_toString.
  destruct location as [[|c l]|]; destruct details as [[|c' l']|];
    cbn [optionalParam optionalQuery app map fst snd];
    rewrite !join_two; cbn [join]; rewrite formEncode_dates;
    rewrite <- ?app_assoc, ?app_nil_r; reflexivity.
Qed.

(** Claim C9, amended. For a start and an end whose UTC years have four
    digits, the link is the endpoint followed by the serialized parameters
    action, text and dates, where dates is the start and the end in the
    form YYYYMMDDTHHMMSSZ separated by a slash (written %2F in the link),
    followed by location and details exactly when they are given and not
    empty. Whatever the inputs, the builder returns a link, and every
    character of its query is one the serializer keeps, a plus sign, a
    percent escape or a separator. *)
Theorem buildGoogleCalUrl_spec :
  (forall title s e location details,
     fourDigitYear s -> fourDigitYear e ->
     EventsList.googleCalParams title (TimeValue s) (TimeValue e) location details =
     [ (js "action", js "TEMPLATE");
       (js "text", title);
       (js "dates", compactUTC s ++ js "/" ++ compactUTC e) ] ++
     optionalParam (js "location") location ++
     optionalParam (js "details") details /\
     EventsList.buildGoogleCalUrl title (TimeValue s) (TimeValue e) location details =
     js "https://calendar.google.com/calendar/render?action=TEMPLATE&text=" ++
     formEncode title ++ js "&dates=" ++ compactUTC s ++ js "%2F" ++
     compactUTC e ++
     optionalQuery (js "location") location ++
     optionalQuery (js "details") details) /\
  (forall title start end_ location details,
     let ps := EventsList.googleCalParams title start end_ location details in
     EventsList.buildGoogleCalUrl title start end_ location details =
     js "https://calendar.google.com/calendar/render?" ++ params_toString ps /\
     Forall (fun c => isUrlSafe c = true) (params_toString ps) /\
     (In (js "location") (map fst ps) <-> exists c l, location = Some (c :: l)) /\
     (In (js "details") (map fst ps) <-> exists c l, details = Some (c :: l))).
Proof.
  split.
  - intros title s e location details Hs He. split.
    + rewrite googleCalParams_shape, !toGoogleDateUTC_compact by assumption.
      reflexivity.
    + now apply buildGoogleCalUrl_text.
  - intros title start end_ location details ps. subst ps.
    split; [reflexivity|]. split; [apply params_toString_safe|].
    rewrite googleCalParams_shape. rewrite !map_app.
    split; rewrite !in_app_iff, !optionalParam_In; cbn [map fst In].
    + split.
      * intros [[H|[H|[H|[]]]]|[[_ H]|[H _]]];
          try (vm_compute in H; discriminate H); exact H.
      * intros H. right. left. auto.
    + split.
      * intros [[H|[H|[H|[]]]]|[[H _]|[_ H]]];
          try (vm_compute in H; discriminate H); exact H.
      * intros H. right. right. auto.
Qed.

(** The link of the scenario event. *)
Lemma buildGoogleCalUrl_spec_witness :
  EventsList.buildGoogleCalUrl (js "Welcome BBQ") (TimeValue 1757091600000)
    (TimeValue 1757098800000) (Some (js "Main Hall")) None =
  js "https://calendar.google.com/calendar/render?action=TEMPLATE&text=Welcome+BBQ&dates=20250905T170000Z%2F20250905T190000Z&location=Main+Hall".
Proof.
  apply (proj2 (proj1 buildGoogleCalUrl_spec (js "Welcome BBQ") 1757091600000
                      1757098800000 (Some (js "Main Hall")) None
                      ltac:(vm_compute; split; discriminate)
                      ltac:(vm_compute; split; discriminate))).
Defined.

(** Claim C9 as stated fails: a location that is given but empty is left
    out of the link. *)
Lemma buildGoogleCalUrl_empty_location :
  let ps := EventsList.googleCalParams (js "Welcome BBQ") bbqStart bbqEnd
              (Some []) None in
  Some (@nil N) <> None /\ ~ In (js "location") (map fst ps).
Proof.
  cbv zeta. split; [discriminate|].
  vm_compute. intros H. decompose [or] H; try discriminate; assumption.
Qed.

(** ** Sorting *)

Section SortFacts.

Variable A : Type.
Variable cmp : A -> A -> Z.

Let le (a b : A) : Prop := cmp a b <= 0.

Hypothesis le_total : forall a b, le a b \/ le b a.
Hypothesis le_trans : forall a b c, le a b -> le b c -> le a c.

Lemma insertBy_perm x l : Permutation (insertBy cmp x l) (x :: l).
Proof.
  induction l as [|y l IH]; cbn [insertBy]; [reflexivity|].
  destruct (cmp x y <=? 0); [reflexivity|].
  rewrite IH. apply perm_swap.
Qed.

Lemma sortBy_perm l : Permutation (sortBy cmp l) l.
Proof.
  induction l as [|x l IH]; cbn [sortBy fold_right]; [reflexivity|].
  fold (sortBy cmp l). rewrite insertBy_perm. now constructor.
Qed.

Lemma insertBy_sorted x l :
  StronglySorted le l -> StronglySorted le (insertBy cmp x l).
Proof.
  induction 1 as [|y l Hs IH Hy]; cbn [insertBy].
  - repeat constructor.
  - destruct (Z.leb_spec (cmp x y) 0) as [Hxy|Hxy].
    + constructor; [now constructor|].
      constructor; [exact Hxy|].
      rewrite Forall_forall in *. intros z Hz. apply (le_trans x y z Hxy), Hy, Hz.
    + constructor; [exact IH|].
      rewrite Forall_forall in *. intros z Hz.
      apply (Permutation_in _ (insertBy_perm x l)) in Hz as [<-|Hz].
      * destruct (le_total x y) as [H|H]; [unfold le in H; lia | exact H].
      * now apply Hy.
Qed.

Lemma sortBy_sorted l : StronglySorted le (sortBy cmp l).
Proof.
  induction l as [|x l IH]; cbn [sortBy fold_right]; [constructor|].
  now apply insertBy_sorted.
Qed.

End SortFacts.

Lemma StronglySorted_filter {A} (R : A -> A -> Prop) (f : A -> bool) l :
  StronglySorted R l -> StronglySorted R (filter f l).
Proof.
  induction 1 as [|x l Hs IH Hx]; cbn [filter]; [constructor|].
  destruct (f x); [|exact IH]. constructor; [exact IH|].
  rewrite Forall_forall in *. intros y Hy. apply filter_In in Hy as [Hy _]. auto.
Qed.

(** ** The map of the grouping loop *)

Section MapFacts.

Variable V : Type.
Implicit Types (m : jsMap V) (k : jstring) (v : V).

Lemma map_has_In k m : map_has k m = true <-> In k (map fst m).
Proof.
  unfold map_has. rewrite existsb_exists, in_map_iff. split.
  - intros (e & He & Hk). apply jstring_eqb_eq in Hk. now exists e.
  - intros (e & Hk & He). exists e. split; [exact He|]. now apply jstring_eqb_eq.
Qed.

Lemma map_get_In k v m : map_get k m = Some v -> In (k, v) m.
Proof.
  induction m as [|[k' v'] m IH]; cbn [map_get]; [discriminate|].
  destruct (jstring_eqb k' k) eqn:E.
  - apply jstring_eqb_eq in E as ->. intros H. injection H as ->. now left.
  - intros H. right. auto.
Qed.

Lemma map_get_has k m : map_has k m = true -> exists v, map_get k m = Some v.
Proof.
  induction m as [|[k' v'] m IH]; [discriminate|].
  unfold map_has in *. cbn [existsb map_get fst].
  destruct (jstring_eqb k' k); [now exists v' | exact IH].
Qed.

Lemma keys_unique k v1 v2 m :
  NoDup (map fst m) -> In (k, v1) m -> In (k, v2) m -> v1 = v2.
Proof.
  induction m as [|[k' v'] m IH]; [contradiction|].
  cbn [map fst]. intros Hnd [H1|H1] [H2|H2]; inversion Hnd as [|? ? Hnot Hnd']; subst.
  - congruence.
  - injection H1 as -> ->. exfalso. apply Hnot.
    apply in_map_iff. now exists (k, v2).
  - injection H2 as -> ->. exfalso. apply Hnot.
    apply in_map_iff. now exists (k, v1).
  - auto.
Qed.

Lemma map_replace_keys k v m : map fst (map_replace k v m) = map fst m.
Proof.
  unfold map_replace. rewrite map_map. apply map_ext.
  intros [k' v']. cbn [fst]. now destruct (jstring_eqb k' k).
Qed.

Lemma map_replace_In k v m k' v' :
  In (k', v') (map_replace k v m) ->
  (k' = k /\ v' = v) \/ (k' <> k /\ In (k', v') m).
Proof.
  unfold map_replace. rewrite in_map_iff. intros ([k0 v0] & E & Hin).
  cbn [fst] in E. destruct (jstring_eqb k0 k) eqn:Ek.
  - apply jstring_eqb_eq in Ek. injection E as <- <-. now left.
  - apply jstring_eqb_neq in Ek. injection E as <- <-. now right.
Qed.

End MapFacts.

(** ** The grouping loop *)

Section Grouping.

Variable DateParse : jstring -> Date.

Abbreviation key := (keyOf DateParse).
Abbreviation rows_of := (rowsOf DateParse).
Abbreviation step := (EventsList.groupStep DateParse).
Abbreviation grouped := (groupedBy DateParse).

Lemma dayKeyOf_valid ev t :
  DateParse (start_ts ev) = TimeValue t ->
  EventsList.dayKeyOf DateParse ev = Some (key ev).
Proof.
  intros H. unfold keyOf, EventsList.dayKeyOf. rewrite H. reflexivity.
Qed.

Lemma rowsOf_snoc k done ev :
  rows_of k (done ++ [ev]) =
  rows_of k done ++ (if jstring_eqb (key ev) k then [ev] else []).
Proof. unfold rowsOf. rewrite filter_app. reflexivity. Qed.

Lemma rowsOf_nil_iff k done :
  rows_of k done = [] <-> ~ exists ev, In ev done /\ key ev = k.
Proof.
  unfold rowsOf. split.
  - intros H (ev & Hin & Hk).
    assert (Hf : In ev (filter (fun e => jstring_eqb (key e) k) done)).
    { apply filter_In. split; [exact Hin|]. now apply jstring_eqb_eq. }
    rewrite H in Hf. exact Hf.
  - intros H. destruct (filter _ done) as [|ev l] eqn:E; [reflexivity|].
    exfalso. apply H. exists ev.
    assert (Hf : In ev (filter (fun e => jstring_eqb (key e) k) done))
      by (rewrite E; now left).
    apply filter_In in Hf as [Hin Hk]. split; [exact Hin|].
    now apply jstring_eqb_eq.
Qed.

Lemma grouped_step done m ev t :
  grouped done m ->
  DateParse (start_ts ev) = TimeValue t ->
  exists m', step (Some m) ev = Some m' /\ grouped (done ++ [ev]) m'.
Proof.
  intros (Hnd & Hrows & Hcover) Ht.
  unfold EventsList.groupStep. rewrite (dayKeyOf_valid ev t Ht).
  set (k := key ev).
  destruct (map_has k m) eqn:Hhas.
  - (* the day already has a group *)
    destruct (map_get_has _ k m Hhas) as [rows Hget]. rewrite Hget.
    eexists. split; [reflexivity|].
    pose proof (map_get_In _ k rows m Hget) as Hin.
    destruct (Hrows k rows Hin) as [Erows _].
    split; [|split].
    + now rewrite map_replace_keys.
    + intros k' rows' H'. rewrite rowsOf_snoc. fold k.
      apply map_replace_In in H' as [[-> ->]|[Hne H']].
      * rewrite jstring_eqb_refl, Erows. split; [reflexivity|].
        intros E. apply app_eq_nil in E as [_ E]. discriminate E.
      * apply not_eq_sym, jstring_eqb_neq in Hne. rewrite Hne, app_nil_r.
        now apply Hrows.
    + intros e He. rewrite map_replace_keys.
      apply in_app_or in He as [He|[<-|[]]]; [now apply Hcover|].
      now apply map_has_In.
  - (* first event of its day *)
    assert (Hfresh : ~ In k (map fst m)).
    { intros H. apply map_has_In in H. congruence. }
    unfold map_set. rewrite Hhas.
    assert (Hget : map_get k (m ++ [(k, [])]) = Some (@nil EventRow)).
    { clear -Hfresh. induction m as [|[k' v'] m IH]; cbn [app map_get].
      - now rewrite jstring_eqb_refl.
      - destruct (jstring_eqb k' k) eqn:E.
        + apply jstring_eqb_eq in E. subst k'. exfalso. apply Hfresh. now left.
        + apply IH. intros H. apply Hfresh. now right. }
    rewrite Hget. eexists. split; [reflexivity|].
    assert (Hempty : rows_of k done = []).
    { apply rowsOf_nil_iff. intros (e & He & Hk). apply Hfresh.
      rewrite <- Hk. now apply Hcover. }
    split; [|split].
    + rewrite map_replace_keys, map_app. cbn [map fst].
      apply NoDup_app; [exact Hnd | repeat constructor; intros [] |].
      intros x Hx [<-|[]]. exact (Hfresh Hx).
    + intros k' rows' H'. rewrite rowsOf_snoc. fold k.
      apply map_replace_In in H' as [[-> ->]|[Hne H']].
      * rewrite jstring_eqb_refl, Hempty. split; [reflexivity | discriminate].
      * apply in_app_or in H' as [H'|[E|[]]]; [|congruence].
        apply not_eq_sym, jstring_eqb_neq in Hne. rewrite Hne, app_nil_r.
        now apply Hrows.
    + intros e He. rewrite map_replace_keys, map_app, in_app_iff. cbn [map fst In].
      apply in_app_or in He as [He|[<-|[]]]; [left; now apply Hcover|].
      right. now left.
Qed.

Lemma grouped_loop events : forall done m,
  grouped done m ->
  validStarts DateParse events ->
  exists m',
    fold_left step events (Some m) = Some m' /\ grouped (done ++ events) m'.
Proof.
  induction events as [|ev events IH]; intros done m Hg Hv.
  - exists m. rewrite app_nil_r. auto.
  - inversion Hv as [|? ? [t Ht] Hv']; subst.
    destruct (grouped_step done m ev t Hg Ht) as (m1 & E1 & Hg1).
    destruct (IH (done ++ [ev]) m1 Hg1 Hv') as (m' & E' & Hg').
    exists m'. cbn [fold_left]. rewrite E1. split; [exact E'|].
    now rewrite <- app_assoc in Hg'.
Qed.

Lemma grouped_nil : grouped [] [].
Proof.
  split; [constructor|]. split; intros; contradiction.
Qed.

End Grouping.

(** ** Grouping by day *)

Lemma codeUnitCompare_collation : Collation codeUnitCompare.
Proof.
  split.
  - induction a as [|x a IH]; intros [|y b]; cbn [codeUnitCompare]; try lia.
    destruct (N.ltb_spec x y); [lia|].
    destruct (N.ltb_spec y x); [lia|]. apply IH.
  - induction a as [|x a IH]; intros [|y b] [|z c]; cbn [codeUnitCompare];
      try lia.
    destruct (N.ltb_spec x y), (N.ltb_spec y x), (N.ltb_spec y z),
      (N.ltb_spec z y), (N.ltb_spec x z), (N.ltb_spec z x); try lia.
    apply IH.
Qed.

(** Claim C4, amended. An empty list yields no group. For events that all
    have a start instant, and a collation that orders the day keys, the
    result has one group per distinct day key, the groups are in ascending
    order of their keys, and each group holds the events of its day in the
    order in which the input lists them; so the events of a group are in
    ascending order of start whenever the input list is, as it is when it
    comes from the store query, and events with equal starts keep their
    relative order. *)
Theorem groups_by_day DateParse localeCompare :
  EventsList.groups DateParse localeCompare [] = Some [] /\
  (forall events,
     Collation localeCompare ->
     validStarts DateParse events ->
     exists gs,
       EventsList.groups DateParse localeCompare events = Some gs /\
       NoDup (map fst gs) /\
       (forall k, In k (map fst gs) <->
                  exists ev, In ev events /\ keyOf DateParse ev = k) /\
       keysAscend localeCompare gs /\
       (forall k rows,
          In (k, rows) gs ->
          rows = rowsOf DateParse k events /\ rows <> []) /\
       (StronglySorted (startsBefore DateParse) events ->
        forall k rows,
          In (k, rows) gs -> StronglySorted (startsBefore DateParse) rows)).
Proof.
  split; [reflexivity|].
  intros events [Htotal Htrans] Hvalid.
  destruct (grouped_loop DateParse events [] [] (grouped_nil DateParse) Hvalid)
    as (m & Eloop & Hnd & Hrows & Hcover).
  cbn [app] in Hrows, Hcover.
  set (cmp := fun a b : jstring * list EventRow =>
                localeCompare (fst a) (fst b)).
  pose proof (sortBy_perm _ cmp m) as Hperm.
  exists (sortBy cmp m). split.
  { exact (f_equal (option_map (sortBy cmp)) Eloop). }
  assert (Hin : forall g, In g (sortBy cmp m) <-> In g m).
  { intros g. split; apply Permutation_in;
      [exact Hperm | exact (Permutation_sym Hperm)]. }
  assert (Hgroups : forall k rows,
            In (k, rows) (sortBy cmp m) ->
            rows = rowsOf DateParse k events /\ rows <> []).
  { intros k rows H. apply Hrows. now apply Hin. }
  split; [|split; [|split; [|split]]].
  - apply (Permutation_NoDup (Permutation_sym (Permutation_map fst Hperm))).
    exact Hnd.
  - intros k. split.
    + intros Hk. apply in_map_iff in Hk as ([k' rows] & <- & Hg).
      destruct (Hgroups k' rows Hg) as [-> Hne]. cbn [fst].
      unfold rowsOf in Hne.
      destruct (filter _ events) as [|ev l] eqn:E; [congruence|].
      assert (Hf : In ev (filter (fun e => jstring_eqb (keyOf DateParse e) k')
                                 events)) by (rewrite E; now left).
      apply filter_In in Hf as [Hev Hk]. apply jstring_eqb_eq in Hk.
      now exists ev.
    + intros (ev & Hev & <-).
      apply (Permutation_in _ (Permutation_sym (Permutation_map fst Hperm))).
      now apply Hcover.
  - apply sortBy_sorted.
    + intros a b. apply Htotal.
    + intros a b c. apply Htrans.
  - exact Hgroups.
  - intros Hsorted k rows H. destruct (Hgroups k rows H) as [-> _].
    now apply StronglySorted_filter.
Qed.

(** The theorem on the two events of the scenario, in order of start, and
    one of the next day. *)
Lemma groups_by_day_witness :
  exists gs,
    EventsList.groups parseIsoUtc codeUnitCompare
      [morningEvent; lateEvent; nextDayEvent] = Some gs /\
    NoDup (map fst gs) /\
    (forall k, In k (map fst gs) <->
               exists ev, In ev [morningEvent; lateEvent; nextDayEvent] /\
                          keyOf parseIsoUtc ev = k) /\
    keysAscend codeUnitCompare gs /\
    (forall k rows,
       In (k, rows) gs ->
       rows = rowsOf parseIsoUtc k [morningEvent; lateEvent; nextDayEvent] /\
       rows <> []) /\
    (StronglySorted (startsBefore parseIsoUtc)
                    [morningEvent; lateEvent; nextDayEvent] ->
     forall k rows,
       In (k, rows) gs -> StronglySorted (startsBefore parseIsoUtc) rows).
Proof.
  apply (proj2 (groups_by_day parseIsoUtc codeUnitCompare)).
  - exact codeUnitCompare_collation.
  - repeat constructor; eexists; reflexivity.
Defined.

(** Claim C4 as stated fails: the events of a day are not sorted. Given
    the later event first, the group of the day lists it first. *)
Lemma groups_keep_input_order :
  EventsList.groups parseIsoUtc codeUnitCompare [lateEvent; morningEvent] =
  Some [(js "2025-01-01", [lateEvent; morningEvent])] /\
  ~ StronglySorted (startsBefore parseIsoUtc) [lateEvent; morningEvent].
Proof.
  split; [reflexivity|].
  intros H. inversion H as [|? ? _ Hall]; subst.
  inversion Hall as [|? ? (s & t & Hs & Ht & Hle) _]; subst.
  vm_compute in Hs, Ht. injection Hs as <-. injection Ht as <-. lia.
Qed.

(** ** Fixed-width decimal fields *)

Lemma digitsN_full f : forall g n acc,
  (g <= f)%nat -> (N.size_nat n <= g)%nat ->
  digitsN (S g) n acc = N_toString n ++ acc.
Proof.
  induction f as [|f IH]; intros g n acc Hg Hsize.
  - assert (g = O) by lia. subst g.
    destruct n as [|p]; [reflexivity | destruct p; cbn in Hsize; lia].
  - destruct (N.lt_ge_cases n 10) as [Hlt|Hge].
    + rewrite digitsN_lt10, N_toString_1 by assumption. reflexivity.
    + pose proof (size_nat_div10 n Hge) as Hs.
      destruct g as [|g']; [lia|].
      rewrite digitsN_ge10 by assumption.
      rewrite (IH g') by lia.
      unfold N_toString at 2.
      destruct (N.size_nat n) as [|s'] eqn:Es; [lia|].
      rewrite digitsN_ge10 by assumption.
      rewrite (IH s') by lia.
      now rewrite <- app_assoc.
Qed.

Lemma N_toString_unfold n :
  (10 <= n)%N -> N_toString n = N_toString (n / 10) ++ [(48 + n mod 10)%N].
Proof.
  intros Hge. pose proof (size_nat_div10 n Hge) as Hs.
  unfold N_toString at 1.
  destruct (N.size_nat n) as [|s'] eqn:Es; [lia|].
  rewrite digitsN_ge10 by assumption.
  apply (digitsN_full s'); lia.
Qed.

Lemma digitsK_length k z : List.length (digitsK k z) = k.
Proof.
  revert z. induction k as [|k IH]; intros z; [reflexivity|].
  cbn [digitsK]. rewrite length_app, IH. cbn. lia.
Qed.

Lemma digitsK_zero k : digitsK k 0 = repeat 48%N k.
Proof.
  induction k as [|k IH]; [reflexivity|].
  cbn [digitsK]. change (0 / 10) with 0. rewrite IH.
  change [digitOf 0] with (repeat 48%N 1).
  rewrite <- repeat_app. f_equal. lia.
Qed.

(** A number below [10 ^ k] printed and padded to [k] places is its [k]
    digits. *)
Lemma padZ_digitsK k : forall z,
  (1 <= k)%nat -> 0 <= z < 10 ^ Z.of_nat k -> padZ k z = digitsK k z.
Proof.
  induction k as [|k IH]; intros z Hk Hz; [lia|].
  unfold padZ. rewrite Z_toString_nonneg by lia.
  destruct (Z_lt_le_dec z 10) as [Hs|Hb].
  - rewrite N_toString_1 by lia. unfold padStart0. cbn [List.length].
    replace (S k - 1)%nat with k by lia.
    cbn [digitsK].
    replace (digitOf z) with (48 + Z.to_N z)%N by (unfold digitOf; nlia).
    f_equal.
    replace (z / 10) with 0 by (Z.div_mod_to_equations; lia).
    symmetry. apply digitsK_zero.
  - destruct k as [|k'].
    { cbn in Hz. lia. }
    assert (Hq : 0 <= z / 10 < 10 ^ Z.of_nat (S k')).
    { rewrite Nat2Z.inj_succ, Z.pow_succ_r in Hz by lia.
      Z.div_mod_to_equations. nia. }
    specialize (IH (z / 10) ltac:(lia) Hq).
    unfold padZ in IH. rewrite Z_toString_nonneg in IH by lia.
    rewrite N_toString_unfold by lia.
    change (digitsK (S (S k')) z)
      with (digitsK (S k') (z / 10) ++ [digitOf z]).
    rewrite <- IH.
    replace (Z.to_N z / 10)%N with (Z.to_N (z / 10)) by nlia.
    unfold padStart0. rewrite length_app. cbn [List.length].
    replace (S (S k') - (List.length (N_toString (Z.to_N (z / 10))) + 1))%nat
      with (S k' - List.length (N_toString (Z.to_N (z / 10))))%nat by lia.
    rewrite <- app_assoc. do 2 f_equal. unfold digitOf. f_equal. nlia.
Qed.

(** ** The text of an instant *)

Lemma digitOf_inj a b : digitOf a = digitOf b -> a mod 10 = b mod 10.
Proof. unfold digitOf. intros H. nlia. Qed.

Lemma digitsK_inj k : forall a b,
  0 <= a < 10 ^ Z.of_nat k -> 0 <= b < 10 ^ Z.of_nat k ->
  digitsK k a = digitsK k b -> a = b.
Proof.
  induction k as [|k IH]; intros a b Ha Hb E.
  - cbn in Ha, Hb. lia.
  - rewrite Nat2Z.inj_succ, Z.pow_succ_r in Ha, Hb by lia.
    cbn [digitsK] in E. apply app_inj_tail in E as [E1 E2].
    apply digitOf_inj in E2.
    assert (E3 : a / 10 = b / 10).
    { apply IH; [| |exact E1]; Z.div_mod_to_equations; nia. }
    Z.div_mod_to_equations. lia.
Qed.

(** The calendar day of an instant is a function of its day number. *)
Lemma fields_of_day a b :
  Day a = Day b ->
  YearFromTime a = YearFromTime b /\
  MonthFromTime a = MonthFromTime b /\
  DateFromTime a = DateFromTime b.
Proof.
  intros E.
  assert (Ey : YearFromTime a = YearFromTime b)
    by (unfold YearFromTime; now rewrite E).
  assert (El : InLeapYear a = InLeapYear b)
    by (unfold InLeapYear; now rewrite Ey).
  assert (Ed : DayWithinYear a = DayWithinYear b)
    by (unfold DayWithinYear; now rewrite E, Ey).
  assert (Em : MonthFromTime a = MonthFromTime b)
    by (unfold MonthFromTime; now rewrite El, Ed).
  repeat split; try assumption.
  unfold DateFromTime. now rewrite Ed, El, Em.
Qed.

Lemma day_of_fields a b :
  YearFromTime a = YearFromTime b ->
  MonthFromTime a = MonthFromTime b ->
  DateFromTime a = DateFromTime b ->
  Day a = Day b.
Proof.
  intros Ey Em Ed.
  pose proof (MakeDay_fields a 0) as Ha. pose proof (MakeDay_fields b 0) as Hb.
  rewrite !Z.add_0_r in Ha, Hb. rewrite <- Ha, <- Hb. now rewrite Ey, Em, Ed.
Qed.

Lemma isoDay_length t : List.length (isoDay t) = 10%nat.
Proof.
  unfold isoDay. rewrite !length_app, !digitsK_length. reflexivity.
Qed.

(** For a year written with four digits the text of [toISOString] is the
    fixed-width form. *)
Lemma toISOString_plain t :
  plainYear t -> toISOString (TimeValue t) = Some (isoInstant t).
Proof.
  intros [Hy1 Hy2]. unfold toISOString, isoInstant, isoDay. cbv zeta.
  apply Z.leb_le in Hy1 as L1. apply Z.leb_le in Hy2 as L2.
  rewrite L1, L2. cbn [andb].
  pose proof (MonthFromTime_range t). pose proof (DateFromTime_range t).
  pose proof (HourFromTime_range t). pose proof (MinFromTime_range t).
  pose proof (SecFromTime_range t).
  assert (0 <= msFromTime t < 1000)
    by (unfold msFromTime, msPerSecond; apply Z.mod_pos_bound; lia).
  rewrite (padZ_digitsK 4), !(padZ_digitsK 2), (padZ_digitsK 3)
    by (try (cbn; lia); lia).
  now rewrite <- !app_assoc.
Qed.

Lemma slice_isoInstant t : slice0 10 (isoInstant t) = isoDay t.
Proof.
  unfold slice0, isoInstant.
  rewrite firstn_app, isoDay_length, Nat.sub_diag, firstn_O, app_nil_r.
  apply firstn_all2. rewrite isoDay_length. lia.
Qed.

Lemma app_same_length {A} (x1 x2 y1 y2 : list A) :
  List.length x1 = List.length y1 -> x1 ++ x2 = y1 ++ y2 -> x1 = y1 /\ x2 = y2.
Proof.
  revert y1. induction x1 as [|a x1 IH]; intros [|b y1] Hl E;
    try discriminate Hl.
  - now split.
  - cbn in E. injection E as -> E. injection Hl as Hl.
    destruct (IH y1 Hl E) as [-> ->]. now split.
Qed.

Lemma isoDay_inj a b :
  plainYear a -> plainYear b -> isoDay a = isoDay b -> Day a = Day b.
Proof.
  intros Ha Hb E. unfold plainYear in Ha, Hb.
  pose proof (MonthFromTime_range a). pose proof (DateFromTime_range a).
  pose proof (MonthFromTime_range b). pose proof (DateFromTime_range b).
  unfold isoDay in E.
  apply app_same_length in E as [Ey E]; [|now rewrite !digitsK_length].
  apply (app_same_length (js "-") _ (js "-")) in E as [_ E]; [|reflexivity].
  apply app_same_length in E as [Em E]; [|now rewrite !digitsK_length].
  apply (app_same_length (js "-") _ (js "-")) in E as [_ Ed]; [|reflexivity].
  apply digitsK_inj in Ey; [|cbn; lia|cbn; lia].
  apply digitsK_inj in Em; [|cbn; lia|cbn; lia].
  apply digitsK_inj in Ed; [|cbn; lia|cbn; lia].
  apply day_of_fields; lia.
Qed.

Lemma isoDay_of_day a b : Day a = Day b -> isoDay a = isoDay b.
Proof.
  intros E. destruct (fields_of_day a b E) as (Ey & Em & Ed).
  unfold isoDay. now rewrite Ey, Em, Ed.
Qed.

Lemma dayKeyOf_plain DateParse ev t :
  DateParse (start_ts ev) = TimeValue t -> plainYear t ->
  EventsList.dayKeyOf DateParse ev = Some (isoDay t).
Proof.
  intros Et Ht. unfold EventsList.dayKeyOf.
  rewrite Et, (toISOString_plain t Ht). cbn [option_map].
  now rewrite slice_isoInstant.
Qed.

(** Property X1. The day key of an event is the ISO form of the UTC calendar
    day of its start, and for years 0 to 9999 two events have the same key
    exactly when they start on the same UTC day. *)
Theorem dayKey_same_day DateParse ev1 ev2 a b :
  DateParse (start_ts ev1) = TimeValue a ->
  DateParse (start_ts ev2) = TimeValue b ->
  plainYear a -> plainYear b ->
  EventsList.dayKeyOf DateParse ev1 = Some (isoDay a) /\
  (EventsList.dayKeyOf DateParse ev1 = EventsList.dayKeyOf DateParse ev2 <->
   Day a = Day b).
Proof.
  intros Ea Eb Ha Hb.
  rewrite (dayKeyOf_plain DateParse ev1 a Ea Ha),
    (dayKeyOf_plain DateParse ev2 b Eb Hb).
  split; [reflexivity|]. split.
  - intros E. apply isoDay_inj; congruence.
  - intros E. f_equal. now apply isoDay_of_day.
Qed.

Lemma dayKey_same_day_witness :
  EventsList.dayKeyOf parseIsoUtc morningEvent = Some (isoDay 1735725600000) /\
  (EventsList.dayKeyOf parseIsoUtc morningEvent =
   EventsList.dayKeyOf parseIsoUtc nextDayEvent <->
   Day 1735725600000 = Day 1735808400000).
Proof.
  apply (dayKey_same_day parseIsoUtc morningEvent nextDayEvent);
    [ vm_compute; reflexivity | vm_compute; reflexivity
    | vm_compute; split; discriminate | vm_compute; split; discriminate ].
Defined.

(** ** Years written with a sign *)

Lemma YearFromTime_bound t :
  Z.abs t <= maxTime -> Z.abs (YearFromTime t) < 10 ^ 6.
Proof.
  intros H. unfold maxTime in H.
  assert (Hd : -100000000 <= Day t <= 100000000)
    by (unfold Day, msPerDay; Z.div_mod_to_equations; lia).
  unfold YearFromTime. generalize dependent (Day t). intros d Hd.
  unfold YearFromDay. cbv zeta.
  change (10 ^ 6) with 1000000.
  destruct (_ <=? d); [|destruct (_ <=? d)]; Z.div_mod_to_equations; lia.
Qed.

Lemma toISOString_signed t :
  Z.abs t <= maxTime -> ~ plainYear t ->
  option_map (slice0 10) (toISOString (TimeValue t)) = Some (signedMonth t).
Proof.
  intros Ht Hy. unfold toISOString, signedMonth. cbv zeta.
  pose proof (YearFromTime_bound t Ht) as Hb.
  pose proof (MonthFromTime_range t) as Hm.
  destruct ((0 <=? YearFromTime t) && (YearFromTime t <=? 9999)) eqn:E.
  { exfalso. apply Hy. apply andb_true_iff in E as [E1 E2]. split; lia. }
  cbn [option_map]. f_equal.
  rewrite (padZ_digitsK 6), (padZ_digitsK 2 (MonthFromTime t + 1))
    by (try (cbn; lia); lia).
  unfold slice0. rewrite <- app_comm_cons.
  change (firstn 10) with (firstn (A:=N) (S 9)). rewrite firstn_cons. f_equal.
Qed.

(** Property X2. For a year outside 0 to 9999 the ISO text opens with a sign
    and six digits, so the first ten code units end with the month: two such
    events have the same day key exactly when they start in the same UTC
    month, whatever their days. *)
Theorem dayKey_signed_year DateParse ev1 ev2 a b :
  DateParse (start_ts ev1) = TimeValue a ->
  DateParse (start_ts ev2) = TimeValue b ->
  Z.abs a <= maxTime -> Z.abs b <= maxTime ->
  ~ plainYear a -> ~ plainYear b ->
  EventsList.dayKeyOf DateParse ev1 = Some (signedMonth a) /\
  (EventsList.dayKeyOf DateParse ev1 = EventsList.dayKeyOf DateParse ev2 <->
   YearFromTime a = YearFromTime b /\ MonthFromTime a = MonthFromTime b).
Proof.
  intros Ea Eb Ha Hb Ya Yb. unfold EventsList.dayKeyOf. rewrite Ea, Eb.
  rewrite (toISOString_signed a Ha Ya), (toISOString_signed b Hb Yb).
  split; [reflexivity|]. split.
  - intros E. assert (E' : signedMonth a = signedMonth b) by congruence.
    clear E. unfold signedMonth in E'.
    pose proof (YearFromTime_bound a Ha). pose proof (YearFromTime_bound b Hb).
    pose proof (MonthFromTime_range a). pose proof (MonthFromTime_range b).
    apply (app_same_length [_] _ [_]) in E' as [Es E']; [|reflexivity].
    apply app_same_length in E' as [Ey E']; [|now rewrite !digitsK_length].
    apply (app_same_length (js "-") _ (js "-")) in E' as [_ Em]; [|reflexivity].
    apply digitsK_inj in Ey; [|lia|lia].
    apply digitsK_inj in Em; [|cbn; lia|cbn; lia].
    split; [|lia].
    destruct (Z.ltb_spec (YearFromTime a) 0), (Z.ltb_spec (YearFromTime b) 0);
      try discriminate Es; lia.
  - intros [Ey Em]. unfold signedMonth. now rewrite Ey, Em.
Qed.

Lemma dayKey_signed_year_witness :
  EventsList.dayKeyOf parseYear12000 reunionEvent = Some (js "+012000-03") /\
  EventsList.dayKeyOf parseYear12000 reunionEvent =
  EventsList.dayKeyOf parseYear12000 jubileeEvent.
Proof.
  assert (Ea : parseYear12000 (start_ts reunionEvent) = TimeValue 316521424800000)
    by (vm_compute; reflexivity).
  assert (Eb : parseYear12000 (start_ts jubileeEvent) = TimeValue 316523066400000)
    by (vm_compute; reflexivity).
  destruct (dayKey_signed_year parseYear12000 reunionEvent jubileeEvent _ _ Ea Eb)
    as [K I].
  - vm_compute. discriminate.
  - vm_compute. discriminate.
  - intros [_ H]. vm_compute in H. apply H. reflexivity.
  - intros [_ H]. vm_compute in H. apply H. reflexivity.
  - split; [rewrite K; vm_compute; reflexivity|].
    apply I. split; vm_compute; reflexivity.
Defined.

(** ** What a calendar stamp tells about the instant *)

Lemma twoDigits_inj m n :
  0 <= m <= 99 -> 0 <= n <= 99 -> twoDigits m = twoDigits n -> m = n.
Proof.
  intros Hm Hn E. unfold twoDigits in E. injection E as E1 E2.
  apply digitOf_inj in E1, E2. Z.div_mod_to_equations. lia.
Qed.

Lemma fourDigits_inj m n :
  0 <= m <= 9999 -> 0 <= n <= 9999 -> fourDigits m = fourDigits n -> m = n.
Proof.
  intros Hm Hn E. unfold fourDigits in E. injection E as E1 E2 E3 E4.
  apply digitOf_inj in E1, E2, E3, E4. Z.div_mod_to_equations. lia.
Qed.

(** The fields of the stamp are functions of the whole seconds. *)
Lemma fields_of_second a b :
  a / 1000 = b / 1000 ->
  Day a = Day b /\ HourFromTime a = HourFromTime b /\
  MinFromTime a = MinFromTime b /\ SecFromTime a = SecFromTime b.
Proof.
  intros E.
  assert (D : forall k, 0 < k -> a / (1000 * k) = b / (1000 * k)).
  { intros k Hk. rewrite <- !Z.div_div by lia. now rewrite E. }
  unfold Day, HourFromTime, MinFromTime, SecFromTime,
    msPerDay, msPerHour, msPerMinute, msPerSecond.
  change 86400000 with (1000 * 86400). change 3600000 with (1000 * 3600).
  change 60000 with (1000 * 60).
  rewrite !D by lia. now rewrite E.
Qed.

Lemma second_of_fields a b :
  Day a = Day b -> HourFromTime a = HourFromTime b ->
  MinFromTime a = MinFromTime b -> SecFromTime a = SecFromTime b ->
  a / 1000 = b / 1000.
Proof.
  unfold Day, HourFromTime, MinFromTime, SecFromTime,
    msPerDay, msPerHour, msPerMinute, msPerSecond.
  intros. Z.div_mod_to_equations. lia.
Qed.

Lemma compactUTC_inj a b :
  fourDigitYear a -> fourDigitYear b ->
  compactUTC a = compactUTC b -> a / 1000 = b / 1000.
Proof.
  intros Ha Hb E. unfold fourDigitYear in Ha, Hb.
  pose proof (MonthFromTime_range a). pose proof (DateFromTime_range a).
  pose proof (HourFromTime_range a). pose proof (MinFromTime_range a).
  pose proof (SecFromTime_range a).
  pose proof (MonthFromTime_range b). pose proof (DateFromTime_range b).
  pose proof (HourFromTime_range b). pose proof (MinFromTime_range b).
  pose proof (SecFromTime_range b).
  unfold compactUTC in E.
  apply app_same_length in E as [Ey E]; [|reflexivity].
  apply app_same_length in E as [Em E]; [|reflexivity].
  apply app_same_length in E as [Ed E]; [|reflexivity].
  apply (app_same_length (js "T") _ (js "T")) in E as [_ E]; [|reflexivity].
  apply app_same_length in E as [Eh E]; [|reflexivity].
  apply app_same_length in E as [Ei E]; [|reflexivity].
  apply app_same_length in E as [Es _]; [|reflexivity].
  apply fourDigits_inj in Ey; [|lia|lia].
  apply twoDigits_inj in Em; [|lia|lia].
  apply twoDigits_inj in Ed; [|lia|lia].
  apply twoDigits_inj in Eh; [|lia|lia].
  apply twoDigits_inj in Ei; [|lia|lia].
  apply twoDigits_inj in Es; [|lia|lia].
  apply second_of_fields; try assumption.
  apply day_of_fields; lia.
Qed.

(** Property X3. The stamp [YYYYMMDDTHHMMSSZ] identifies the instant to the
    second: for years 1000 to 9999 two dates get the same stamp exactly when
    they lie in the same second; the milliseconds are dropped. *)
Theorem toIcsUtc_to_the_second a b :
  fourDigitYear a -> fourDigitYear b ->
  (IcsRoute.toIcsUtc (TimeValue a) = IcsRoute.toIcsUtc (TimeValue b) <->
   a / 1000 = b / 1000).
Proof.
  intros Ha Hb. rewrite (toIcsUtc_compact a Ha), (toIcsUtc_compact b Hb).
  split; [now apply compactUTC_inj|].
  intros E. destruct (fields_of_second a b E) as (Ed & Eh & Em & Es).
  destruct (fields_of_day a b Ed) as (Ey & Emo & Eda).
  unfold compactUTC. now rewrite Ey, Emo, Eda, Eh, Em, Es.
Qed.

Lemma toIcsUtc_to_the_second_witness :
  IcsRoute.toIcsUtc (TimeValue 1735725600000) =
  IcsRoute.toIcsUtc (TimeValue 1735725600999) <->
  1735725600000 / 1000 = 1735725600999 / 1000.
Proof.
  apply (toIcsUtc_to_the_second 1735725600000 1735725600999);
    vm_compute; split; discriminate.
Defined.

(** ** A start that is no date *)

Lemma groupStep_thrown DateParse events :
  fold_left (EventsList.groupStep DateParse) events None = None.
Proof. induction events as [|ev events IH]; [reflexivity | exact IH]. Qed.

Lemma dayKeyOf_invalid DateParse ev :
  EventsList.dayKeyOf DateParse ev = None <->
  DateParse (start_ts ev) = InvalidDate.
Proof.
  unfold EventsList.dayKeyOf.
  destruct (DateParse (start_ts ev)) as [|t]; cbn; split; congruence.
Qed.

Lemma groupStep_loop DateParse events : forall done m,
  groupedBy DateParse done m ->
  (fold_left (EventsList.groupStep DateParse) events (Some m) = None <->
   Exists (fun ev => DateParse (start_ts ev) = InvalidDate) events).
Proof.
  induction events as [|ev events IH]; intros done m Hg.
  - cbn. split; [discriminate | intros H; inversion H].
  - cbn [fold_left].
    destruct (DateParse (start_ts ev)) as [|t] eqn:Et.
    + assert (E : EventsList.groupStep DateParse (Some m) ev = None).
      { unfold EventsList.groupStep.
        now rewrite (proj2 (dayKeyOf_invalid DateParse ev) Et). }
      rewrite E, groupStep_thrown. split; [|reflexivity].
      intros _. now left.
    + destruct (grouped_step DateParse done m ev t Hg Et) as (m' & E & Hg').
      rewrite E, (IH _ _ Hg'). split.
      * intros H. now right.
      * intros H. inversion H as [? ? H0|? ? H0]; subst; [congruence | exact H0].
Qed.

(** Property X4. The grouping of the list view throws exactly when some
    event has a start that does not parse to a date: one such event is
    enough to lose the whole list, wherever it stands. *)
Theorem groups_throw DateParse localeCompare events :
  EventsList.groups DateParse localeCompare events = None <->
  Exists (fun ev => DateParse (start_ts ev) = InvalidDate) events.
Proof.
  unfold EventsList.groups.
  pose proof (groupStep_loop DateParse events [] [] (grouped_nil DateParse)) as H.
  match goal with
  | |- option_map _ ?x = None <-> ?P =>
      assert (Hx : x = None <-> P) by exact H; clear H; destruct x as [m|]
  end; cbn [option_map].
  - split; intros E; [discriminate E|]. apply Hx in E. discriminate E.
  - split; [|reflexivity]. intros _. now apply Hx.
Qed.

(** ** The week grid *)

Lemma dayIndex_value zone t :
  EventsList.dayIndex zone (TimeValue t) = Int (mondayIndex (LocalTime zone t)).
Proof. reflexivity. Qed.

(** Property X5. The column index of a date counts the days of the local
    week from Monday: it lies between 0 and 6, Monday is 0 and Sunday is 6;
    on an invalid date it is NaN. *)
Theorem dayIndex_monday_first zone :
  EventsList.dayIndex zone InvalidDate = NaN /\
  (forall t, exists i,
     EventsList.dayIndex zone (TimeValue t) = Int i /\
     0 <= i <= 6 /\
     i = (WeekDay (LocalTime zone t) + 6) mod 7).
Proof.
  split; [reflexivity|]. intros t.
  exists (mondayIndex (LocalTime zone t)).
  split; [reflexivity|]. split; [apply mondayIndex_range|].
  unfold mondayIndex, WeekDay, EventsList.WEEK_START.
  Z.to_euclidean_division_equations. lia.
Qed.

Lemma minutesSinceMidnight_value zone t :
  EventsList.minutesSinceMidnight zone (TimeValue t) = Int (localMinute zone t).
Proof.
  unfold EventsList.minutesSinceMidnight, localMinute.
  cbn [getHours getMinutes onTime num_mul num_plus]. f_equal.
  unfold HourFromTime, MinFromTime, TimeWithinDay,
    msPerHour, msPerMinute, msPerDay.
  Z.div_mod_to_equations. lia.
Qed.

Lemma localMinute_range zone t : 0 <= localMinute zone t < 1440.
Proof.
  unfold localMinute, TimeWithinDay, msPerMinute, msPerDay.
  Z.div_mod_to_equations. lia.
Qed.

(** Property X6. Hours times sixty plus minutes is the number of whole
    minutes the local clock has run since midnight, from 0 to 1439; on an
    invalid date it is NaN. *)
Theorem minutesSinceMidnight_local zone :
  EventsList.minutesSinceMidnight zone InvalidDate = NaN /\
  (forall t,
     EventsList.minutesSinceMidnight zone (TimeValue t) =
     Int (TimeWithinDay (LocalTime zone t) / msPerMinute) /\
     0 <= TimeWithinDay (LocalTime zone t) / msPerMinute < 1440).
Proof.
  split; [reflexivity|]. intros t. split.
  - apply minutesSinceMidnight_value.
  - apply localMinute_range.
Qed.

(** Property X7. The clamp of the grid is one-sided at each end: the offset
    of the top edge is the minutes from 08:00 to the start, 0 for an earlier
    start, and it stays within the twelve hours of the grid only for a start
    up to 20:00; the offset of the bottom edge is the minutes from 08:00 to
    the end, 720 for a later end, and it is negative for an end before
    08:00. The bottom never lies more than the height of the grid below the
    top. *)
Theorem grid_clamp zone s e :
  let ms := localMinute zone s in
  let me := localMinute zone e in
  exists a b,
    WeekView.sMin zone (TimeValue s) = Int a /\
    WeekView.eMin zone (TimeValue e) = Int b /\
    a = Z.max 0 (ms - 480) /\ b = Z.min 720 (me - 480) /\
    0 <= a < 960 /\ -480 <= b <= 720 /\
    (a <= WeekView.minutesSpan <-> ms <= 1200) /\
    (b < 0 <-> me < 480) /\
    b - a <= WeekView.minutesSpan.
Proof.
  cbv zeta. unfold WeekView.sMin, WeekView.eMin.
  rewrite !minutesSinceMidnight_value.
  pose proof (localMinute_range zone s). pose proof (localMinute_range zone e).
  cbn [num_max num_min num_add].
  unfold WeekView.minutesSpan, WeekView.dayHoursStart, WeekView.dayHoursEnd.
  eexists. eexists. split; [reflexivity|]. split; [reflexivity|]. lia.
Qed.

(** ** Columns *)

Section Classes.

Variable A : Type.
Variable f : A -> Z.

Lemma concat_filter_cons x l cols :
  NoDup cols ->
  (In (f x) cols ->
   Permutation
     (List.concat (map (fun c => filter (fun y => f y =? c) (x :: l)) cols))
     (x :: List.concat (map (fun c => filter (fun y => f y =? c) l) cols))) /\
  (~ In (f x) cols ->
   List.concat (map (fun c => filter (fun y => f y =? c) (x :: l)) cols) =
   List.concat (map (fun c => filter (fun y => f y =? c) l) cols)).
Proof.
  induction cols as [|c cs IH]; intros Hnd.
  - split; [intros [] | reflexivity].
  - inversion Hnd as [|? ? Hc Hcs]; subst.
    destruct (IH Hcs) as [IHin IHout].
    cbn [map List.concat].
    change (filter (fun y => f y =? c) (x :: l))
      with (if f x =? c then x :: filter (fun y => f y =? c) l
            else filter (fun y => f y =? c) l).
    destruct (Z.eqb_spec (f x) c) as [E|E].
    + split.
      * intros _. rewrite IHout by congruence. reflexivity.
      * intros H. exfalso. apply H. now left.
    + split.
      * intros [H|H]; [congruence|].
        rewrite (IHin H). symmetry. apply Permutation_middle.
      * intros H. f_equal. apply IHout. intros H'. apply H. now right.
Qed.

(** Filtering a list by each class of a list of distinct classes, one
    class after the other, rearranges the list when every element falls
    in one of the classes. *)
Lemma concat_filter_classes cols l :
  NoDup cols -> (forall x, In x l -> In (f x) cols) ->
  Permutation (List.concat (map (fun c => filter (fun y => f y =? c) l) cols)) l.
Proof.
  intros Hnd. induction l as [|x l IH]; intros Hin.
  - cbn [filter]. clear. induction cols as [|c cs IH]; [constructor | exact IH].
  - destruct (concat_filter_cons x l cols Hnd) as [H _].
    rewrite H by (apply Hin; now left).
    constructor. apply IH. intros y Hy. apply Hin. now right.
Qed.

End Classes.

Lemma sevenColumns_NoDup : NoDup [0; 1; 2; 3; 4; 5; 6].
Proof.
  repeat (constructor; [cbn; lia|]). constructor.
Qed.

(** Property X8. Every event of the displayed week is drawn in exactly one
    of the seven columns: the columns, one after the other, hold the events
    of the week, each once. *)
Theorem week_columns_partition zone DateParse now1 now2 events :
  let shown := EventsList.weekEvents zone DateParse now1 now2 events in
  Permutation (List.concat (WeekView.columns zone DateParse shown)) shown.
Proof.
  cbv zeta. set (shown := EventsList.weekEvents zone DateParse now1 now2 events).
  set (f := fun ev : EventRow =>
              match EventsList.dayIndex zone (DateParse (start_ts ev)) with
              | Int i => i
              | NaN => -1
              end).
  unfold WeekView.columns.
  assert (E : map (WeekView.columnEvents zone DateParse shown) [0; 1; 2; 3; 4; 5; 6] =
              map (fun c => filter (fun ev => f ev =? c) shown) [0; 1; 2; 3; 4; 5; 6]).
  { apply map_ext_in. intros c Hc. unfold WeekView.columnEvents.
    apply filter_ext. intros ev. unfold f.
    destruct (EventsList.dayIndex zone (DateParse (start_ts ev))) as [|i];
      [|reflexivity].
    cbn [num_eqb]. symmetry. apply Z.eqb_neq. cbn in Hc. lia. }
  rewrite E. apply concat_filter_classes; [exact sevenColumns_NoDup|].
  intros ev Hev. apply weekEvents_In in Hev as (_ & s & _ & _ & Es & _).
  unfold f. rewrite Es, dayIndex_value.
  pose proof (mondayIndex_range (LocalTime zone s)). cbn. lia.
Qed.

(** ** Local days *)

Lemma fixedZone_forward c : ForwardZone (fixedZone c).
Proof. intros x y H. unfold LocalTime, fixedZone. cbn. lia. Qed.

Lemma easternSpring2025_forward : ForwardZone easternSpring2025.
Proof.
  intros x y H. unfold LocalTime, easternSpring2025. cbn.
  destruct (Z.ltb_spec x 1741503600000), (Z.ltb_spec y 1741503600000); lia.
Qed.

Section Forward.

Variable zone : TimeZone.
Hypothesis regular : RegularZone zone.
Hypothesis forward : ForwardZone zone.

Lemma forward_le x y : LocalTime zone x <= LocalTime zone y -> x <= y.
Proof.
  intros H. destruct (Z_le_gt_dec x y) as [L|G]; [exact L|].
  pose proof (forward y x ltac:(lia)). lia.
Qed.

Lemma forward_lt x y : LocalTime zone x < LocalTime zone y -> x < y.
Proof.
  intros H. destruct (Z_lt_le_dec x y) as [L|G]; [exact L|].
  destruct (Z.eq_dec x y) as [->|N]; [lia|].
  pose proof (forward y x ltac:(lia)). lia.
Qed.

(** [setHours(0, 0, 0, 0)] moves a date to the midnight of its local day. *)
Lemma setHours_midnight tv b :
  setHours zone (TimeValue tv) 0 0 0 0 = TimeValue b ->
  LocalTime zone b = Day (LocalTime zone tv) * msPerDay /\ b <= tv.
Proof.
  unfold setHours. intros H.
  replace (MakeDate (Day (LocalTime zone tv)) (MakeTime 0 0 0 0))
    with (Day (LocalTime zone tv) * msPerDay) in H
    by (unfold MakeDate, MakeTime; lia).
  apply TimeClip_inv in H as [H _].
  assert (L : LocalTime zone b = Day (LocalTime zone tv) * msPerDay).
  { rewrite <- H. apply (proj1 regular), midnight_of_day. }
  split; [exact L|]. apply forward_le. rewrite L.
  unfold Day, msPerDay. Z.div_mod_to_equations. lia.
Qed.

(** A local midnight moved by [k] days with [setDate]. *)
Lemma setDate_midnight b m k e :
  LocalTime zone b = m -> m mod msPerDay = 0 ->
  setDate zone (TimeValue b) (Int (DateFromTime (LocalTime zone b) + k)) =
  TimeValue e ->
  LocalTime zone e = m + k * msPerDay.
Proof.
  intros Hl Hm H. rewrite setDate_shift, Hl in H.
  apply TimeClip_inv in H as [H _]. rewrite <- H.
  apply (proj1 regular). unfold msPerDay in *. Z.div_mod_to_equations. lia.
Qed.

End Forward.

(** A clock reading that falls in a week has the start of that week. *)
Lemma startOfWeek_same_week zone d ws we t2 :
  RegularZone zone -> ForwardZone zone ->
  EventsList.startOfWeek zone d = TimeValue ws ->
  EventsList.endOfWeek zone d = TimeValue we ->
  ws <= t2 < we ->
  EventsList.startOfWeek zone (TimeValue t2) = TimeValue ws.
Proof.
  intros Hreg Hfwd Hws Hwe Hin.
  destruct (startOfWeek_monday zone Hreg d ws Hws)
    as (m & Hmid & Hmon & Hutc & Hloc & Habs).
  destruct (endOfWeek_monday zone Hreg d ws we Hws Hwe) as (_ & Hend & _).
  assert (Hweabs : Z.abs we <= maxTime).
  { unfold EventsList.endOfWeek in Hwe. now apply setDate_inv in Hwe. }
  set (t := LocalTime zone t2).
  assert (L1 : m <= t).
  { unfold t. rewrite <- Hloc. destruct (Z.eq_dec ws t2) as [->|N]; [lia|].
    pose proof (Hfwd ws t2 ltac:(lia)). lia. }
  assert (L2 : t < m + 7 * msPerDay).
  { unfold t. rewrite <- Hloc, <- Hend. apply Hfwd. lia. }
  assert (Hidx : (Day t - mondayIndex t) * msPerDay = m).
  { unfold mondayIndex, EventsList.WEEK_START.
    unfold WeekDay in *. unfold Day, msPerDay in *.
    Z.to_euclidean_division_equations. lia. }
  pose proof (mondayIndex_range t) as Hrange.
  set (u := UTC zone (Day t * msPerDay)).
  assert (Hu : LocalTime zone u = Day t * msPerDay)
    by (apply (proj1 Hreg), midnight_of_day).
  assert (Hu1 : ws <= u).
  { apply (forward_le zone Hfwd). rewrite Hloc, Hu. unfold msPerDay in *. lia. }
  assert (Hu2 : u <= t2).
  { apply (forward_le zone Hfwd). rewrite Hu. fold t.
    unfold Day, msPerDay. Z.div_mod_to_equations. lia. }
  unfold EventsList.startOfWeek. cbn [DateCopy].
  rewrite (TimeClip_valid t2) by lia.
  cbn [getDay onTime num_add num_rem]. fold t. fold (mondayIndex t).
  unfold setHours. fold t.
  replace (MakeDate (Day t) (MakeTime 0 0 0 0)) with (Day t * msPerDay)
    by (unfold MakeDate, MakeTime; lia).
  fold u. rewrite (TimeClip_valid u) by lia.
  cbn [getDate onTime num_sub].
  replace (DateFromTime (LocalTime zone u) - mondayIndex t)
    with (DateFromTime (LocalTime zone u) + - mondayIndex t) by lia.
  rewrite setDate_shift, Hu.
  replace (Day t * msPerDay + - mondayIndex t * msPerDay) with m by lia.
  rewrite Hutc. now apply TimeClip_valid.
Qed.

(** Property X9. The week view reads the clock twice, once for the start
    and once for the end of the week. In a zone in which every local
    midnight exists and the clock is never set back, and when the second
    reading falls in the week of the first, an event of the displayed week
    is drawn in the column that counts the local days from the start of
    the week to the day of the event, and the header of that column, the
    start of the week moved by as many days, is the midnight of the
    event's local day. *)
Theorem week_column_of_event zone DateParse now1 now2 events ev ws we s :
  RegularZone zone -> ForwardZone zone ->
  EventsList.startOfWeek zone now1 = TimeValue ws ->
  EventsList.endOfWeek zone now1 = TimeValue we ->
  ws <= now2 < we ->
  In ev (EventsList.weekEvents zone DateParse now1 (TimeValue now2) events) ->
  DateParse (start_ts ev) = TimeValue s ->
  EventsList.endOfWeek zone (TimeValue now2) = TimeValue we /\
  exists i h,
    0 <= i <= 6 /\
    i = Day (LocalTime zone s) - Day (LocalTime zone ws) /\
    In ev (WeekView.columnEvents zone DateParse
             (EventsList.weekEvents zone DateParse now1 (TimeValue now2) events)
             i) /\
    WeekView.headerDate zone (TimeValue ws) i = TimeValue h /\
    LocalTime zone h = Day (LocalTime zone s) * msPerDay.
Proof.
  intros Hreg Hfwd Hws Hwe Hnow2 Hin Hs.
  pose proof (startOfWeek_same_week zone now1 ws we now2 Hreg Hfwd Hws Hwe Hnow2)
    as Hws2.
  assert (Hwe2 : EventsList.endOfWeek zone (TimeValue now2) = TimeValue we).
  { rewrite <- Hwe. unfold EventsList.endOfWeek. now rewrite Hws2, Hws. }
  split; [exact Hwe2|].
  pose proof Hin as Hin'.
  apply weekEvents_In in Hin' as (_ & s' & ws' & we' & Es & Ews & Ewe & Hle).
  rewrite Hs in Es. injection Es as <-.
  rewrite Hws in Ews. injection Ews as <-.
  rewrite Hwe2 in Ewe. injection Ewe as <-.
  destruct (startOfWeek_monday zone Hreg now1 ws Hws)
    as (m & Hmid & Hmon & Hutc & Hloc & Habs).
  destruct (endOfWeek_monday zone Hreg now1 ws we Hws Hwe) as (_ & Hend & _).
  assert (Hweabs : Z.abs we <= maxTime).
  { unfold EventsList.endOfWeek in Hwe. now apply setDate_inv in Hwe. }
  (* the local time of the event lies in the local week *)
  assert (L1 : m <= LocalTime zone s).
  { rewrite <- Hloc. destruct (Z.eq_dec ws s) as [->|N]; [lia|].
    pose proof (Hfwd ws s ltac:(lia)). lia. }
  assert (L2 : LocalTime zone s < m + 7 * msPerDay).
  { rewrite <- Hloc, <- Hend. apply Hfwd. lia. }
  set (i := Day (LocalTime zone s) - Day (LocalTime zone ws)).
  assert (Hi : 0 <= i <= 6).
  { unfold i. rewrite Hloc. unfold Day, msPerDay in *.
    Z.div_mod_to_equations. lia. }
  assert (Hidx : mondayIndex (LocalTime zone s) = i).
  { unfold i. rewrite Hloc. unfold mondayIndex, EventsList.WEEK_START.
    unfold WeekDay in *. unfold Day, msPerDay in *.
    Z.to_euclidean_division_equations. lia. }
  set (h := UTC zone (m + i * msPerDay)).
  assert (Hmid' : (m + i * msPerDay) mod msPerDay = 0).
  { unfold msPerDay in *. Z.div_mod_to_equations. lia. }
  assert (Hh : LocalTime zone h = m + i * msPerDay)
    by (apply (proj1 Hreg), Hmid').
  assert (Hlo : ws <= h).
  { apply (forward_le zone Hfwd). rewrite Hloc, Hh. unfold msPerDay. lia. }
  assert (Hhi : h <= we).
  { apply (forward_le zone Hfwd). rewrite Hend, Hloc, Hh. unfold msPerDay. lia. }
  exists i, h. split; [exact Hi|]. split; [reflexivity|]. split; [|split].
  - unfold WeekView.columnEvents. apply filter_In. split; [exact Hin|].
    rewrite Hs, dayIndex_value, Hidx. cbn [num_eqb]. apply Z.eqb_refl.
  - unfold WeekView.headerDate. cbv zeta. cbn [DateCopy].
    rewrite (TimeClip_valid ws Habs). cbn [getDate onTime num_add].
    rewrite setDate_shift, Hloc. fold h. apply TimeClip_valid. lia.
  - rewrite Hh. unfold i. rewrite Hloc.
    rewrite <- (Day_midnight m Hmid) at 1. lia.
Qed.

(** In the zone with the clock change, with two readings a millisecond
    apart, the event of Sunday 9 March 2025, 08:00 local time, is drawn in
    the last column of its week. *)
Lemma week_column_of_event_witness :
  EventsList.endOfWeek easternSpring2025 (TimeValue 1741176000001) =
  TimeValue 1741579200000 /\
  exists i h,
    0 <= i <= 6 /\
    i = Day (LocalTime easternSpring2025 1741521600000) -
        Day (LocalTime easternSpring2025 1740978000000) /\
    In sundayEvent
       (WeekView.columnEvents easternSpring2025 parseIsoUtc
          (EventsList.weekEvents easternSpring2025 parseIsoUtc
             (DateUTC 2025 2 5 12 0 0) (TimeValue 1741176000001)
             [welcomeBBQ; sundayEvent]) i) /\
    WeekView.headerDate easternSpring2025 (TimeValue 1740978000000) i =
    TimeValue h /\
    LocalTime easternSpring2025 h =
    Day (LocalTime easternSpring2025 1741521600000) * msPerDay.
Proof.
  apply (week_column_of_event easternSpring2025 parseIsoUtc
           (DateUTC 2025 2 5 12 0 0) 1741176000001
           [welcomeBBQ; sundayEvent] sundayEvent
           1740978000000 1741579200000 1741521600000
           easternSpring2025_regular easternSpring2025_forward).
  - reflexivity.
  - reflexivity.
  - lia.
  - vm_compute. left. reflexivity.
  - vm_compute. reflexivity.
Defined.

(** Why the second reading has to fall in the week of the first: with a
    reading just before the midnight that starts Monday 6 January 2025 and
    one at that midnight, in a zone on UTC, the week runs from 30 December
    to 13 January, and the event of Wednesday 8 January is drawn in the
    column whose header is Wednesday 1 January. *)
Lemma week_column_readings_apart :
  let now1 := TimeValue 1736121599999 in
  let now2 := TimeValue 1736121600000 in
  let shown := EventsList.weekEvents (fixedZone 0) parseIsoUtc now1 now2
                 [secondWeekEvent] in
  shown = [secondWeekEvent] /\
  WeekView.columnEvents (fixedZone 0) parseIsoUtc shown 2 = [secondWeekEvent] /\
  WeekView.headerDate (fixedZone 0) (EventsList.startOfWeek (fixedZone 0) now1) 2 =
  DateUTC 2025 0 1 0 0 0.
Proof. cbv zeta. repeat split; vm_compute; reflexivity. Qed.

(** ** The day shown by the kiosk *)

(** Property X10. In a zone in which every local midnight exists and the
    clock is never set back, the kiosk asks for the events from the midnight
    that starts the local day of the clock reading up to the midnight that
    ends it: the reading lies in that window, and the window ends one local
    day after it starts. *)
Theorem kiosk_today zone now a b :
  RegularZone zone -> ForwardZone zone ->
  KioskPage.startOfDay zone (TimeValue now) = TimeValue a ->
  KioskPage.endOfDay zone (TimeValue now) = TimeValue b ->
  LocalTime zone a = Day (LocalTime zone now) * msPerDay /\
  LocalTime zone b = (Day (LocalTime zone now) + 1) * msPerDay /\
  a <= now < b.
Proof.
  intros Hreg Hfwd Ha Hb.
  unfold KioskPage.endOfDay in Hb. cbv zeta in Hb. rewrite Ha in Hb.
  unfold KioskPage.startOfDay in Ha. cbn [DateCopy] in Ha.
  destruct (TimeClip now) as [|now'] eqn:En; [discriminate Ha|].
  apply TimeClip_inv in En as [<- Hnow].
  destruct (setHours_midnight zone Hreg Hfwd now a Ha) as [La Hle].
  cbn [DateCopy] in Hb.
  destruct (TimeClip a) as [|a'] eqn:Ea; [discriminate Hb|].
  apply TimeClip_inv in Ea as [<- Habs].
  cbn [getDate onTime num_add] in Hb.
  pose proof (setDate_midnight zone Hreg a _ 1 b La (midnight_of_day _) Hb) as Lb.
  split; [exact La|]. split; [rewrite Lb; lia|]. split; [exact Hle|].
  apply (forward_lt zone Hfwd). rewrite Lb.
  unfold Day, msPerDay. Z.div_mod_to_equations. lia.
Qed.

(** On the day on which the clocks go forward the window is 23 hours
    long. *)
Lemma kiosk_today_witness :
  LocalTime easternSpring2025 1741496400000 =
  Day (LocalTime easternSpring2025 1741521600000) * msPerDay /\
  LocalTime easternSpring2025 1741579200000 =
  (Day (LocalTime easternSpring2025 1741521600000) + 1) * msPerDay /\
  1741496400000 <= 1741521600000 < 1741579200000.
Proof.
  apply (kiosk_today easternSpring2025 1741521600000 1741496400000 1741579200000
           easternSpring2025_regular easternSpring2025_forward);
    vm_compute; reflexivity.
Defined.

(** ** Reading an escaped text back *)

Lemma unescape_escapeChar c rest :
  unescapeIcsText (escapeChar c ++ rest) = c :: unescapeIcsText rest.
Proof.
  unfold escapeChar.
  destruct (N.eqb_spec c IcsRoute.BACKSLASH) as [->|H1]; [reflexivity|].
  destruct (N.eqb_spec c IcsRoute.SEMICOLON) as [->|H2]; [reflexivity|].
  destruct (N.eqb_spec c IcsRoute.COMMA) as [->|H3]; [reflexivity|].
  destruct (N.eqb_spec c LF) as [->|H4]; [reflexivity|].
  cbn [app unescapeIcsText].
  apply N.eqb_neq in H1. now rewrite H1.
Qed.

(** Property X11. Escaping loses nothing: reading the escaped text back
    gives the text, so two texts with the same escaped form are the same
    text. *)
Theorem escapeIcsText_roundtrip :
  (forall s, unescapeIcsText (IcsRoute.escapeIcsText s) = s) /\
  (forall a b, IcsRoute.escapeIcsText a = IcsRoute.escapeIcsText b -> a = b).
Proof.
  assert (R : forall s, unescapeIcsText (IcsRoute.escapeIcsText s) = s).
  { intros s. rewrite escapeIcsText_onepass.
    induction s as [|c s IH]; [reflexivity|].
    cbn [flat_map]. now rewrite unescape_escapeChar, IH. }
  split; [exact R|].
  intros a b E. rewrite <- (R a), <- (R b). now rewrite E.
Qed.

(** ** A start that is no date, in the calendar file *)

Lemma toIcsUtc_invalid :
  IcsRoute.toIcsUtc InvalidDate = js "NaNNaNNaNTNaNNaNNaNZ".
Proof. reflexivity. Qed.

(** Property X12. The endpoint does not check the dates of the event it
    serves: when the start text of the event is no date, the answer is still
    200 and the start line of the file reads DTSTART:NaNNaNNaNTNaNNaNNaNZ. *)
Theorem GET_unparsable_start DateParse lookup i now ev :
  i <> [] -> error (lookup i) = None -> data (lookup i) = Some ev ->
  DateParse (start_ts ev) = InvalidDate ->
  let r := IcsRoute.GET DateParse lookup (Some i) now in
  status r = 200 /\
  exists text,
    body r = TextBody text /\
    eventLine (js "DTSTART:NaNNaNNaNTNaNNaNNaNZ") text.
Proof.
  intros Hi He Hd Hs r. subst r.
  rewrite (GET_found DateParse lookup i now ev Hi He Hd).
  split; [reflexivity|]. eexists. split; [reflexivity|].
  cbn [body]. rewrite Hs.
  pose proof (ics_line_DTSTART ev InvalidDate (DateParse (end_ts ev)) now) as H.
  rewrite toIcsUtc_invalid in H. exact H.
Qed.

Lemma GET_unparsable_start_witness :
  let r := IcsRoute.GET parseIsoUtc undatedLookup (Some (js "u1")) noon in
  status r = 200 /\
  exists text,
    body r = TextBody text /\
    eventLine (js "DTSTART:NaNNaNNaNTNaNNaNNaNZ") text.
Proof.
  apply (GET_unparsable_start parseIsoUtc undatedLookup (js "u1") noon undatedEvent);
    [discriminate | reflexivity | reflexivity | reflexivity].
Defined.

(** ** The headers of the calendar file *)

Lemma filenameChar_plain c :
  IcsRoute.isFilenameChar c = true -> c <> CR /\ c <> LF /\ c <> DQUOTE.
Proof.
  unfold IcsRoute.isFilenameChar, CR, LF, DQUOTE. intros H.
  repeat split; intros ->; discriminate H.
Qed.

Lemma count_occ_absent (l : jstring) x :
  ~ In x l -> count_occ N.eq_dec l x = 0%nat.
Proof. apply count_occ_not_In. Qed.

Lemma safeTitle_plain t c :
  In c (IcsRoute.safeTitle t) -> c <> CR /\ c <> LF /\ c <> DQUOTE.
Proof.
  intros H. apply filenameChar_plain.
  assert (F : Forall (fun c => IcsRoute.isFilenameChar c = true)
                     (IcsRoute.safeTitle t))
    by (apply Forall_firstn, replaceClass_safe).
  rewrite Forall_forall in F. now apply F.
Qed.

(** Property X13. Whatever the title of the event, no header of an answer
    holds a carriage return or a line feed, and the attachment header holds
    exactly the two double quotes that enclose the file name: a title cannot
    end the quoted name or start a header of its own. *)
Theorem GET_headers_safe DateParse lookup id now k v :
  In (k, v) (headers (IcsRoute.GET DateParse lookup id now)) ->
  ~ In CR v /\ ~ In LF v /\
  (k = js "Content-Disposition" -> count_occ N.eq_dec v DQUOTE = 2%nat).
Proof.
  unfold IcsRoute.GET.
  destruct id as [[|c i]|]; [intros [] | | intros []].
  destruct (error (lookup (c :: i))); [intros []|].
  destruct (data (lookup (c :: i))) as [ev|]; [|intros []].
  cbn [headers]. intros [H|[H|[]]]; apply pair_equal_spec in H as [<- <-].
  - split; [|split]; [vm_compute; intuition discriminate
                     | vm_compute; intuition discriminate
                     | intros E; vm_compute in E; discriminate E].
  - assert (P : forall x, x = CR \/ x = LF ->
                ~ In x (js "attachment; filename=" ++ [DQUOTE] ++ js "event-" ++
                        IcsRoute.safeTitle (title ev) ++ js ".ics" ++ [DQUOTE])).
    { intros x Hx Hin.
      rewrite !in_app_iff in Hin.
      destruct Hin as [Hin|[Hin|[Hin|[Hin|[Hin|Hin]]]]];
        try (apply safeTitle_plain in Hin; unfold CR, LF in *;
             destruct Hx; subst x; tauto);
        destruct Hx; subst x; vm_compute in Hin; intuition discriminate. }
    split; [apply P; now left|]. split; [apply P; now right|].
    intros _. rewrite !count_occ_app.
    rewrite (count_occ_absent (IcsRoute.safeTitle (title ev)) DQUOTE)
      by (intros Hin; apply safeTitle_plain in Hin; tauto).
    reflexivity.
Qed.

Lemma GET_headers_safe_witness :
  let v := js "attachment; filename=" ++ [DQUOTE] ++ js "event-Welcome_BBQ.ics" ++
           [DQUOTE] in
  ~ In CR v /\ ~ In LF v /\
  (js "Content-Disposition" = js "Content-Disposition" ->
   count_occ N.eq_dec v DQUOTE = 2%nat).
Proof.
  apply (GET_headers_safe parseIsoUtc demoLookup (Some (js "e1")) noon
           (js "Content-Disposition")).
  vm_compute. right. left. reflexivity.
Defined.

(** ** The admin form *)

Lemma trimStart_nil s : trimStart s = [] <-> blank s.
Proof.
  unfold blank. induction s as [|c s IH]; cbn [trimStart].
  - split; [constructor | reflexivity].
  - destruct (isWhiteSpace c) eqn:E.
    + rewrite IH. split; [now constructor | intros H; now inversion H].
    + split; [discriminate | intros H; inversion H; congruence].
Qed.

Lemma trimStart_head s c rest :
  trimStart s = c :: rest -> isWhiteSpace c = false.
Proof.
  induction s as [|x s IH]; cbn [trimStart]; [discriminate|].
  destruct (isWhiteSpace x) eqn:E; [exact IH|].
  intros H. injection H as <- _. exact E.
Qed.

Lemma blank_rev s : blank (rev s) <-> blank s.
Proof.
  unfold blank. rewrite !Forall_forall.
  split; intros H x Hx; apply H; [now apply in_rev in Hx | now apply in_rev].
Qed.

(** Trimming leaves nothing exactly when the text is white space only. *)
Lemma trim_nil s : trim s = [] <-> blank s.
Proof.
  unfold trim, trimEnd. split.
  - intros H. apply (f_equal (@rev N)) in H. rewrite rev_involutive in H.
    cbn [rev] in H. apply trimStart_nil in H.
    apply (proj1 (blank_rev _)) in H.
    destruct (trimStart s) as [|c rest] eqn:E; [now apply trimStart_nil|].
    apply trimStart_head in E. unfold blank in H. inversion H; congruence.
  - intros H. apply trimStart_nil in H. now rewrite H.
Qed.

Lemma toISOString_nonempty t iso : toISOString (TimeValue t) = Some iso -> iso <> [].
Proof.
  unfold toISOString. cbv zeta. intros H. injection H as <-.
  destruct ((0 <=? YearFromTime t) && (YearFromTime t <=? 9999)).
  - unfold padZ, padStart0.
    pose proof (N_toString_digits (Z.abs_N (YearFromTime t))) as D.
    intros E. apply (f_equal (@List.length N)) in E.
    rewrite !length_app in E. cbn [List.length] in E.
    change (List.length (js "-")) with 1%nat in E. lia.
  - discriminate.
Qed.

Lemma toIsoFromLocal_cases DateParse v :
  match AdminPage.toIsoFromLocal DateParse v with
  | None =>
      v = None \/ v = Some [] \/
      exists s, v = Some s /\ DateParse s = InvalidDate
  | Some iso =>
      exists s t,
        v = Some s /\ s <> [] /\ DateParse s = TimeValue t /\
        toISOString (TimeValue t) = Some iso /\ iso <> []
  end.
Proof.
  unfold AdminPage.toIsoFromLocal.
  destruct v as [[|c s]|]; [right; now left | | now left].
  destruct (DateParse (c :: s)) as [|t] eqn:E; cbn [getTime onTime].
  - right. right. now exists (c :: s).
  - destruct (toISOString (TimeValue t)) as [iso|] eqn:Ei; [|discriminate Ei].
    exists (c :: s), t. split; [reflexivity|]. split; [discriminate|].
    split; [exact E|]. split; [exact Ei|].
    exact (toISOString_nonempty t iso Ei).
Qed.

(** Property X14. The helper of the form answers null exactly for a field
    that is missing, empty or no date; otherwise it answers the ISO text of
    the instant the field parses to, which is never empty and for a year
    from 0 to 9999 has the form YYYY-MM-DDTHH:mm:ss.sssZ, 24 code units long. *)
Theorem toIsoFromLocal_spec DateParse v :
  match AdminPage.toIsoFromLocal DateParse v with
  | None =>
      v = None \/ v = Some [] \/
      exists s, v = Some s /\ DateParse s = InvalidDate
  | Some iso =>
      exists s t,
        v = Some s /\ s <> [] /\ DateParse s = TimeValue t /\
        toISOString (TimeValue t) = Some iso /\ iso <> [] /\
        (plainYear t -> iso = isoInstant t /\ List.length iso = 24%nat)
  end.
Proof.
  pose proof (toIsoFromLocal_cases DateParse v) as H.
  destruct (AdminPage.toIsoFromLocal DateParse v) as [iso|]; [|exact H].
  destruct H as (s & t & Ev & Hs & Et & Ei & Hne).
  exists s, t. repeat split; try assumption.
  - rewrite (toISOString_plain t H) in Ei. congruence.
  - rewrite (toISOString_plain t H) in Ei. injection Ei as <-.
    unfold isoInstant. rewrite !length_app, isoDay_length, !digitsK_length.
    reflexivity.
Qed.

Section Submit.

Variable DateParse : jstring -> Date.
Variable ToString : jsval -> jstring.

Lemma onCatch_posted sent err :
  AdminPage.posted (AdminPage.onCatch sent err) = Some sent /\
  AdminPage.submitting (AdminPage.onCatch sent err) = false /\
  AdminPage.cleared (AdminPage.onCatch sent err) = false.
Proof. destruct err as [|[m|]]; repeat split. Qed.

(** The request of a form that passes the checks of the page. *)
Lemma handleSubmit_sent fetchEvents titleField startField endField venueField
      c t c1 s c2 e :
  trim (AdminPage.stringOrEmpty titleField) = c :: t ->
  AdminPage.toIsoFromLocal DateParse startField = Some (c1 :: s) ->
  AdminPage.toIsoFromLocal DateParse endField = Some (c2 :: e) ->
  let venue := if jstring_eqb (trim (AdminPage.stringOrEmpty venueField)) []
               then JNull
               else JString (trim (AdminPage.stringOrEmpty venueField)) in
  let sent := JObject [ (js "title", JString (c :: t));
                        (js "start_ts", JString (c1 :: s));
                        (js "end_ts", JString (c2 :: e));
                        (js "venue", venue) ] in
  let sub := AdminPage.handleSubmit DateParse fetchEvents ToString
               titleField startField endField venueField in
  AdminPage.posted sub = Some sent /\
  AdminPage.submitting sub = false /\
  sub =
  match fetchEvents sent with
  | EventsRoute.Throws err => AdminPage.onCatch sent err
  | EventsRoute.Returns res =>
      if negb (AdminPage.res_ok res) then
        let err := match AdminPage.res_json res with
                   | EventsRoute.Returns v => v
                   | EventsRoute.Throws _ => JObject []
                   end in
        let m := match err with
                 | JUndefined | JNull => JUndefined
                 | _ => EventsRoute.getProp err (js "error")
                 end in
        AdminPage.onCatch sent
          (EventsRoute.ThrownObject
             (Some (if EventsRoute.truthy m then AdminPage.errorText ToString m
                    else js "Request failed (" ++
                         Z_toString (AdminPage.res_status res) ++ js ")")))
      else AdminPage.mkSubmission (Some AdminPage.createdMessage) (Some sent)
             true false
  end.
Proof.
  intros Et Es Ee venue sent sub.
  assert (E : sub =
    match fetchEvents sent with
    | EventsRoute.Throws err => AdminPage.onCatch sent err
    | EventsRoute.Returns res =>
        if negb (AdminPage.res_ok res) then
          let err := match AdminPage.res_json res with
                     | EventsRoute.Returns v => v
                     | EventsRoute.Throws _ => JObject []
                     end in
          let m := match err with
                   | JUndefined | JNull => JUndefined
                   | _ => EventsRoute.getProp err (js "error")
                   end in
          AdminPage.onCatch sent
            (EventsRoute.ThrownObject
               (Some (if EventsRoute.truthy m then AdminPage.errorText ToString m
                      else js "Request failed (" ++
                           Z_toString (AdminPage.res_status res) ++ js ")")))
        else AdminPage.mkSubmission (Some AdminPage.createdMessage) (Some sent)
               true false
    end).
  { unfold sub, AdminPage.handleSubmit. cbv zeta. rewrite Et, Es, Ee.
    replace (match trim (AdminPage.stringOrEmpty venueField) with
             | [] => JNull
             | c0 :: l => JString (c0 :: l)
             end) with venue
      by (unfold venue; destruct (trim (AdminPage.stringOrEmpty venueField));
          reflexivity).
    reflexivity. }
  split; [|split; [|exact E]]; rewrite E;
    (destruct (fetchEvents sent) as [res|err];
     [destruct (negb (AdminPage.res_ok res)); [apply onCatch_posted | reflexivity]
     | apply onCatch_posted]).
Qed.

(** A form either fails a check of the page, and nothing is sent, or it
    has a title that is not blank and two dates. *)
Lemma handleSubmit_cases fetchEvents titleField startField endField venueField :
  let sub := AdminPage.handleSubmit DateParse fetchEvents ToString
               titleField startField endField venueField in
  (sub = AdminPage.mkSubmission
           (Some (js "Please fill Title, Start, and End.")) None false false /\
   (blank (AdminPage.stringOrEmpty titleField) \/
    AdminPage.toIsoFromLocal DateParse startField = None \/
    AdminPage.toIsoFromLocal DateParse endField = None)) \/
  (exists c t c1 s c2 e,
     trim (AdminPage.stringOrEmpty titleField) = c :: t /\
     AdminPage.toIsoFromLocal DateParse startField = Some (c1 :: s) /\
     AdminPage.toIsoFromLocal DateParse endField = Some (c2 :: e)).
Proof.
  cbv zeta.
  pose proof (trim_nil (AdminPage.stringOrEmpty titleField)) as Ht.
  pose proof (toIsoFromLocal_cases DateParse startField) as Hs.
  pose proof (toIsoFromLocal_cases DateParse endField) as He.
  destruct (trim (AdminPage.stringOrEmpty titleField)) as [|c t] eqn:Et.
  { left. unfold AdminPage.handleSubmit. cbv zeta. rewrite Et.
    split; [reflexivity|]. left. now apply Ht. }
  destruct (AdminPage.toIsoFromLocal DateParse startField) as [[|c1 s]|] eqn:Es.
  { destruct Hs as (? & ? & _ & _ & _ & _ & N). congruence. }
  2:{ left. unfold AdminPage.handleSubmit. cbv zeta. rewrite Et, Es.
      split; [reflexivity|]. right. now left. }
  destruct (AdminPage.toIsoFromLocal DateParse endField) as [[|c2 e]|] eqn:Ee.
  { destruct He as (? & ? & _ & _ & _ & _ & N). congruence. }
  2:{ left. unfold AdminPage.handleSubmit. cbv zeta. rewrite Et, Es, Ee.
      split; [reflexivity|]. right. now right. }
  right. now exists c, t, c1, s, c2, e.
Qed.

(** Property X15. Nothing is sent when the title is blank or a date is
    missing or no date: the page then asks for the three fields and keeps
    the form. A request that is sent carries the trimmed title, the two ISO
    texts and the trimmed venue, null when the venue is blank. In every case
    the submit button is enabled again at the end. *)
Theorem handleSubmit_validation fetchEvents titleField startField endField venueField :
  let sub := AdminPage.handleSubmit DateParse fetchEvents ToString
               titleField startField endField venueField in
  AdminPage.submitting sub = false /\
  (AdminPage.posted sub = None <->
   blank (AdminPage.stringOrEmpty titleField) \/
   AdminPage.toIsoFromLocal DateParse startField = None \/
   AdminPage.toIsoFromLocal DateParse endField = None) /\
  (AdminPage.posted sub = None ->
   AdminPage.shown sub = Some (js "Please fill Title, Start, and End.") /\
   AdminPage.cleared sub = false) /\
  (forall sent, AdminPage.posted sub = Some sent ->
   exists s e,
     AdminPage.toIsoFromLocal DateParse startField = Some s /\
     AdminPage.toIsoFromLocal DateParse endField = Some e /\
     sent = JObject
       [ (js "title", JString (trim (AdminPage.stringOrEmpty titleField)));
         (js "start_ts", JString s);
         (js "end_ts", JString e);
         (js "venue",
          if jstring_eqb (trim (AdminPage.stringOrEmpty venueField)) []
          then JNull
          else JString (trim (AdminPage.stringOrEmpty venueField))) ]).
Proof.
  cbv zeta.
  destruct (handleSubmit_cases fetchEvents titleField startField endField
              venueField) as [[E H]|(c & t & c1 & s & c2 & e & Et & Es & Ee)].
  - cbv zeta in E. rewrite E. cbn.
    repeat split; try discriminate; tauto.
  - destruct (handleSubmit_sent fetchEvents titleField startField endField
                venueField c t c1 s c2 e Et Es Ee) as (P1 & P2 & _).
    rewrite P1, P2, Et.
    assert (Nb : ~ blank (AdminPage.stringOrEmpty titleField)).
    { intros B. apply trim_nil in B. congruence. }
    split; [reflexivity|]. split.
    { split; [discriminate|]. intros [B|[B|B]]; [tauto | congruence..]. }
    split; [discriminate|].
    intros sent' E. injection E as <-. exists (c1 :: s), (c2 :: e).
    rewrite Es, Ee. repeat split.
Qed.

End Submit.

(** The form of the scenario, and the same form with a blank title. *)
Lemma handleSubmit_validation_witness :
  AdminPage.posted
    (AdminPage.handleSubmit parseFormLocal (fetchRoute acceptingStore)
       plainToString (Some (js "  Welcome BBQ "))
       (Some (js "2025-09-05T17:00")) (Some (js "2025-09-05T19:00"))
       (Some (js " "))) =
  Some (JObject [ (js "title", JString (js "Welcome BBQ"));
                  (js "start_ts", JString (js "2025-09-05T22:00:00.000Z"));
                  (js "end_ts", JString (js "2025-09-06T00:00:00.000Z"));
                  (js "venue", JNull) ]) /\
  AdminPage.shown
    (AdminPage.handleSubmit parseFormLocal (fetchRoute acceptingStore)
       plainToString (Some (js "   "))
       (Some (js "2025-09-05T17:00")) (Some (js "2025-09-05T19:00")) None) =
  Some (js "Please fill Title, Start, and End.").
Proof.
  split.
  - destruct (proj2 (proj2 (proj2
        (handleSubmit_validation parseFormLocal plainToString
           (fetchRoute acceptingStore) (Some (js "  Welcome BBQ "))
           (Some (js "2025-09-05T17:00")) (Some (js "2025-09-05T19:00"))
           (Some (js " ")))))
        _ ltac:(vm_compute; reflexivity)) as (s & e & Es & Ee & E).
    vm_compute. reflexivity.
  - apply (proj1 (proj2 (proj2
        (handleSubmit_validation parseFormLocal plainToString
           (fetchRoute acceptingStore) (Some (js "   "))
           (Some (js "2025-09-05T17:00")) (Some (js "2025-09-05T19:00"))
           None)))).
    vm_compute. reflexivity.
Defined.

(** ** The form and the endpoint together *)

Lemma failure_shown sent m st :
  AdminPage.shown
    (AdminPage.onCatch sent
       (EventsRoute.ThrownObject
          (Some (if EventsRoute.truthy (JString m) then m
                 else js "Request failed (" ++ Z_toString st ++ js ")")))) =
  Some (failureShown m st).
Proof. destruct m; reflexivity. Qed.

(** Property X16. A request that the form sends always passes the check of
    the endpoint for the three required fields, so what the page shows
    depends on the store alone: the success message, with the form cleared,
    when the row is stored; the message of the store after a rejected
    insert, and the message of the failure after a thrown one, each after
    the word Error, with the form kept; the status stands in for a message
    that is empty. *)
Theorem admin_submit_through_route DateParse ToString insertEvent
        titleField startField endField venueField sent :
  let sub := AdminPage.handleSubmit DateParse (fetchRoute insertEvent) ToString
               titleField startField endField venueField in
  AdminPage.posted sub = Some sent ->
  exists t s e v,
    sent = JObject [ (js "title", JString t); (js "start_ts", JString s);
                     (js "end_ts", JString e); (js "venue", v) ] /\
    match insertEvent (JString t) (JString s) (JString e) v with
    | EventsRoute.Returns r =>
        match error r with
        | None =>
            AdminPage.shown sub = Some AdminPage.createdMessage /\
            AdminPage.cleared sub = true
        | Some err =>
            AdminPage.shown sub = Some (failureShown (message err) 400) /\
            AdminPage.cleared sub = false
        end
    | EventsRoute.Throws err =>
        AdminPage.shown sub =
        Some (failureShown (EventsRoute.errorMessage err) 500) /\
        AdminPage.cleared sub = false
    end.
Proof.
  cbv zeta. intros Hp.
  destruct (handleSubmit_cases DateParse ToString (fetchRoute insertEvent)
              titleField startField endField venueField)
    as [[E0 _]|(c & t & c1 & s & c2 & e & Et & Es & Ee)].
  { cbv zeta in E0. rewrite E0 in Hp. discriminate Hp. }
  destruct (handleSubmit_sent DateParse ToString (fetchRoute insertEvent)
              titleField startField endField venueField c t c1 s c2 e Et Es Ee)
    as (Esent & _ & E).
  rewrite Esent in Hp. injection Hp as Hp. symmetry in Hp. rename Hp into Esent'.
  clear Esent. rename Esent' into Esent.
  set (v := if jstring_eqb (trim (AdminPage.stringOrEmpty venueField)) []
            then JNull
            else JString (trim (AdminPage.stringOrEmpty venueField))) in *.
  exists (c :: t), (c1 :: s), (c2 :: e), v. split; [exact Esent|].
  rewrite E. clear E. rewrite <- Esent.
  assert (Ev : EventsRoute.nullishv v JNull = v)
    by (unfold v; destruct (jstring_eqb _ []); reflexivity).
  unfold fetchRoute.
  rewrite (POST_validated insertEvent sent)
    by (rewrite Esent; reflexivity).
  replace (EventsRoute.getProp sent (js "title")) with (JString (c :: t))
    by (rewrite Esent; reflexivity).
  replace (EventsRoute.getProp sent (js "start_ts")) with (JString (c1 :: s))
    by (rewrite Esent; reflexivity).
  replace (EventsRoute.getProp sent (js "end_ts")) with (JString (c2 :: e))
    by (rewrite Esent; reflexivity).
  replace (EventsRoute.getProp sent (js "venue")) with v
    by (rewrite Esent; reflexivity).
  rewrite Ev.
  destruct (insertEvent (JString (c :: t)) (JString (c1 :: s))
                        (JString (c2 :: e)) v) as [r|err].
  - destruct (error r) as [err|].
    + cbv zeta. cbn [status body EventsRoute.json AdminPage.res_ok
                     AdminPage.res_status AdminPage.res_json].
      change (negb ((200 <=? 400) && (400 <=? 299))) with true. cbv iota.
      change (EventsRoute.getProp (JObject [(js "error", JString (message err))])
                (js "error")) with (JString (message err)).
      cbn [AdminPage.errorText].
      split; [apply failure_shown | apply onCatch_posted].
    + cbv zeta. cbn [status body EventsRoute.json AdminPage.res_ok
                     AdminPage.res_status AdminPage.res_json].
      change (negb ((200 <=? 201) && (201 <=? 299))) with false. cbv iota.
      split; reflexivity.
  - cbv zeta. unfold EventsRoute.onThrow.
    cbn [status body EventsRoute.json AdminPage.res_ok
         AdminPage.res_status AdminPage.res_json].
    change (negb ((200 <=? 500) && (500 <=? 299))) with true. cbv iota.
    change (EventsRoute.getProp
              (JObject [(js "error", JString (EventsRoute.errorMessage err))])
              (js "error")) with (JString (EventsRoute.errorMessage err)).
    cbn [AdminPage.errorText].
    split; [apply failure_shown | apply onCatch_posted].
Qed.

(** The scenario form against a store that rejects the insert. *)
Lemma admin_submit_through_route_witness :
  AdminPage.shown
    (AdminPage.handleSubmit parseFormLocal (fetchRoute rejectingStore)
       plainToString (Some (js "Welcome BBQ"))
       (Some (js "2025-09-05T17:00")) (Some (js "2025-09-05T19:00"))
       (Some (js "Main Hall"))) =
  Some (js "Error: permission denied").
Proof.
  destruct (admin_submit_through_route parseFormLocal plainToString rejectingStore
              (Some (js "Welcome BBQ")) (Some (js "2025-09-05T17:00"))
              (Some (js "2025-09-05T19:00")) (Some (js "Main Hall"))
              _ ltac:(vm_compute; reflexivity)) as (t & s & e & v & _ & H).
  unfold rejectingStore in H. cbn [error message] in H. exact (proj1 H).
Defined.

(** ** The week of an instant *)

(** The start of the week of an instant is the midnight of its local day
    moved back by the column index of that day. *)
Lemma startOfWeek_local zone tv b :
  RegularZone zone ->
  EventsList.startOfWeek zone (TimeValue tv) = TimeValue b ->
  LocalTime zone b =
  (Day (LocalTime zone tv) - mondayIndex (LocalTime zone tv)) * msPerDay.
Proof.
  intros [Hmid _] H.
  destruct (startOfWeek_defined zone (TimeValue tv) b H) as (tv' & E & Htv).
  injection E as <-.
  unfold EventsList.startOfWeek in H. cbn [DateCopy] in H.
  rewrite (TimeClip_valid tv Htv) in H.
  cbn [getDay onTime num_add num_rem] in H.
  fold (mondayIndex (LocalTime zone tv)) in H.
  set (t := LocalTime zone tv) in *. set (idx := mondayIndex t) in *.
  unfold setHours in H. fold t in H.
  replace (MakeDate (Day t) (MakeTime 0 0 0 0)) with (Day t * msPerDay) in H
    by (unfold MakeDate, MakeTime; lia).
  destruct (TimeClip (UTC zone (Day t * msPerDay))) as [|u] eqn:Eu;
    [discriminate H|].
  apply TimeClip_inv in Eu as [Eu Hu].
  cbn [getDate onTime num_sub] in H.
  assert (Hlocal : LocalTime zone u = Day t * msPerDay).
  { rewrite <- Eu. apply Hmid, midnight_of_day. }
  replace (DateFromTime (LocalTime zone u) - idx)
    with (DateFromTime (LocalTime zone u) + - idx) in H by lia.
  rewrite setDate_shift, Hlocal in H.
  apply TimeClip_inv in H as [Hb _].
  rewrite <- Hb.
  replace (Day t * msPerDay + - idx * msPerDay) with ((Day t - idx) * msPerDay)
    by lia.
  apply Hmid, midnight_of_day.
Qed.

(** Property X17. In a zone in which every local midnight exists and the
    clock is never set back, an instant lies in its own week: not before the
    start and before the end. An event that starts at the very instant of
    the clock reading is therefore among the events of the displayed week. *)
Theorem week_contains_now zone now ws we :
  RegularZone zone -> ForwardZone zone ->
  EventsList.startOfWeek zone (TimeValue now) = TimeValue ws ->
  EventsList.endOfWeek zone (TimeValue now) = TimeValue we ->
  ws <= now < we /\
  (forall DateParse events ev,
     In ev events -> DateParse (start_ts ev) = TimeValue now ->
     In ev (EventsList.weekEvents zone DateParse (TimeValue now)
              (TimeValue now) events)).
Proof.
  intros Hreg Hfwd Hws Hwe.
  pose proof (startOfWeek_local zone now ws Hreg Hws) as Hl.
  destruct (endOfWeek_monday zone Hreg (TimeValue now) ws we Hws Hwe)
    as (_ & Hend & _).
  pose proof (mondayIndex_range (LocalTime zone now)) as Hi.
  assert (R : ws <= now < we).
  { split.
    - apply (forward_le zone Hfwd). rewrite Hl.
      unfold Day, msPerDay. Z.div_mod_to_equations. nia.
    - apply (forward_lt zone Hfwd). rewrite Hend, Hl.
      unfold Day, msPerDay. Z.div_mod_to_equations. nia. }
  split; [exact R|].
  intros DateParse events ev Hin Hs. apply weekEvents_In. split; [exact Hin|].
  exists now, ws, we. auto.
Qed.

(** Noon of Sunday 9 March 2025, local time, in the zone with the clock
    change. *)
Lemma week_contains_now_witness :
  1740978000000 <= 1741536000000 < 1741579200000 /\
  (forall DateParse events ev,
     In ev events -> DateParse (start_ts ev) = TimeValue 1741536000000 ->
     In ev (EventsList.weekEvents easternSpring2025 DateParse
              (TimeValue 1741536000000) (TimeValue 1741536000000) events)).
Proof.
  apply (week_contains_now easternSpring2025 1741536000000 1740978000000
           1741579200000 easternSpring2025_regular easternSpring2025_forward);
    vm_compute; reflexivity.
Defined.

(** ** The order of the day keys *)

Lemma codeUnitCompare_cons x y r1 r2 :
  codeUnitCompare (x :: r1) (y :: r2) =
  if (x <? y)%N then -1 else if (y <? x)%N then 1 else codeUnitCompare r1 r2.
Proof. reflexivity. Qed.

Lemma codeUnitCompare_digitsK k : forall a b r1 r2,
  0 <= a < 10 ^ Z.of_nat k -> 0 <= b < 10 ^ Z.of_nat k ->
  codeUnitCompare (digitsK k a ++ r1) (digitsK k b ++ r2) =
  sign3 a b (codeUnitCompare r1 r2).
Proof.
  induction k as [|k IH]; intros a b r1 r2 Ha Hb.
  - cbn in Ha, Hb. assert (a = 0) by lia. assert (b = 0) by lia. subst.
    reflexivity.
  - rewrite Nat2Z.inj_succ, Z.pow_succ_r in Ha, Hb by lia.
    cbn [digitsK]. rewrite <- !app_assoc. cbn [app].
    rewrite IH by (Z.div_mod_to_equations; nia).
    rewrite codeUnitCompare_cons. unfold sign3, digitOf.
    destruct (Z.ltb_spec (a / 10) (b / 10)), (Z.ltb_spec (b / 10) (a / 10)),
      (Z.ltb_spec a b), (Z.ltb_spec b a);
      try reflexivity; try (exfalso; Z.div_mod_to_equations; lia);
      destruct (N.ltb_spec (48 + Z.to_N (a mod 10)) (48 + Z.to_N (b mod 10)));
      try reflexivity; try (exfalso; Z.div_mod_to_equations; lia);
      destruct (N.ltb_spec (48 + Z.to_N (b mod 10)) (48 + Z.to_N (a mod 10)));
      try reflexivity; exfalso; Z.div_mod_to_equations; lia.
Qed.

Lemma codeUnitCompare_isoDay a b :
  plainYear a -> plainYear b ->
  codeUnitCompare (isoDay a) (isoDay b) =
  sign3 (YearFromTime a) (YearFromTime b)
    (sign3 (MonthFromTime a) (MonthFromTime b)
       (sign3 (DateFromTime a) (DateFromTime b) 0)).
Proof.
  intros Ha Hb. unfold plainYear in Ha, Hb.
  pose proof (MonthFromTime_range a). pose proof (DateFromTime_range a).
  pose proof (MonthFromTime_range b). pose proof (DateFromTime_range b).
  unfold isoDay.
  rewrite codeUnitCompare_digitsK by (cbn; lia). f_equal.
  change (js "-") with [45%N]. cbn [app]. rewrite codeUnitCompare_cons.
  rewrite N.ltb_irrefl.
  rewrite codeUnitCompare_digitsK by (cbn; lia).
  replace (sign3 (MonthFromTime a + 1) (MonthFromTime b + 1))
    with (sign3 (MonthFromTime a) (MonthFromTime b)).
  2:{ unfold sign3.
      destruct (Z.ltb_spec (MonthFromTime a) (MonthFromTime b)),
        (Z.ltb_spec (MonthFromTime b) (MonthFromTime a)),
        (Z.ltb_spec (MonthFromTime a + 1) (MonthFromTime b + 1)),
        (Z.ltb_spec (MonthFromTime b + 1) (MonthFromTime a + 1));
        try reflexivity; lia. }
  f_equal. rewrite codeUnitCompare_cons, N.ltb_irrefl.
  rewrite <- (app_nil_r (digitsK 2 (DateFromTime a))).
  rewrite <- (app_nil_r (digitsK 2 (DateFromTime b))).
  rewrite codeUnitCompare_digitsK by (cbn; lia). reflexivity.
Qed.

Lemma DayFromYear_mono y1 y2 : y1 <= y2 -> DayFromYear y1 <= DayFromYear y2.
Proof. unfold DayFromYear. intros H. Z.div_mod_to_equations. lia. Qed.

Lemma YearFromTime_mono a b : Day a <= Day b -> YearFromTime a <= YearFromTime b.
Proof.
  intros H. unfold YearFromTime.
  pose proof (YearFromDay_spec (Day a)) as Sa.
  pose proof (YearFromDay_spec (Day b)) as Sb.
  destruct (Z_le_gt_dec (YearFromDay (Day a)) (YearFromDay (Day b))) as [L|G];
    [exact L|].
  pose proof (DayFromYear_mono (YearFromDay (Day b) + 1) (YearFromDay (Day a))
                ltac:(lia)). lia.
Qed.

Lemma Month_mono leap d1 d2 :
  d1 <= d2 ->
  MonthFromDayWithinYear leap d1 <= MonthFromDayWithinYear leap d2.
Proof.
  intros H. unfold MonthFromDayWithinYear.
  repeat match goal with
         | |- context [if ?x <? ?y then _ else _] =>
             destruct (Z.ltb_spec x y)
         end; lia.
Qed.

(** Earlier day, earlier calendar date. *)
Lemma fields_lt a b :
  Day a < Day b ->
  sign3 (YearFromTime a) (YearFromTime b)
    (sign3 (MonthFromTime a) (MonthFromTime b)
       (sign3 (DateFromTime a) (DateFromTime b) 0)) = -1.
Proof.
  intros H. pose proof (YearFromTime_mono a b ltac:(lia)) as Hy.
  unfold sign3 at 1.
  destruct (Z.ltb_spec (YearFromTime a) (YearFromTime b)) as [|Hy']; [reflexivity|].
  assert (Ey : YearFromTime a = YearFromTime b) by lia.
  destruct (Z.ltb_spec (YearFromTime b) (YearFromTime a)); [lia|].
  assert (El : InLeapYear a = InLeapYear b) by (unfold InLeapYear; now rewrite Ey).
  assert (Hd : DayWithinYear a < DayWithinYear b)
    by (unfold DayWithinYear; rewrite Ey; lia).
  assert (Hm : MonthFromTime a <= MonthFromTime b).
  { unfold MonthFromTime. rewrite El. apply Month_mono. lia. }
  unfold sign3 at 1.
  destruct (Z.ltb_spec (MonthFromTime a) (MonthFromTime b)); [reflexivity|].
  assert (Em : MonthFromTime a = MonthFromTime b) by lia.
  destruct (Z.ltb_spec (MonthFromTime b) (MonthFromTime a)); [lia|].
  unfold sign3.
  assert (DateFromTime a < DateFromTime b)
    by (unfold DateFromTime; rewrite El, Em; lia).
  destruct (Z.ltb_spec (DateFromTime a) (DateFromTime b)); [reflexivity | lia].
Qed.

(** Under comparison by code units the day keys of the years 0 to 9999
    compare as the days do. *)
Lemma codeUnitCompare_days a b :
  plainYear a -> plainYear b ->
  codeUnitCompare (isoDay a) (isoDay b) = sign3 (Day a) (Day b) 0.
Proof.
  intros Ha Hb. rewrite (codeUnitCompare_isoDay a b Ha Hb).
  unfold sign3 at 4.
  destruct (Z.ltb_spec (Day a) (Day b)) as [L|L]; [now apply fields_lt|].
  destruct (Z.ltb_spec (Day b) (Day a)) as [G|G].
  - pose proof (fields_lt b a G) as H.
    pose proof (YearFromTime_mono b a ltac:(lia)) as Hy.
    unfold sign3 in *.
    destruct (Z.ltb_spec (YearFromTime a) (YearFromTime b)); [lia|].
    destruct (Z.ltb_spec (YearFromTime b) (YearFromTime a)); [reflexivity|].
    destruct (Z.ltb_spec (MonthFromTime a) (MonthFromTime b)),
      (Z.ltb_spec (MonthFromTime b) (MonthFromTime a));
      try reflexivity; try lia; try discriminate H.
    destruct (Z.ltb_spec (DateFromTime a) (DateFromTime b)),
      (Z.ltb_spec (DateFromTime b) (DateFromTime a));
      try reflexivity; try lia; discriminate H.
  - destruct (fields_of_day a b ltac:(lia)) as (Ey & Em & Ed).
    rewrite Ey, Em, Ed. unfold sign3. now rewrite !Z.ltb_irrefl.
Qed.

Lemma StronglySorted_distinct {A B} (R R' : A -> A -> Prop) (f : A -> B) l :
  StronglySorted R l -> NoDup (map f l) ->
  (forall x y, In x l -> In y l -> R x y -> f x <> f y -> R' x y) ->
  StronglySorted R' l.
Proof.
  intros Hs. induction Hs as [|x l Hs IH Hx]; intros Hnd Himp; [constructor|].
  cbn [map] in Hnd. inversion Hnd as [|? ? Hfresh Hnd']; subst.
  constructor.
  - apply IH; [exact Hnd'|]. intros y z Hy Hz. apply Himp; now right.
  - rewrite Forall_forall in *. intros y Hy.
    apply Himp; [now left | now right | now apply Hx |].
    intros E. apply Hfresh. rewrite E. now apply in_map.
Qed.

Lemma plainStarts_valid DateParse events :
  plainStarts DateParse events -> validStarts DateParse events.
Proof.
  unfold plainStarts, validStarts. apply Forall_impl.
  intros ev (t & Et & _). now exists t.
Qed.

(** Property X18. With the day keys compared by code units, and every start
    in the years 0 to 9999, the groups of the list view come in the order of
    the calendar: every event of a group starts on an earlier UTC day than
    every event of a group listed after it. *)
Theorem groups_chronological DateParse events gs :
  plainStarts DateParse events ->
  EventsList.groups DateParse codeUnitCompare events = Some gs ->
  StronglySorted (daysBefore DateParse) gs.
Proof.
  intros Hplain Hgs.
  destruct (grouped_loop DateParse events [] [] (grouped_nil DateParse)
              (plainStarts_valid DateParse events Hplain))
    as (m & Eloop & Hnd & Hrows & Hcover).
  cbn [app] in Hrows, Hcover.
  set (cmp := fun a b : jstring * list EventRow =>
                codeUnitCompare (fst a) (fst b)).
  assert (E : EventsList.groups DateParse codeUnitCompare events =
              Some (sortBy cmp m))
    by exact (f_equal (option_map (sortBy cmp)) Eloop).
  rewrite E in Hgs. injection Hgs as <-.
  pose proof (sortBy_perm _ cmp m) as Hperm.
  destruct codeUnitCompare_collation as [Htotal Htrans].
  assert (Hsorted : StronglySorted (fun g h => cmp g h <= 0) (sortBy cmp m)).
  { apply sortBy_sorted.
    - intros a b. apply Htotal.
    - intros a b c. apply Htrans. }
  apply (StronglySorted_distinct _ _ fst _ Hsorted).
  { apply (Permutation_NoDup (Permutation_sym (Permutation_map fst Hperm))).
    exact Hnd. }
  intros [k1 rows1] [k2 rows2] Hg Hh Hle Hne. cbn [fst] in Hne.
  unfold cmp in Hle. cbn [fst] in Hle.
  apply (Permutation_in _ Hperm) in Hg, Hh.
  destruct (Hrows k1 rows1 Hg) as [-> _].
  destruct (Hrows k2 rows2 Hh) as [-> _].
  intros e1 e2 a b H1 H2 Ea Eb. cbn [snd] in H1, H2.
  unfold rowsOf in H1, H2.
  apply filter_In in H1 as [In1 K1]. apply filter_In in H2 as [In2 K2].
  apply jstring_eqb_eq in K1, K2.
  unfold plainStarts in Hplain. rewrite Forall_forall in Hplain.
  destruct (Hplain e1 In1) as (a' & Ea' & Pa).
  destruct (Hplain e2 In2) as (b' & Eb' & Pb).
  rewrite Ea in Ea'. injection Ea' as <-.
  rewrite Eb in Eb'. injection Eb' as <-.
  unfold keyOf in K1, K2.
  rewrite (dayKeyOf_plain DateParse e1 a Ea Pa) in K1.
  rewrite (dayKeyOf_plain DateParse e2 b Eb Pb) in K2.
  subst k1 k2.
  rewrite (codeUnitCompare_days a b Pa Pb) in Hle.
  destruct (Z.eq_dec (Day a) (Day b)) as [Ed|Nd].
  { exfalso. apply Hne. now apply isoDay_of_day. }
  unfold sign3 in Hle.
  destruct (Z.ltb_spec (Day a) (Day b)); [assumption|].
  destruct (Z.ltb_spec (Day b) (Day a)); lia.
Qed.

(** A list given out of order: the event of 2 January before the two of
    1 January. *)
Lemma groups_chronological_witness :
  exists gs,
    EventsList.groups parseIsoUtc codeUnitCompare
      [nextDayEvent; morningEvent; lateEvent] = Some gs /\
    map fst gs = [js "2025-01-01"; js "2025-01-02"] /\
    StronglySorted (daysBefore parseIsoUtc) gs.
Proof.
  eexists. split; [vm_compute; reflexivity|]. split; [reflexivity|].
  apply (groups_chronological parseIsoUtc [nextDayEvent; morningEvent; lateEvent]).
  - repeat constructor; eexists; (split; [vm_compute; reflexivity|]);
      vm_compute; split; discriminate.
  - vm_compute. reflexivity.
Defined.

(** ** Loading the events *)

Lemma catchError_events fallback e st :
  st_events (catchError fallback e st) = st_events st.
Proof. destruct e as [|[m|]]; reflexivity. Qed.

(** Property X19. Once the load of the home page has run, the page no longer
    shows the loading screen; it shows the events exactly when the query
    succeeded with at least one row; and a failure that comes without a
    message text, be it an empty message of the store or a nullish thrown
    value, is shown as the screen for no upcoming events. *)
Theorem upcoming_load_screen rangeMessage query now :
  let st := UpcomingEvents.load rangeMessage query now initialState in
  UpcomingEvents.render st <> UpcomingEvents.LoadingScreen /\
  (forall rows,
     UpcomingEvents.render st = UpcomingEvents.EventsScreen rows <->
     rows <> [] /\
     exists iso r,
       toISOString now = Some iso /\ query iso = EventsRoute.Returns r /\
       error r = None /\ data r = Some rows) /\
  (forall iso,
     toISOString now = Some iso ->
     query iso = EventsRoute.Throws EventsRoute.ThrownNullish \/
     query iso = EventsRoute.Throws (EventsRoute.ThrownObject (Some [])) \/
     (exists r err,
        query iso = EventsRoute.Returns r /\ error r = Some err /\
        message err = []) ->
     UpcomingEvents.render st = UpcomingEvents.EmptyScreen).
Proof.
  cbv zeta. unfold UpcomingEvents.load. cbv zeta.
  split; [|split].
  - unfold UpcomingEvents.render. cbn [setLoading st_loading]. 
    destruct (st_error _) as [[|c m]|]; try discriminate;
      destruct (st_events _); discriminate.
  - intros rows.
    destruct (toISOString now) as [iso|].
    2:{ split; [destruct rangeMessage; discriminate|].
        intros (_ & iso & r & E & _). discriminate E. }
    destruct (query iso) as [r|e] eqn:Eq.
    2:{ split.
        - destruct e as [|[[|c m]|]]; discriminate.
        - intros (_ & iso' & r & E & Eq' & _). injection E as <-. congruence. }
    destruct (error r) as [err|] eqn:Ee.
    { split.
      - cbn. destruct (message err); discriminate.
      - intros (_ & iso' & r' & E & Eq' & Ee' & _). injection E as <-.
        rewrite Eq in Eq'. injection Eq' as <-. congruence. }
    unfold UpcomingEvents.render. cbn [setLoading setEvents st_loading st_error
                                       st_events initialState].
    split.
    + intros H. destruct (rowsOrNone (data r)) as [|ev l] eqn:Er; [discriminate H|].
      injection H as <-. split; [discriminate|].
      exists iso, r. repeat split; try assumption.
      destruct (data r) as [d|]; cbn in Er; [now f_equal | discriminate Er].
    + intros (Hne & iso' & r' & E & Eq' & _ & Ed). injection E as <-.
      rewrite Eq in Eq'. injection Eq' as <-. rewrite Ed. cbn [rowsOrNone].
      destruct rows; [congruence | reflexivity].
  - intros iso Ei H. rewrite Ei.
    destruct H as [H|[H|(r & err & Eq & Ee & Em)]].
    + rewrite H. reflexivity.
    + rewrite H. reflexivity.
    + rewrite Eq, Ee, Em. reflexivity.
Qed.

Lemma upcoming_load_screen_witness :
  UpcomingEvents.render
    (UpcomingEvents.load (js "Invalid time value")
       (fun _ => EventsRoute.Returns
                   (mkQueryResult None (Some (mkStoreError []))))
       noon initialState) =
  UpcomingEvents.EmptyScreen.
Proof.
  apply (proj2 (proj2 (upcoming_load_screen (js "Invalid time value")
           (fun _ => EventsRoute.Returns
                       (mkQueryResult None (Some (mkStoreError []))))
           noon)) (js "2025-09-01T12:00:00.000Z")).
  - vm_compute. reflexivity.
  - right. right. eexists. eexists. repeat split.
Defined.

(** ** Refreshing the kiosk *)

Section Kiosk.

Variable zone : TimeZone.
Variable rangeMessage : jstring.

Lemma load_loading query now st :
  st_loading (KioskPage.load zone rangeMessage true query now st) = false.
Proof. reflexivity. Qed.

(** Where the events of a state come from after one run. *)
Lemma load_events query now st ev :
  In ev (st_events (KioskPage.load zone rangeMessage true query now st)) ->
  In ev (st_events st) \/
  exists a b r rows,
    KioskPage.queryBounds zone now = Some (a, b) /\
    query a b = EventsRoute.Returns r /\ error r = None /\
    data r = Some rows /\ In ev rows.
Proof.
  unfold KioskPage.load. cbv zeta. cbn [setLoading st_events].
  destruct (KioskPage.queryBounds zone now) as [[a b]|].
  2:{ rewrite catchError_events. cbn. auto. }
  destruct (query a b) as [r|e] eqn:Eq.
  2:{ rewrite catchError_events. cbn. auto. }
  destruct (error r) as [err|] eqn:Ee.
  { rewrite catchError_events. cbn. auto. }
  cbn [setEvents st_events]. intros H. right.
  destruct (data r) as [rows|] eqn:Ed; [|destruct H].
  exists a, b, r, rows. auto.
Qed.

(** Property X20. A refresh that the store answers with an error leaves the
    list of the last good answer on the screen, below the error: the events
    are kept, the message of the store is set, the loading notice is off,
    and the notice for an empty day is not shown when the message is not
    empty. *)
Theorem kiosk_failed_refresh query now st a b r err :
  KioskPage.queryBounds zone now = Some (a, b) ->
  query a b = EventsRoute.Returns r ->
  error r = Some err ->
  let st' := KioskPage.load zone rangeMessage true query now st in
  st_events st' = st_events st /\
  st_error st' = Some (message err) /\
  st_loading st' = false /\
  KioskPage.items (KioskPage.render st') = st_events st /\
  (message err <> [] ->
   KioskPage.errorNotice (KioskPage.render st') = Some (message err) /\
   KioskPage.emptyNotice (KioskPage.render st') = false).
Proof.
  intros Eb Eq Ee. cbv zeta. unfold KioskPage.load. cbv zeta.
  rewrite Eb, Eq, Ee. cbn [catchError setError setLoading st_events st_error
                           st_loading KioskPage.render KioskPage.items
                           KioskPage.errorNotice KioskPage.emptyNotice].
  repeat split; destruct (message err); try congruence; reflexivity.
Qed.

(** Property X21. Whatever the refreshes of a mounted kiosk, the loading
    notice is off after each of them, and every event on the screen is a row
    of an answer that the store gave without an error to one of the queries. *)
Theorem kiosk_shows_store_rows runs :
  let st := refreshes zone rangeMessage runs initialState in
  (runs <> [] -> st_loading st = false) /\
  (forall ev,
     In ev (st_events st) ->
     exists query now a b r rows,
       In (query, now) runs /\
       KioskPage.queryBounds zone now = Some (a, b) /\
       query a b = EventsRoute.Returns r /\ error r = None /\
       data r = Some rows /\ In ev rows).
Proof.
  cbv zeta. unfold refreshes.
  assert (G : forall st0,
            (runs <> [] ->
             st_loading
               (fold_left (fun s run => KioskPage.load zone rangeMessage true
                                          (fst run) (snd run) s) runs st0) = false) /\
            (forall ev,
               In ev (st_events
                 (fold_left (fun s run => KioskPage.load zone rangeMessage true
                                            (fst run) (snd run) s) runs st0)) ->
               In ev (st_events st0) \/
               exists query now a b r rows,
                 In (query, now) runs /\
                 KioskPage.queryBounds zone now = Some (a, b) /\
                 query a b = EventsRoute.Returns r /\ error r = None /\
                 data r = Some rows /\ In ev rows)).
  { induction runs as [|[q now] rest IH] using rev_ind; intros st0.
    - split; [congruence | cbn; auto].
    - rewrite fold_left_app. cbn [fold_left fst snd]. split.
      + intros _. apply load_loading.
      + intros ev H. apply load_events in H as [H|(a & b & r & rows & H)].
        * apply (proj2 (IH st0)) in H
            as [H|(q' & now' & a & b & r & rows & Hin & H)]; [now left|].
          right. exists q', now', a, b, r, rows. split; [|exact H].
          apply in_or_app. now left.
        * right. exists q, now, a, b, r, rows. split; [|exact H].
          apply in_or_app. right. now left. }
  destruct (G initialState) as [G1 G2]. split; [exact G1|].
  intros ev H. apply G2 in H as [[]|H]. exact H.
Qed.

End Kiosk.

(** A good answer followed by a failure: the event of the first answer is
    still on the screen, under the message of the store. *)
Lemma kiosk_failed_refresh_witness :
  let st := KioskPage.load easternSpring2025 (js "Invalid time value") true
              (answering [sundayEvent]) (TimeValue 1741521600000) initialState in
  let st' := KioskPage.load easternSpring2025 (js "Invalid time value") true
               failing (TimeValue 1741521660000) st in
  KioskPage.items (KioskPage.render st') = [sundayEvent] /\
  KioskPage.errorNotice (KioskPage.render st') = Some (js "network down").
Proof.
  cbv zeta.
  destruct (kiosk_failed_refresh easternSpring2025 (js "Invalid time value")
              failing (TimeValue 1741521660000)
              (KioskPage.load easternSpring2025 (js "Invalid time value") true
                 (answering [sundayEvent]) (TimeValue 1741521600000) initialState)
              (js "2025-03-09T05:00:00.000Z") (js "2025-03-10T04:00:00.000Z")
              (mkQueryResult None (Some (mkStoreError (js "network down"))))
              (mkStoreError (js "network down")))
    as (_ & _ & _ & Hitems & Hnotice).
  - vm_compute. reflexivity.
  - reflexivity.
  - reflexivity.
  - split; [exact Hitems|]. apply Hnotice. discriminate.
Defined.

Lemma kiosk_shows_store_rows_witness :
  st_loading
    (refreshes easternSpring2025 (js "Invalid time value")
       [(answering [sundayEvent], TimeValue 1741521600000);
        (failing, TimeValue 1741521660000)] initialState) = false.
Proof.
  apply (proj1 (kiosk_shows_store_rows easternSpring2025 (js "Invalid time value")
                  [(answering [sundayEvent], TimeValue 1741521600000);
                   (failing, TimeValue 1741521660000)])).
  discriminate.
Defined.

